(** * invoice_qr_scanner: a shallow embedding of models/invoice_scan_record.py

    Python strings are lists of Unicode code points ([N]).  Python
    exceptions are the constructors of [exc]; a Python function that may
    raise returns [res A].  The Odoo table [invoice.scan.record] is a list of
    records, newest first ([_order = 'create_date desc']). *)

From Stdlib Require Import List NArith ZArith QArith Bool Arith Lia String Ascii Permutation.
Import ListNotations.
Close Scope Q_scope.
Open Scope nat_scope.
Open Scope list_scope.

(* ================================================================== *)
(** ** Python values *)

Definition pychar := N.
Definition pystr := list pychar.

Fixpoint of_string (s : string) : pystr :=
  match s with
  | EmptyString => []
  | String a r => N_of_ascii a :: of_string r
  end.

Definition NBSP : pychar := 160%N.

(** [str.isspace] (and so [\s] of [re] on [str] patterns): the characters
    of bidirectional class WS, B or S, or of category Zs. *)
Definition is_space (x : pychar) : bool :=
  ((9 <=? x) && (x <=? 13))%N || ((28 <=? x) && (x <=? 32))%N
  || (x =? 133)%N || (x =? 160)%N || (x =? 5760)%N
  || ((8192 <=? x) && (x <=? 8202))%N
  || (x =? 8232)%N || (x =? 8233)%N || (x =? 8239)%N || (x =? 8287)%N
  || (x =? 12288)%N.

(** The code points of the digit zero of the Unicode decimal digits
    (category Nd) of the Unicode 14.0 database of Python 3.11: each one
    begins a run of ten consecutive digits, 0 to 9. *)
Definition nd_zeros : list N :=
  [48; 1632; 1776; 1984; 2406; 2534; 2662; 2790; 2918; 3046; 3174; 3302;
   3430; 3558; 3664; 3792; 3872; 4160; 4240; 6112; 6160; 6470; 6608; 6784;
   6800; 6992; 7088; 7232; 7248; 42528; 43216; 43264; 43472; 43504; 43600;
   44016; 65296; 66720; 68912; 69734; 69872; 69942; 70096; 70384; 70736;
   70864; 71248; 71360; 71472; 71904; 72016; 72784; 73040; 73120; 92768;
   92864; 93008; 120782; 120792; 120802; 120812; 120822; 123200; 123632;
   125264; 130032]%N.

Definition in_digit_run (x z : pychar) : bool := ((z <=? x) && (x <=? z + 9))%N.

(** [\d] of [re] on [str] patterns ([str.isdecimal] of one character):
    every Unicode decimal digit, not only [0-9] *)
Definition is_digit (x : pychar) : bool := existsb (in_digit_run x) nd_zeros.

(** the value [int] and [float] give a decimal digit *)
Definition digit_value (x : pychar) : N :=
  match find (in_digit_run x) nd_zeros with Some z => (x - z)%N | None => 0%N end.

(** the decimal digits, listed *)
Definition all_digits : list N :=
  flat_map (fun z => map (fun i => z + N.of_nat i)%N (seq 0 10)) nd_zeros.

(** the range [0-9] written in a character class *)
Definition is_ascii_digit (x : pychar) : bool := ((48 <=? x) && (x <=? 57))%N.

(** Case folding used by [re.IGNORECASE] for the ASCII characters of this
    module's patterns: simple lowercase of [A-Z], of U+0130 and U+212A, and
    the equivalences i/U+0131 and s/U+017F of [sre_compile]. *)
Definition fold (x : pychar) : pychar :=
  if ((65 <=? x) && (x <=? 90))%N then (x + 32)%N
  else if ((x =? 304) || (x =? 305))%N then 105%N
  else if (x =? 383)%N then 115%N
  else if (x =? 8490)%N then 107%N
  else x.

(** [str.lower] on ASCII text (the only text it is applied to here). *)
Definition lower_char (x : pychar) : pychar :=
  if ((65 <=? x) && (x <=? 90))%N then (x + 32)%N else x.
Definition lower (s : pystr) : pystr := map lower_char s.

(** [str.strip()] *)
Definition lstrip (s : pystr) : pystr :=
  (fix go l := match l with
               | x :: l' => if is_space x then go l' else l
               | [] => []
               end) s.
Definition strip (s : pystr) : pystr := rev (lstrip (rev (lstrip s))).

(** [s.replace(c, '')] for a one-character [c] *)
Definition remove_char (c : pychar) (s : pystr) : pystr :=
  filter (fun x => negb (x =? c)%N) s.

(** [needle in hay] *)
Fixpoint prefixb (p s : pystr) : bool :=
  match p, s with
  | [], _ => true
  | x :: p', y :: s' => (x =? y)%N && prefixb p' s'
  | _ :: _, [] => false
  end.
Fixpoint contains (hay needle : pystr) : bool :=
  prefixb needle hay || match hay with [] => false | _ :: h => contains h needle end.

(** Python exceptions raised along the modelled paths. *)
Inductive transport_failure := Timeout | ConnectionError | HTTPError | OtherRequestError.

Inductive exc :=
| ValueError (msg : pystr)
| TypeError (msg : pystr)
| ImportError (msg : pystr)
| UserError (msg : pystr)
| IntegrityError (msg : pystr)          (** psycopg2 unique violation *)
| RequestException (k : transport_failure) (msg : pystr)
| OtherException (msg : pystr)          (** any other [Exception] *)
| BaseExceptionOnly (msg : pystr).      (** [KeyboardInterrupt], [SystemExit], ... *)

(** [isinstance(e, Exception)] *)
Definition is_exception (e : exc) : bool :=
  match e with BaseExceptionOnly _ => false | _ => true end.

(** [str(e)] *)
Definition exc_str (e : exc) : pystr :=
  match e with
  | ValueError m | TypeError m | ImportError m | UserError m | IntegrityError m
  | RequestException _ m | OtherException m | BaseExceptionOnly m => m
  end.

Inductive res (A : Type) : Type :=
| Ok (a : A)
| Raise (e : exc).
Arguments Ok {A} a.
Arguments Raise {A} e.

Definition bind {A B} (m : res A) (k : A -> res B) : res B :=
  match m with Ok a => k a | Raise e => Raise e end.
Notation "x <- m ;; k" := (bind m (fun x => k))
  (at level 61, m at next level, right associativity).

(** [try: body except ...]: the handler returns [None] for an exception
    that no [except] clause names, which then propagates. *)
Definition py_try {A} (body : res A) (handler : exc -> option (res A)) : res A :=
  match body with
  | Ok a => Ok a
  | Raise e => match handler e with Some r => r | None => Raise e end
  end.

Fixpoint first_some {A B} (f : A -> option B) (l : list A) : option B :=
  match l with
  | [] => None
  | x :: l' => match f x with Some y => Some y | None => first_some f l' end
  end.

(* ================================================================== *)
(** ** The [re] engine, for patterns whose repetitions are single-character
    classes (all the patterns of this module).  Matching is backtracking
    in the order of [sre]: a greedy repeat tries its longest run first, a
    lazy one its shortest. *)

Inductive item :=
| IRep (c : pychar -> bool) (lo : nat) (hi : option nat) (greedy : bool)
| IOpen (g : nat)
| IClose (g : nat).

Definition captures := list (nat * (nat * nat)).

Fixpoint cap_lookup (g : nat) (caps : captures) : option (nat * nat) :=
  match caps with
  | [] => None
  | (g', se) :: caps' => if Nat.eqb g g' then Some se else cap_lookup g caps'
  end.

Definition close_group (g pos : nat) (caps : captures) : captures :=
  match cap_lookup g caps with
  | Some (st, _) => (g, (st, pos)) :: caps
  | None => caps
  end.

(** the number of leading characters of [l] in [c], at most [hi] *)
Fixpoint run (c : pychar -> bool) (hi : option nat) (l : pystr) : nat :=
  match hi, l with
  | Some 0, _ => 0
  | _, [] => 0
  | _, x :: l' => if c x then S (run c (option_map pred hi) l') else 0
  end.

Definition candidates (lo avail : nat) (greedy : bool) : list nat :=
  if Nat.ltb avail lo then []
  else if greedy then rev (seq lo (S (avail - lo))) else seq lo (S (avail - lo)).

(** [mtch r l pos caps]: match [r] against the text [l] that starts at
    offset [pos]; the end offset and the groups on success. *)
Fixpoint mtch (r : list item) (l : pystr) (pos : nat) (caps : captures)
  : option (nat * captures) :=
  match r with
  | [] => Some (pos, caps)
  | IRep c lo hi g :: r' =>
      first_some (fun k => mtch r' (skipn k l) (pos + k) caps)
                 (candidates lo (run c hi l) g)
  | IOpen n :: r' => mtch r' l pos ((n, (pos, pos)) :: caps)
  | IClose n :: r' => mtch r' l pos (close_group n pos caps)
  end.

(** [re.search(pattern, s)]: the leftmost start offset that matches. *)
Definition search (r : list item) (s : pystr) : option (nat * nat * captures) :=
  first_some (fun i => match mtch r (skipn i s) i [] with
                       | Some (e, caps) => Some (i, e, caps)
                       | None => None
                       end)
             (seq 0 (S (List.length s))).

Definition slice (s : pystr) (i j : nat) : pystr := firstn (j - i) (skipn i s).

(** [m.group(g)] ([None] when the group did not take part) *)
Definition group (s : pystr) (m : nat * nat * captures) (g : nat) : option pystr :=
  let '(i, e, caps) := m in
  if Nat.eqb g 0 then Some (slice s i e)
  else match cap_lookup g caps with
       | Some (st, en) => Some (slice s st en)
       | None => None
       end.

(** pattern building blocks *)
Definition one (c : pychar -> bool) : item := IRep c 1 (Some 1) true.
Definition star (c : pychar -> bool) : item := IRep c 0 None true.
Definition plus (c : pychar -> bool) : item := IRep c 1 None true.
Definition plus_lazy (c : pychar -> bool) : item := IRep c 1 None false.
Definition opt (c : pychar -> bool) : item := IRep c 0 (Some 1) true.
Definition times (c : pychar -> bool) (n : nat) : item := IRep c n (Some n) true.

(** a literal character under [re.IGNORECASE] *)
Definition lit_i (ch : pychar) : pychar -> bool := fun x => (fold x =? fold ch)%N.
Definition lits (w : string) : list item := map (fun ch => one (lit_i ch)) (of_string w).

(** [\n] *)
Definition is_newline (x : pychar) : bool := (x =? 10)%N.

(** [[0-9a-f]] under [re.IGNORECASE] *)
Definition hex_i (x : pychar) : bool :=
  let y := fold x in is_ascii_digit y || ((97 <=? y) && (y <=? 102))%N.

(* ================================================================== *)
(** ** [extract_uuid_from_url] *)

(** [r'[0-9a-f]{8}-[0-9a-f]{4}-[0-9a-f]{4}-[0-9a-f]{4}-[0-9a-f]{12}'] *)
Definition uuid_re : list item :=
  [times hex_i 8; one (lit_i 45%N); times hex_i 4; one (lit_i 45%N); times hex_i 4;
   one (lit_i 45%N); times hex_i 4; one (lit_i 45%N); times hex_i 12].

(** [match = re.search(pattern, url, re.IGNORECASE);
     return match.group(0).lower() if match else None] *)
Definition extract_uuid_from_url (url : pystr) : option pystr :=
  match search uuid_re url with
  | Some m => option_map lower (group url m 0)
  | None => None
  end.

(** The claim's reading of a verification identifier: 8-4-4-4-12
    hexadecimal characters in any letter case, joined by hyphens. *)
Definition hex_any (x : pychar) : bool :=
  is_ascii_digit x || ((97 <=? x) && (x <=? 102))%N || ((65 <=? x) && (x <=? 70))%N.

Definition uuid_shape (w : pystr) : Prop :=
  exists a b c d e,
    w = a ++ [45%N] ++ b ++ [45%N] ++ c ++ [45%N] ++ d ++ [45%N] ++ e
    /\ List.length a = 8 /\ List.length b = 4 /\ List.length c = 4
    /\ List.length d = 4 /\ List.length e = 12
    /\ forallb hex_any (a ++ b ++ c ++ d ++ e) = true.

Definition uuid_at (s : pystr) (i : nat) : Prop :=
  exists w rest, skipn i s = w ++ rest /\ uuid_shape w.

(* ================================================================== *)
(** ** Python values and dicts *)

(** a decoded JSON value ([requests.Response.json()]) *)
#[local] Set Warnings "-register-all".
Inductive json :=
| JNull
| JBool (b : bool)
| JNum (x : Q)
| JStr (s : pystr)
| JArr (l : list json)
| JObj (kvs : list (pystr * json)).

Inductive pyval :=
| VNone
| VBool (b : bool)
| VStr (s : pystr)
| VNum (x : Q)              (** an int or a float (exact value) *)
| VDate (y m d : nat)       (** a [datetime.date] *)
| VJson (j : json).         (** a value taken over from a decoded JSON body *)

Definition json_truthy (j : json) : bool :=
  match j with
  | JNull => false
  | JBool b => b
  | JNum x => negb (Qeq_bool x 0)
  | JStr s => negb (List.length s =? 0)
  | JArr l => negb (List.length l =? 0)
  | JObj kvs => negb (List.length kvs =? 0)
  end.

(** [bool(v)] *)
Definition truthy (v : pyval) : bool :=
  match v with
  | VNone => false
  | VBool b => b
  | VStr s => negb (List.length s =? 0)
  | VNum x => negb (Qeq_bool x 0)
  | VDate _ _ _ => true
  | VJson j => json_truthy j
  end.

(** [a or b] *)
Definition py_or (a b : pyval) : pyval := if truthy a then a else b.

(** a [dict] with string keys, in insertion order *)
Definition dict := list (string * pyval).

Fixpoint dict_get (d : dict) (k : string) : option pyval :=
  match d with
  | [] => None
  | (k', v) :: d' => if String.eqb k k' then Some v else dict_get d' k
  end.

(** [d[k] = v] *)
Fixpoint dict_set (d : dict) (k : string) (v : pyval) : dict :=
  match d with
  | [] => [(k, v)]
  | (k', v') :: d' => if String.eqb k k' then (k, v) :: d' else (k', v') :: dict_set d' k v
  end.

(** [d.get(k, default)] *)
Definition get_or (d : dict) (k : string) (default : pyval) : pyval :=
  match dict_get d k with Some v => v | None => default end.

(** [d.get(k)] *)
Definition dget (d : dict) (k : string) : pyval := get_or d k VNone.

Arguments dict_get d k%_string.
Arguments dict_set d k%_string v.
Arguments get_or d k%_string default.
Arguments dget d k%_string.

(* ================================================================== *)
(** ** [_extract_dgi_data_from_text] *)

(** [[A-Z0-9]] under [re.IGNORECASE] *)
Definition alnum_i (x : pychar) : bool :=
  let y := fold x in is_ascii_digit y || ((97 <=? y) && (y <=? 122))%N.

(** [[A-Z0-9\s\-\.&\']] under [re.IGNORECASE] *)
Definition name_i (x : pychar) : bool :=
  let y := fold x in
  alnum_i x || is_space x || (y =? 45)%N || (y =? 46)%N || (y =? 38)%N || (y =? 39)%N.

(** [[A-Z0-9\-]] under [re.IGNORECASE] *)
Definition verif_i (x : pychar) : bool := alnum_i x || (fold x =? 45)%N.

(** [[\d\s]] *)
Definition digit_or_space (x : pychar) : bool := is_digit x || is_space x.

(** [<LABEL>:\s*\n*\s*] *)
Definition field_prefix (label : string) : list item :=
  lits label ++ [star is_space; star is_newline; star is_space].

(** [r'FOURNISSEUR:\s*\n*\s*([A-Z0-9\s\-\.&\']+?)\s*-\s*([A-Z0-9]+)'] *)
Definition supplier_re : list item :=
  field_prefix "FOURNISSEUR:" ++
  [IOpen 1; plus_lazy name_i; IClose 1; star is_space; one (lit_i 45%N); star is_space;
   IOpen 2; plus alnum_i; IClose 2].

(** [r'CLIENT:\s*\n*\s*([A-Z0-9\s\-\.&\']+?)\s*-\s*([A-Z0-9]+)'] *)
Definition client_re : list item :=
  field_prefix "CLIENT:" ++
  [IOpen 1; plus_lazy name_i; IClose 1; star is_space; one (lit_i 45%N); star is_space;
   IOpen 2; plus alnum_i; IClose 2].

(** [r'NUMERO DE FACTURE:\s*\n*\s*([A-Z0-9]+)'] *)
Definition invoice_re : list item :=
  field_prefix "NUMERO DE FACTURE:" ++ [IOpen 1; plus alnum_i; IClose 1].

(** [r'DATE DE FACTURATION:\s*\n*\s*(\d{2}/\d{2}/\d{4})'] *)
Definition date_re : list item :=
  field_prefix "DATE DE FACTURATION:" ++
  [IOpen 1; times is_digit 2; one (lit_i 47%N); times is_digit 2; one (lit_i 47%N);
   times is_digit 4; IClose 1].

(** [r'ID VERIFICATION:\s*\n*\s*([A-Z0-9\-]+)'] *)
Definition verif_re : list item :=
  field_prefix "ID VERIFICATION:" ++ [IOpen 1; plus verif_i; IClose 1].

(** [r'MONTANT TTC:\s*\n*\s*([\d\s]+)\s*(?:F?CFA)'] *)
Definition amount_re : list item :=
  field_prefix "MONTANT TTC:" ++
  [IOpen 1; plus digit_or_space; IClose 1; star is_space;
   opt (lit_i 70%N); one (lit_i 67%N); one (lit_i 70%N); one (lit_i 65%N)].

(** [m.group(g)] of a group that always takes part in a match *)
Definition grp (s : pystr) (m : nat * nat * captures) (g : nat) : pystr :=
  match group s m g with Some x => x | None => [] end.

Definition digit_val (x : pychar) : nat := N.to_nat (digit_value x).

Definition leap (y : nat) : bool :=
  ((y mod 4 =? 0) && negb (y mod 100 =? 0)) || (y mod 400 =? 0).

Definition days_in_month (y m : nat) : nat :=
  match m with
  | 2 => if leap y then 29 else 28
  | 4 | 6 | 9 | 11 => 30
  | _ => 31
  end.

(** the two-character alternatives of the groups of [_strptime]'s regex
    for ['%d'], [(?P<d>3[0-1]|[1-2]\d|0[1-9]|[1-9]| [1-9])], and for ['%m'],
    [(?P<m>1[0-2]|0[1-9]|[1-9])]: in front of a ['/'] only these can match
    two digits.  Only [\d] admits a non-ASCII digit. *)
Definition strptime_day_ok (d1 d2 : pychar) : bool :=
  ((d1 =? 51) && ((48 <=? d2) && (d2 <=? 49)))%N
  || (((49 <=? d1) && (d1 <=? 50))%N && is_digit d2)
  || ((d1 =? 48) && ((49 <=? d2) && (d2 <=? 57)))%N.

Definition strptime_month_ok (m1 m2 : pychar) : bool :=
  ((m1 =? 49) && ((48 <=? m2) && (m2 <=? 50)))%N
  || ((m1 =? 48) && ((49 <=? m2) && (m2 <=? 57)))%N.

(** [datetime.strptime(s, '%d/%m/%Y').date()] on a string matched by
    [\d{2}/\d{2}/\d{4}]: [_strptime] matches the day and the month with
    the groups above and the year with [(?P<Y>\d\d\d\d)], converts them
    with [int], then [datetime.date(y, m, d)] checks the year and the
    length of the month. *)
Definition strptime_dmy (s : pystr) : res pyval :=
  match s with
  | [d1; d2; _; m1; m2; _; y1; y2; y3; y4] =>
      let d := 10 * digit_val d1 + digit_val d2 in
      let m := 10 * digit_val m1 + digit_val m2 in
      let y := 1000 * digit_val y1 + 100 * digit_val y2 + 10 * digit_val y3 + digit_val y4 in
      if strptime_day_ok d1 d2 && strptime_month_ok m1 m2 then
        if y =? 0 then Raise (ValueError (of_string "year 0 is out of range"))
        else if days_in_month y m <? d
        then Raise (ValueError (of_string "day is out of range for month"))
        else Ok (VDate y m d)
      else Raise (ValueError (of_string "time data '" ++ s ++ of_string "' does not match format '%d/%m/%Y'"))
  | _ => Raise (ValueError (of_string "time data '" ++ s ++ of_string "' does not match format '%d/%m/%Y'"))
  end.

(** the value of a string of decimal digits *)
Definition decimal (s : pystr) : N :=
  fold_left (fun acc x => acc * 10 + digit_value x)%N s 0%N.

(** [float(s)] on a string of [\d] and [\s] characters: [float] strips
    surrounding whitespace and then needs a non-empty run of digits.  The
    value is kept exact (binary64 rounding is a function of it). *)
Definition py_float_digits (s : pystr) : res pyval :=
  let t := strip s in
  if negb (List.length t =? 0) && forallb is_digit t
  then Ok (VNum (inject_Z (Z.of_N (decimal t))))
  else Raise (ValueError (of_string "could not convert string to float: " ++ s)).

(** the dict [data] starts from *)
Definition extract_base (text_content raw_html : pystr) : dict :=
  [("raw_html"%string, VStr (if negb (List.length raw_html =? 0) then firstn 5000 raw_html else []));
   ("text_content"%string, VStr (firstn 3000 text_content));
   ("success"%string, VBool true)].

Definition extract_dgi_data_from_text (text_content raw_html : pystr) : res dict :=
  let data : dict := extract_base text_content raw_html in
  let data :=
    match search supplier_re text_content with
    | Some m => dict_set (dict_set data "supplier_name" (VStr (strip (grp text_content m 1))))
                         "supplier_code_dgi" (VStr (strip (grp text_content m 2)))
    | None => data
    end in
  let data :=
    match search client_re text_content with
    | Some m => dict_set (dict_set data "customer_name" (VStr (strip (grp text_content m 1))))
                         "customer_code_dgi" (VStr (strip (grp text_content m 2)))
    | None => data
    end in
  let data :=
    match search invoice_re text_content with
    | Some m => dict_set data "invoice_number_dgi" (VStr (strip (grp text_content m 1)))
    | None => data
    end in
  data <- match search date_re text_content with
          | Some m => d <- strptime_dmy (grp text_content m 1) ;;
                      Ok (dict_set data "invoice_date" d)
          | None => Ok data
          end ;;
  let data :=
    match search verif_re text_content with
    | Some m => dict_set data "verification_id" (VStr (strip (grp text_content m 1)))
    | None => data
    end in
  match search amount_re text_content with
  | Some m =>
      a <- py_float_digits (strip (remove_char NBSP (remove_char 32%N (grp text_content m 1)))) ;;
      Ok (dict_set data "amount_ttc" a)
  | None => Ok data
  end.

(** the dict has ['success'] set to [True] *)
Definition success_true (d : dict) : Prop := dict_get d "success" = Some (VBool true).
Definition res_success_true (r : res dict) : Prop :=
  match r with Ok d => success_true d | Raise _ => True end.

(** The claim's reading of an amount written with digit-group separators:
    digit groups joined by an ordinary space, a non-breaking space or
    nothing. *)
Inductive sep := SepNone | SepSpace | SepNbsp.

Definition sep_chars (x : sep) : pystr :=
  match x with SepNone => [] | SepSpace => [32%N] | SepNbsp => [NBSP] end.

Fixpoint render (gs : list pystr) (ss : list sep) : pystr :=
  match gs with
  | [] => []
  | g :: gs' =>
      g ++ match gs' with
           | [] => []
           | _ :: _ => sep_chars (hd SepNone ss) ++ render gs' (tl ss)
           end
  end.

(** the value [float()] gives an unseparated digit string *)
Definition amount_value (digits : pystr) : Q := inject_Z (Z.of_N (decimal digits)).

(** [search]'s probe at one start offset, as [re.search] runs it *)
Definition uuid_probe (s : pystr) (i : nat) : option (nat * nat * captures) :=
  match mtch uuid_re (skipn i s) i [] with
  | Some (e, caps) => Some (i, e, caps)
  | None => None
  end.

(* ================================================================== *)
(** ** [_fetch_dgi_with_requests] and [fetch_invoice_data_from_dgi] *)

Fixpoint pystr_eqb (a b : pystr) : bool :=
  match a, b with
  | [], [] => true
  | x :: a', y :: b' => (x =? y)%N && pystr_eqb a' b'
  | _, _ => false
  end.

(** [key in d] / [d[key]] on a decoded JSON object (its keys are distinct) *)
Fixpoint jlookup (kvs : list (pystr * json)) (k : pystr) : option json :=
  match kvs with
  | [] => None
  | (k', v) :: kvs' => if pystr_eqb k k' then Some v else jlookup kvs' k
  end.

(** a [requests.Response]: [status_code], [text], and what [json()] gives *)
Record response := mk_response {
  status_code : nat;
  resp_text : pystr;
  resp_json : res json
}.

Definition dict_false (msg : pystr) : dict :=
  [("success"%string, VBool false); ("error"%string, VStr msg)].

Definition playwright_missing : pystr :=
  of_string "Playwright non install" ++ [233%N] ++ of_string " sur le serveur".

Definition chromium_crash_diagnostic (error_msg : pystr) : pystr :=
  of_string "Erreur: Le navigateur Chromium a crash" ++ [233%N] ++
  of_string " sur le serveur. Causes possibles: m" ++ [233%N] ++
  of_string "moire insuffisante, /dev/shm trop petit (Docker: ajouter --shm-size=256m), ou binaire Chromium corrompu (r" ++ [233%N] ++
  of_string "installer: playwright install chromium). D" ++ [233%N] ++
  of_string "tail: " ++ error_msg.

Section Fetch.

(** [requests.get(u, headers=headers, timeout=t, verify=True)] *)
Variable requests_get : pystr -> nat -> res response.
(** [BeautifulSoup(html, 'html.parser').get_text(separator='\n')] *)
Variable soup_get_text : pystr -> res pystr.
(** [str.upper] *)
Variable py_upper : pystr -> pystr.
(** [str(v)] of a decoded JSON value *)
Variable json_str : json -> pystr.
(** [float(s)] *)
Variable py_float : pystr -> res pyval.
(** the Playwright block of [fetch_invoice_data_from_dgi], from the import to
    the closing of the browser: the body text after the wait loop and
    [page.content()[:5000]], or the exception it raises (an [ImportError]
    for the import).  The closing calls swallow their own exceptions. *)
Variable render_page : pystr -> res (pystr * pystr).

Definition api_urls (uuid : pystr) : list pystr :=
  [of_string "https://www.services.fne.dgi.gouv.ci/api/verification/" ++ uuid;
   of_string "https://www.services.fne.dgi.gouv.ci/api/v1/verification/" ++ uuid].

(** [for key in keys: if key in json_data: data[field] = conv(json_data[key])] *)
Fixpoint map_keys (kvs : list (pystr * json)) (keys : list string) (field : string)
    (conv : json -> res pyval) (data : dict) : res dict :=
  match keys with
  | [] => Ok data
  | k :: keys' =>
      match jlookup kvs (of_string k) with
      | Some v => x <- conv v ;; map_keys kvs keys' field conv (dict_set data field x)
      | None => map_keys kvs keys' field conv data
      end
  end.

(** one turn of [for api_url in api_urls]: [Some data] is the [return],
    [None] goes on with the next URL *)
Definition api_attempt (api_url : pystr) : res (option dict) :=
  py_try
    (resp <- requests_get api_url 15 ;;
     if status_code resp =? 200 then
       json_data <- resp_json resp ;;
       match json_data with
       | JObj kvs =>
           if json_truthy json_data then
             let data : dict :=
               [("success"%string, VBool true); ("raw_html"%string, VStr []);
                ("text_content"%string, VStr (firstn 3000 (json_str json_data)))] in
             data <- map_keys kvs ("supplier_name" :: "fournisseur" :: "supplierName" :: [])%string
                       "supplier_name" (fun v => Ok (VJson v)) data ;;
             data <- map_keys kvs
                       ("amount_ttc" :: "montantTtc" :: "montant_ttc" :: "totalAmount" :: [])%string
                       "amount_ttc" (fun v => py_float (remove_char 32%N (json_str v))) data ;;
             data <- map_keys kvs
                       ("invoice_number" :: "invoiceNumber" :: "numero_facture" :: [])%string
                       "invoice_number_dgi" (fun v => Ok (VJson v)) data ;;
             if truthy (py_or (dget data "supplier_name") (dget data "amount_ttc"))
             then Ok (Some data) else Ok None
           else Ok None
       | _ => Ok None
       end
     else Ok None)
    (fun e => match e with
              | RequestException _ _ | ValueError _ => Some (Ok None)
              | _ => None
              end).

Fixpoint api_loop (urls : list pystr) : res (option dict) :=
  match urls with
  | [] => Ok None
  | u :: urls' =>
      r <- api_attempt u ;;
      match r with Some data => Ok (Some data) | None => api_loop urls' end
  end.

Definition fetch_dgi_with_requests (url : pystr) : res (option dict) :=
  py_try
    (r <- match extract_uuid_from_url url with
          | Some uuid => api_loop (api_urls uuid)
          | None => Ok None
          end ;;
     match r with
     | Some data => Ok (Some data)
     | None =>
         resp <- requests_get url 30 ;;
         if status_code resp =? 200 then
           text_content <- soup_get_text (resp_text resp) ;;
           if contains (py_upper text_content) (of_string "FOURNISSEUR")
              || contains (py_upper text_content) (of_string "NUMERO DE FACTURE")
           then data <- extract_dgi_data_from_text text_content (resp_text resp) ;;
                Ok (Some data)
           else Ok None
         else Ok None
     end)
    (fun e => if is_exception e then Some (Ok None) else None).

(** the Playwright fallback and its [except] clauses *)
Definition render_path (url : pystr) : res dict :=
  py_try
    (p <- render_page url ;;
     let '(text_content, raw_html) := p in
     extract_dgi_data_from_text text_content raw_html)
    (fun e =>
       match e with
       | ImportError _ => Some (Ok (dict_false playwright_missing))
       | _ =>
           if is_exception e then
             let error_msg := exc_str e in
             if contains error_msg (of_string "Target page, context or browser has been closed")
                || contains error_msg (of_string "SIGTRAP")
             then Some (Ok (dict_false (chromium_crash_diagnostic error_msg)))
             else Some (Ok (dict_false (of_string "Erreur: " ++ error_msg)))
           else None
       end).

Definition fetch_invoice_data_from_dgi (url : pystr) : res dict :=
  requests_result <- fetch_dgi_with_requests url ;;
  match requests_result with
  | Some d =>
      if negb (List.length d =? 0) && truthy (dget d "success") then Ok d else render_path url
  | None => render_path url
  end.

End Fetch.

(* ================================================================== *)
(** ** [_launch_playwright_browser] *)

(** what the loop does, in order: a [chromium.launch] call (attempt number)
    or a [time.sleep] (seconds) *)
Inductive launch_event :=
| ELaunch (attempt : nat)
| ESleep (seconds : nat).

(** the loop over the attempts [todo]; [launch k] is the outcome of the
    [k]-th [chromium.launch(...)]; after the loop, [raise last_error] *)
Fixpoint launch_attempts {B} (launch : nat -> res B) (max_retries : nat) (todo : list nat)
    (last_error : option exc) : list launch_event * res B :=
  match todo with
  | [] =>
      ([], match last_error with
           | Some e => Raise e
           | None => Raise (TypeError (of_string "exceptions must derive from BaseException"))
           end)
  | attempt :: todo' =>
      match launch attempt with
      | Ok browser => ([ELaunch attempt], Ok browser)
      | Raise e =>
          if is_exception e then
            let wait := if attempt <? max_retries then [ESleep (attempt * 3)] else [] in
            let '(tr, r) := launch_attempts launch max_retries todo' (Some e) in
            (ELaunch attempt :: wait ++ tr, r)
          else ([ELaunch attempt], Raise e)
      end
  end.

Definition launch_playwright_browser {B} (launch : nat -> res B) (max_retries : nat)
  : list launch_event * res B :=
  launch_attempts launch max_retries (seq 1 max_retries) None.

Definition launch_count (tr : list launch_event) : nat :=
  List.length (filter (fun ev => match ev with ELaunch _ => true | ESleep _ => false end) tr).

(** the trace of attempts [1..j] when the first [j - 1] fail: each failed
    attempt [k] is followed by a sleep of [3 k] seconds *)
Definition backoff_trace (j : nat) : list launch_event :=
  flat_map (fun k => [ELaunch k; ESleep (k * 3)]) (seq 1 (j - 1)) ++ [ELaunch j].

(** the events of a failed attempt [k] out of [n]: the launch, then the
    sleep unless it was the last attempt *)
Definition launch_step (n k : nat) : list launch_event :=
  ELaunch k :: (if k <? n then [ESleep (k * 3)] else []).

(* ================================================================== *)
(** ** The scan records and [process_qr_scan] *)

Inductive scan_state := Draft | Done | Processed | Error.

Definition scan_state_eqb (a b : scan_state) : bool :=
  match a, b with
  | Draft, Draft | Done, Done | Processed, Processed | Error, Error => true
  | _, _ => false
  end.

(** an [invoice.scan.record] row; unset [Char]/[Date] fields are [VNone] *)
Record scan_record := mk_rec {
  rec_id : nat;
  reference : pystr;
  qr_uuid : pystr;
  qr_url : pystr;
  company_id : nat;
  supplier_name : pyval;
  supplier_code_dgi : pyval;
  customer_name : pyval;
  customer_code_dgi : pyval;
  invoice_number_dgi : pyval;
  invoice_date : pyval;
  verification_id : pyval;
  amount_ttc : pyval;
  raw_html_field : pyval;
  invoice_id : option nat;
  state : scan_state;
  error_message : pyval;
  scanned_by : nat;
  scan_date : nat;
  duplicate_count : nat;
  last_duplicate_attempt : option nat;
  last_duplicate_user_id : option nat
}.

(** [existing.write({'duplicate_count': c, 'last_duplicate_attempt': t,
    'last_duplicate_user_id': u})] *)
Definition set_dup (r : scan_record) (c t u : nat) : scan_record :=
  mk_rec (rec_id r) (reference r) (qr_uuid r) (qr_url r) (company_id r)
    (supplier_name r) (supplier_code_dgi r) (customer_name r) (customer_code_dgi r)
    (invoice_number_dgi r) (invoice_date r) (verification_id r) (amount_ttc r)
    (raw_html_field r) (invoice_id r) (state r) (error_message r) (scanned_by r)
    (scan_date r) c (Some t) (Some u).

(** [self.write({'invoice_id': inv, 'state': 'done'})] *)
Definition set_done (r : scan_record) (inv : nat) : scan_record :=
  mk_rec (rec_id r) (reference r) (qr_uuid r) (qr_url r) (company_id r)
    (supplier_name r) (supplier_code_dgi r) (customer_name r) (customer_code_dgi r)
    (invoice_number_dgi r) (invoice_date r) (verification_id r) (amount_ttc r)
    (raw_html_field r) (Some inv) Done (error_message r) (scanned_by r)
    (scan_date r) (duplicate_count r) (last_duplicate_attempt r) (last_duplicate_user_id r).

(** [record.write({'state': 'error', 'error_message': msg})] *)
Definition set_error_state (r : scan_record) (msg : pyval) : scan_record :=
  mk_rec (rec_id r) (reference r) (qr_uuid r) (qr_url r) (company_id r)
    (supplier_name r) (supplier_code_dgi r) (customer_name r) (customer_code_dgi r)
    (invoice_number_dgi r) (invoice_date r) (verification_id r) (amount_ttc r)
    (raw_html_field r) (invoice_id r) Error msg (scanned_by r)
    (scan_date r) (duplicate_count r) (last_duplicate_attempt r) (last_duplicate_user_id r).

(** [record.write({'error_message': msg})] *)
Definition set_error_message (r : scan_record) (msg : pyval) : scan_record :=
  mk_rec (rec_id r) (reference r) (qr_uuid r) (qr_url r) (company_id r)
    (supplier_name r) (supplier_code_dgi r) (customer_name r) (customer_code_dgi r)
    (invoice_number_dgi r) (invoice_date r) (verification_id r) (amount_ttc r)
    (raw_html_field r) (invoice_id r) (state r) msg (scanned_by r)
    (scan_date r) (duplicate_count r) (last_duplicate_attempt r) (last_duplicate_user_id r).

(** the database seen by the module: the scan records in creation order,
    the next row id, the clock, [self.env.company], [self.env.user] and the
    accounting side (the [account.move] rows, abstractly) *)
Record env := mk_env {
  db : list scan_record;
  next_id : nat;
  now : nat;
  company : nat;
  uid : nat;
  ledger : list nat
}.

Definition with_db (en : env) (rs : list scan_record) (n : nat) : env :=
  mk_env rs n (now en) (company en) (uid en) (ledger en).

Definition with_ledger (en : env) (lg : list nat) : env :=
  mk_env (db en) (next_id en) (now en) (company en) (uid en) lg.

(** the ORM as a state and exception monad: writes made before an
    exception stay (no savepoint is taken) *)
Definition st (A : Type) : Type := env -> env * res A.

Definition sret {A} (a : A) : st A := fun en => (en, Ok a).
Definition sraise {A} (e : exc) : st A := fun en => (en, Raise e).
Definition slift {A} (r : res A) : st A := fun en => (en, r).
Definition sget : st env := fun en => (en, Ok en).
Definition sbind {A B} (m : st A) (k : A -> st B) : st B :=
  fun en => let '(en', r) := m en in
            match r with Ok a => k a en' | Raise e => (en', Raise e) end.
Notation "x <-- m ;;; k" := (sbind m (fun x => k))
  (at level 61, m at next level, right associativity).

(** [try: m except ...] *)
Definition stry {A} (m : st A) (handler : exc -> option (st A)) : st A :=
  fun en => let '(en', r) := m en in
            match r with
            | Ok a => (en', Ok a)
            | Raise e => match handler e with Some k => k en' | None => (en', Raise e) end
            end.

Definition find_rec (id : nat) (rs : list scan_record) : option scan_record :=
  find (fun r => rec_id r =? id) rs.

Definition missing_error : exc :=
  OtherException (of_string "Record does not exist or has been deleted.").

Definition read_rec (id : nat) : st scan_record :=
  fun en => match find_rec id (db en) with
            | Some r => (en, Ok r)
            | None => (en, Raise missing_error)
            end.

Definition write_rec (id : nat) (f : scan_record -> scan_record) : st unit :=
  fun en => (with_db en (map (fun r => if rec_id r =? id then f r else r) (db en)) (next_id en),
             Ok tt).

Definition same_key (u : pystr) (c : nat) (r : scan_record) : bool :=
  pystr_eqb (qr_uuid r) u && (company_id r =? c).

Definition unique_violation : exc :=
  IntegrityError (of_string "duplicate key value violates unique constraint " ++ [34%N] ++
                  of_string "invoice_scan_record_qr_uuid_unique" ++ [34%N]).

(** [self.create(vals)]: the row gets the next id; the SQL constraint
    [unique(qr_uuid, company_id)] refuses a second row for a key, whatever
    the first row's state *)
Definition create (build : nat -> scan_record) : st nat :=
  fun en =>
    let r := build (next_id en) in
    if existsb (same_key (qr_uuid r) (company_id r)) (db en)
    then (en, Raise unique_violation)
    else (with_db en (db en ++ [r]) (S (next_id en)), Ok (next_id en)).

Fixpoint ids_unique (rs : list scan_record) : bool :=
  match rs with
  | [] => true
  | r :: rs' => negb (existsb (fun x => rec_id x =? rec_id r) rs') && ids_unique rs'
  end.

Fixpoint keys_unique (rs : list scan_record) : bool :=
  match rs with
  | [] => true
  | r :: rs' => negb (existsb (same_key (qr_uuid r) (company_id r)) rs') && keys_unique rs'
  end.

(** what the table always satisfies: row ids are distinct and below the
    next id, and the SQL constraint keeps one row per (qr_uuid, company_id) *)
Definition wf (en : env) : bool :=
  ids_unique (db en) && forallb (fun r => rec_id r <? next_id en) (db en)
  && keys_unique (db en).

Definition is_done_or_processed (s : scan_state) : bool :=
  match s with Done | Processed => true | _ => false end.

(** [check_duplicate]: [search(..., limit=1)] under [_order = 'create_date desc'] *)
Definition check_duplicate (en : env) (uuid : pystr) : option scan_record :=
  find (fun r => pystr_eqb (qr_uuid r) uuid && is_done_or_processed (state r)
                 && (company_id r =? company en))
       (rev (db en)).

(** [user_id or self.env.user.id] *)
Definition acting (en : env) (user_id : option nat) : nat :=
  match user_id with
  | Some u => if u =? 0 then uid en else u
  | None => uid en
  end.

Definition nat_val (n : nat) : pyval := VNum (inject_Z (Z.of_nat n)).

Inductive scan_result :=
| SInvalidUrl
| SDuplicate (count : nat) (existing_record : dict)
| SDgiError (error : pyval) (record_id : nat)
| SSuccess (record_id invoice : nat)
| SInvoiceError (error : pystr) (record_id : nat).

(** the ['success'] entry of the returned dict *)
Definition result_success (r : scan_result) : bool :=
  match r with SSuccess _ _ => true | _ => false end.

(** the ['error_code'] entry of the returned dict *)
Definition result_error_code (r : scan_result) : option string :=
  match r with
  | SInvalidUrl => Some "INVALID_URL"%string
  | SDuplicate _ _ => Some "DUPLICATE"%string
  | SDgiError _ _ => Some "DGI_ERROR"%string
  | SSuccess _ _ => None
  | SInvoiceError _ _ => Some "INVOICE_ERROR"%string
  end.

Definition invoice_error_prefix : pystr :=
  of_string "Erreur lors de la cr" ++ [233%N] ++ of_string "ation de la facture: ".

Definition invoice_exists_msg : pystr :=
  of_string "Une facture existe d" ++ [233%N] ++ of_string "j" ++ [224%N] ++
  of_string " pour ce scan.".

Section Process.

(** [fetch_invoice_data_from_dgi] *)
Variable fetch : pystr -> res dict.
(** the accounting steps of [_create_invoice] (supplier, journal, expense
    account, [account.move] creation, its line and [action_post]) on the
    scan record: the new accounting rows and the invoice id or the
    exception one of them raises *)
Variable acct : scan_record -> list nat -> list nat * res nat.
(** [ir.sequence.next_by_code('invoice.scan.record')] for the n-th row *)
Variable seq_ref : nat -> pystr.
(** [account.move.name], [res.users.name], [datetime.isoformat()] *)
Variable move_name : nat -> pystr.
Variable user_name : nat -> pystr.
Variable iso : nat -> pystr.

(** the ['existing_record'] dict of a [DUPLICATE] result *)
Definition snapshot (r : scan_record) : dict :=
  [("id"%string, nat_val (rec_id r));
   ("reference"%string, VStr (reference r));
   ("supplier_name"%string, py_or (supplier_name r) (VStr []));
   ("supplier_code_dgi"%string, py_or (supplier_code_dgi r) (VStr []));
   ("invoice_number_dgi"%string, py_or (invoice_number_dgi r) (VStr []));
   ("amount_ttc"%string, py_or (amount_ttc r) (nat_val 0));
   ("invoice_id"%string, match invoice_id r with Some i => nat_val i | None => VNone end);
   ("invoice_name"%string, match invoice_id r with Some i => VStr (move_name i) | None => VNone end);
   ("scan_date"%string, VStr (iso (scan_date r)));
   ("scanned_by"%string, VStr (user_name (scanned_by r)));
   ("duplicate_count"%string, nat_val (duplicate_count r));
   ("last_duplicate_attempt"%string,
    match last_duplicate_attempt r with Some t => VStr (iso t) | None => VNone end)].

(** the row [self.create] makes when the fetch did not succeed *)
Definition error_record (en : env) (url uuid : pystr) (d : dict) (user_id : option nat)
    (id : nat) : scan_record :=
  mk_rec id (seq_ref id) uuid url (company en)
    VNone VNone VNone VNone VNone VNone VNone (nat_val 0) VNone None Error
    (get_or d "error" (VStr (of_string "Erreur inconnue"))) (acting en user_id) (now en)
    0 None None.

(** the row [self.create(record_vals)] makes from the fetched data *)
Definition draft_record (en : env) (url uuid : pystr) (d : dict) (user_id : option nat)
    (id : nat) : scan_record :=
  mk_rec id (seq_ref id) uuid url (company en)
    (dget d "supplier_name") (dget d "supplier_code_dgi") (dget d "customer_name")
    (dget d "customer_code_dgi") (dget d "invoice_number_dgi") (dget d "invoice_date")
    (dget d "verification_id") (get_or d "amount_ttc" (nat_val 0)) (dget d "raw_html")
    None Draft VNone (acting en user_id) (now en) 0 None None.

Definition run_acct (r : scan_record) : st nat :=
  fun en => let '(lg, o) := acct r (ledger en) in (with_ledger en lg, o).

Definition create_invoice (id : nat) : st nat :=
  r <-- read_rec id ;;;
  match invoice_id r with
  | Some _ => sraise (UserError invoice_exists_msg)
  | None =>
      inv <-- run_acct r ;;;
      _ <-- write_rec id (fun r => set_done r inv) ;;;
      sret inv
  end.

Definition process_qr_scan (url : pystr) (user_id : option nat) : st scan_result :=
  match extract_uuid_from_url url with
  | None => sret SInvalidUrl
  | Some uuid =>
      en <-- sget ;;;
      match check_duplicate en uuid with
      | Some existing =>
          _ <-- write_rec (rec_id existing)
                  (fun r => set_dup r (S (duplicate_count r)) (now en) (acting en user_id)) ;;;
          r <-- read_rec (rec_id existing) ;;;
          sret (SDuplicate (duplicate_count r) (snapshot r))
      | None =>
          dgi_data <-- slift (fetch url) ;;;
          if negb (truthy (dget dgi_data "success")) then
            id <-- create (error_record en url uuid dgi_data user_id) ;;;
            sret (SDgiError (dget dgi_data "error") id)
          else
            id <-- create (draft_record en url uuid dgi_data user_id) ;;;
            stry (inv <-- create_invoice id ;;; sret (SSuccess id inv))
                 (fun e =>
                    if is_exception e then
                      Some (_ <-- write_rec id (fun r => set_error_state r (VStr (exc_str e))) ;;;
                            sret (SInvoiceError (invoice_error_prefix ++ exc_str e) id))
                    else None)
      end
  end.

(** [action_retry_create_invoice] (the form button) *)
Definition action_retry_create_invoice (id : nat) : st unit :=
  r <-- read_rec id ;;;
  if scan_state_eqb (state r) Error && negb (match invoice_id r with Some _ => true | None => false end)
  then stry (_ <-- create_invoice id ;;; sret tt)
            (fun e =>
               if is_exception e then
                 Some (_ <-- write_rec id (fun r => set_error_message r (VStr (exc_str e))) ;;;
                       sraise (UserError (of_string "Erreur: " ++ exc_str e)))
               else None)
  else sret tt.

Inductive api_result :=
| ApiNotFound
| ApiInvalidState (s : scan_state)
| ApiAlreadyProcessed
| ApiRetryOk (record_id invoice : nat)
| ApiRetryFailed (msg : pystr).

Definition retry_failed_note : pystr :=
  of_string "Nouvelle tentative " ++ [233%N] ++ of_string "chou" ++ [233%N] ++ of_string "e: ".

Definition retry_failed_msg : pystr :=
  [201%N] ++ of_string "chec de la nouvelle tentative: ".

(** [retry_error] of the mobile API *)
Definition retry_error (id : nat) : st api_result :=
  en <-- sget ;;;
  match find_rec id (db en) with
  | None => sret ApiNotFound
  | Some r =>
      if negb (scan_state_eqb (state r) Error) then sret (ApiInvalidState (state r))
      else match invoice_id r with
           | Some _ => sret ApiAlreadyProcessed
           | None =>
               stry (inv <-- create_invoice id ;;; sret (ApiRetryOk id inv))
                    (fun e =>
                       if is_exception e then
                         Some (_ <-- write_rec id
                                       (fun r => set_error_message r
                                                   (VStr (retry_failed_note ++ exc_str e))) ;;;
                               sret (ApiRetryFailed (retry_failed_msg ++ exc_str e)))
                       else None)
           end
  end.

End Process.

(** none of the six field patterns occurs in the text *)
Definition no_field_matches (text : pystr) : bool :=
  forallb (fun r => match search r text with Some _ => false | None => true end)
          [supplier_re; client_re; invoice_re; date_re; verif_re; amount_re].

(* ================================================================== *)
(** ** Opening the invoice of a scan *)

Definition no_invoice_msg : pystr := of_string "Aucune facture associ" ++ [233%N] ++ of_string "e.".

(** the window action returned by [action_view_invoice] *)
Definition invoice_action (inv : nat) : dict :=
  [("type"%string, VStr (of_string "ir.actions.act_window"));
   ("name"%string, VStr (of_string "Facture"));
   ("res_model"%string, VStr (of_string "account.move"));
   ("res_id"%string, nat_val inv);
   ("view_mode"%string, VStr (of_string "form"));
   ("target"%string, VStr (of_string "current"))].

(** [action_view_invoice] *)
Definition action_view_invoice (id : nat) : st dict :=
  r <-- read_rec id ;;;
  match invoice_id r with
  | None => sraise (UserError no_invoice_msg)
  | Some inv => sret (invoice_action inv)
  end.

(* ================================================================== *)
(** ** Marking scans as processed *)

(** [record.write({'state': s})] *)
Definition set_state (r : scan_record) (s : scan_state) : scan_record :=
  mk_rec (rec_id r) (reference r) (qr_uuid r) (qr_url r) (company_id r)
    (supplier_name r) (supplier_code_dgi r) (customer_name r) (customer_code_dgi r)
    (invoice_number_dgi r) (invoice_date r) (verification_id r) (amount_ttc r)
    (raw_html_field r) (invoice_id r) s (error_message r) (scanned_by r)
    (scan_date r) (duplicate_count r) (last_duplicate_attempt r) (last_duplicate_user_id r).

(** the [processed_by] and [processed_date] columns, which only the marking
    actions write, and always together: [(id, (user, date))] for each row
    where they are set; a row with no entry has both at [False] *)
Definition proc_table := list (nat * (nat * nat)).

Definition proc_of (id : nat) (p : proc_table) : option (nat * nat) :=
  option_map snd (find (fun e => fst e =? id) p).

Definition proc_clear (id : nat) (p : proc_table) : proc_table :=
  filter (fun e => negb (fst e =? id)) p.

Definition proc_put (id : nat) (v : option (nat * nat)) (p : proc_table) : proc_table :=
  match v with
  | Some uv => (id, uv) :: proc_clear id p
  | None => proc_clear id p
  end.

(** the database with the two columns beside the rest of the row *)
Record menv := mk_menv {
  base : env;
  processed : proc_table
}.

Definition mst (A : Type) : Type := menv -> menv * res A.

Definition mret {A} (a : A) : mst A := fun me => (me, Ok a).
Definition mraise {A} (e : exc) : mst A := fun me => (me, Raise e).
Definition mget : mst menv := fun me => (me, Ok me).
Definition mbind {A B} (m : mst A) (k : A -> mst B) : mst B :=
  fun me => let '(me', r) := m me in
            match r with Ok a => k a me' | Raise e => (me', Raise e) end.
Notation "x <<- m ;;; k" := (mbind m (fun x => k))
  (at level 61, m at next level, right associativity).

Definition mtry {A} (m : mst A) (handler : exc -> option (mst A)) : mst A :=
  fun me => let '(me', r) := m me in
            match r with
            | Ok a => (me', Ok a)
            | Raise e => match handler e with Some k => k me' | None => (me', Raise e) end
            end.

(** a step of the scanning code, which leaves the two columns alone *)
Definition lift {A} (m : st A) : mst A :=
  fun me => let '(en', r) := m (base me) in (mk_menv en' (processed me), r).

(** [record.write({'state': s, 'processed_by': u, 'processed_date': t})],
    [u] and [t] both [False] for [v = None] *)
Definition write_marked (id : nat) (s : scan_state) (v : option (nat * nat)) : mst unit :=
  _ <<- lift (write_rec id (fun r => set_state r s)) ;;;
  fun me => (mk_menv (base me) (proc_put id v (processed me)), Ok tt).

(** the same [write] on a recordset *)
Fixpoint write_marked_all (ids : list nat) (s : scan_state) (v : option (nat * nat)) : mst unit :=
  match ids with
  | [] => mret tt
  | i :: ids' => _ <<- write_marked i s v ;;; write_marked_all ids' s v
  end.

(** [self.filtered(lambda r: r.state == s)]; reading a deleted row raises *)
Fixpoint filtered_state (s : scan_state) (ids : list nat) : st (list nat) :=
  match ids with
  | [] => sret []
  | i :: ids' =>
      r <-- read_rec i ;;;
      rest <-- filtered_state s ids' ;;;
      sret (if scan_state_eqb (state r) s then i :: rest else rest)
  end.

Definition mark_processed_refused : pystr :=
  of_string "Seuls les scans avec facture cr" ++ [233%N; 233%N] ++
  of_string "e peuvent " ++ [234%N] ++ of_string "tre marqu" ++ [233%N] ++
  of_string "s comme trait" ++ [233%N] ++ of_string "s.".

Definition mark_unprocessed_refused : pystr :=
  of_string "Seuls les scans trait" ++ [233%N] ++ of_string "s peuvent " ++ [234%N] ++
  of_string "tre remis " ++ [224%N] ++ of_string " l'" ++ [233%N] ++
  of_string "tat 'Facture cr" ++ [233%N; 233%N] ++ of_string "e'.".

(** [action_mark_processed] on the recordset [ids] (the chatter messages
    of [message_post] are not modelled, as in [process_qr_scan]) *)
Definition action_mark_processed (ids : list nat) : mst bool :=
  records <<- lift (filtered_state Done ids) ;;;
  match records with
  | [] => mraise (UserError mark_processed_refused)
  | _ :: _ =>
      me <<- mget ;;;
      _ <<- write_marked_all records Processed (Some (uid (base me), now (base me))) ;;;
      mret true
  end.

(** [action_mark_unprocessed] on the recordset [ids] *)
Definition action_mark_unprocessed (ids : list nat) : mst bool :=
  records <<- lift (filtered_state Processed ids) ;;;
  match records with
  | [] => mraise (UserError mark_unprocessed_refused)
  | _ :: _ =>
      _ <<- write_marked_all records Done None ;;;
      mret true
  end.

(** the outcome of the [mark-processed] and [mark-unprocessed] endpoints:
    [NOT_FOUND], [INVALID_STATE] with the current state, or success with
    the row and its two columns as [_format_scan_record] reads them *)
Inductive mark_result :=
| MarkNotFound
| MarkInvalidState (s : scan_state)
| MarkOk (record : scan_record) (processed_info : option (nat * nat)).

(** [mark_processed] of the mobile API, for the authenticated user [user] *)
Definition mark_processed (record_id user : nat) : mst mark_result :=
  me <<- mget ;;;
  match find_rec record_id (db (base me)) with
  | None => mret MarkNotFound
  | Some r =>
      if negb (scan_state_eqb (state r) Done) then mret (MarkInvalidState (state r))
      else
        _ <<- write_marked record_id Processed (Some (user, now (base me))) ;;;
        r' <<- lift (read_rec record_id) ;;;
        me' <<- mget ;;;
        mret (MarkOk r' (proc_of record_id (processed me')))
  end.

(** [mark_unprocessed] of the mobile API *)
Definition mark_unprocessed (record_id user : nat) : mst mark_result :=
  me <<- mget ;;;
  match find_rec record_id (db (base me)) with
  | None => mret MarkNotFound
  | Some r =>
      if negb (scan_state_eqb (state r) Processed) then mret (MarkInvalidState (state r))
      else
        _ <<- write_marked record_id Done None ;;;
        r' <<- lift (read_rec record_id) ;;;
        me' <<- mget ;;;
        mret (MarkOk r' (proc_of record_id (processed me')))
  end.

(* ================================================================== *)
(** ** Bulk operations of the mobile API *)

(** [min(hi, max(lo, x))] *)
Definition clamp (lo hi x : Z) : Z := Z.min hi (Z.max lo x).

(** [order='scan_date asc']: rows with the same date keep the table order *)
Fixpoint insert_by (key : scan_record -> nat) (x : scan_record) (l : list scan_record)
    : list scan_record :=
  match l with
  | [] => [x]
  | y :: l' => if key x <=? key y then x :: l else y :: insert_by key x l'
  end.

Definition sort_by (key : scan_record -> nat) (l : list scan_record) : list scan_record :=
  fold_right (insert_by key) [] l.

(** [search(domain, limit=limit, order='scan_date asc')] *)
Definition search_asc (dom : scan_record -> bool) (limit : Z) (rs : list scan_record)
    : list scan_record :=
  firstn (Z.to_nat limit) (sort_by scan_date (filter dom rs)).

(** [('id', 'in', record_ids)], added when [record_ids] is not empty *)
Definition in_ids (record_ids : list nat) (r : scan_record) : bool :=
  match record_ids with
  | [] => true
  | _ :: _ => existsb (Nat.eqb (rec_id r)) record_ids
  end.

(** one entry of ['results']: [record_id], [reference], [success], and
    [invoice_id] or [error] *)
Record bulk_entry := mk_entry {
  entry_id : nat;
  entry_reference : pystr;
  entry_success : bool;
  entry_invoice : option nat;
  entry_error : option pystr
}.

(** the ['summary'] of the bulk endpoints *)
Record bulk_summary := mk_summary {
  total_processed : Z;
  successful : Z;
  failed : Z
}.

Definition summarize (results : list bulk_entry) : bulk_summary :=
  let ok := Z.of_nat (List.length (filter entry_success results)) in
  mk_summary (Z.of_nat (List.length results)) ok (Z.of_nat (List.length results) - ok)%Z.

Definition bulk_mark_domain (en : env) (record_ids : list nat) (r : scan_record) : bool :=
  (company_id r =? company en) && scan_state_eqb (state r) Done && in_ids record_ids r.

Fixpoint bulk_mark_loop (user t : nat) (records : list scan_record) : mst (list bulk_entry) :=
  match records with
  | [] => mret []
  | r :: rs =>
      e <<- mtry (_ <<- write_marked (rec_id r) Processed (Some (user, t)) ;;;
                  mret (mk_entry (rec_id r) (reference r) true None None))
                 (fun e => if is_exception e
                           then Some (mret (mk_entry (rec_id r) (reference r) false None
                                                     (Some (exc_str e))))
                           else None) ;;;
      rest <<- bulk_mark_loop user t rs ;;;
      mret (e :: rest)
  end.

(** [bulk_mark_processed] of the mobile API, with the body's [record_ids]
    and [int(data.get('max_records', 50))] *)
Definition bulk_mark_processed (record_ids : list nat) (max_records_in : Z) (user : nat)
    : mst (list bulk_entry * bulk_summary) :=
  let max_records := clamp 1 200 max_records_in in
  me <<- mget ;;;
  let records := search_asc (bulk_mark_domain (base me) record_ids) max_records (db (base me)) in
  results <<- bulk_mark_loop user (now (base me)) records ;;;
  mret (results, summarize results).

Definition bulk_failed_note : pystr :=
  of_string "Tentative group" ++ [233%N] ++ of_string "e " ++ [233%N] ++
  of_string "chou" ++ [233%N] ++ of_string "e: ".

Definition bulk_retry_domain (en : env) (record_ids : list nat) (r : scan_record) : bool :=
  (company_id r =? company en) && scan_state_eqb (state r) Error
  && negb (match invoice_id r with Some _ => true | None => false end)
  && in_ids record_ids r.

Section Bulk.

(** the accounting steps of [_create_invoice], as in [process_qr_scan] *)
Variable acct : scan_record -> list nat -> list nat * res nat.

Fixpoint bulk_retry_loop (records : list scan_record) : st (list bulk_entry) :=
  match records with
  | [] => sret []
  | r :: rs =>
      e <-- stry (inv <-- create_invoice acct (rec_id r) ;;;
                  sret (mk_entry (rec_id r) (reference r) true (Some inv) None))
                 (fun e => if is_exception e
                           then Some (_ <-- write_rec (rec_id r)
                                              (fun x => set_error_message x
                                                          (VStr (bulk_failed_note ++ exc_str e))) ;;;
                                      sret (mk_entry (rec_id r) (reference r) false None
                                                     (Some (exc_str e))))
                           else None) ;;;
      rest <-- bulk_retry_loop rs ;;;
      sret (e :: rest)
  end.

(** [bulk_retry_errors] of the mobile API, with the body's [record_ids]
    and [int(data.get('max_records', 10))] *)
Definition bulk_retry_errors (record_ids : list nat) (max_records_in : Z)
    : st (list bulk_entry * bulk_summary) :=
  let max_records := clamp 1 50 max_records_in in
  en <-- sget ;;;
  let records := search_asc (bulk_retry_domain en record_ids) max_records (db en) in
  results <-- bulk_retry_loop records ;;;
  sret (results, summarize results).

End Bulk.

(* ================================================================== *)
(** ** Statistics, history and errors of the mobile API *)

Record stats := mk_stats {
  total_scans : nat;
  successful_scans : nat;
  processed_scans : nat;
  unprocessed_scans : nat;
  error_scans : nat;
  duplicate_attempts : nat;
  records_with_duplicates : nat;
  total_amount : Q
}.

(** a [Monetary] field reads [0.0] when it is not set *)
Definition monetary (v : pyval) : Q := match v with VNum x => x | _ => 0%Q end.

(** [get_stats] of the mobile API *)
Definition get_stats (en : env) : stats :=
  let mine := filter (fun r => company_id r =? company en) (db en) in
  let search_count p := List.length (filter p mine) in
  let successful_scans := search_count (fun r => is_done_or_processed (state r)) in
  let processed_scans := search_count (fun r => scan_state_eqb (state r) Processed) in
  let unprocessed_scans := search_count (fun r => scan_state_eqb (state r) Done) in
  let error_scans := search_count (fun r => scan_state_eqb (state r) Error) in
  let records_with_duplicates := filter (fun r => 0 <? duplicate_count r) mine in
  let total_duplicate_attempts := list_sum (map duplicate_count records_with_duplicates) in
  let records := filter (fun r => is_done_or_processed (state r)) mine in
  mk_stats (successful_scans + total_duplicate_attempts + error_scans)
    successful_scans processed_scans unprocessed_scans error_scans
    total_duplicate_attempts (List.length records_with_duplicates)
    (fold_left Qplus (map (fun r => monetary (amount_ttc r)) records) 0%Q).

Definition state_name (s : scan_state) : pystr :=
  of_string (match s with
             | Draft => "draft" | Done => "done" | Processed => "processed" | Error => "error"
             end).

Record pagination := mk_pagination {
  pg_page : Z;
  pg_limit : Z;
  pg_total_count : Z;
  pg_total_pages : Z;
  pg_has_next : bool;
  pg_has_previous : bool
}.

(** the domain of [get_history]; [state_filter] is the ['state'] parameter,
    empty when it is absent *)
Definition history_domain (en : env) (state_filter : pystr) (r : scan_record) : bool :=
  (company_id r =? company en)
  && (if List.length state_filter =? 0 then true
      else pystr_eqb (state_name (state r)) state_filter).

(** [get_history] of the mobile API, with [int(data.get('page', 1))] and
    [int(data.get('limit', 20))].  [total_count] is [search_count(domain)].
    The page is [search(domain, limit=limit, offset=offset,
    order='create_date desc')]: the database sorts the matching rows on
    [create_date] alone, and rows created in one transaction (one
    [sync_offline_scans] call, say) share it, so their relative order is
    not fixed and may differ from one query to the next.  [arrange] is the
    order the database returns the matching rows in for this query; the
    rows of the page are taken from it, the counts do not depend on it. *)
Definition get_history (arrange : list scan_record -> list scan_record)
    (page_in limit_in : Z) (state_filter : pystr) (en : env)
    : list scan_record * pagination :=
  let page := Z.max 1 page_in in
  let limit := Z.min 100 (Z.max 1 limit_in) in
  let matching := filter (history_domain en state_filter) (db en) in
  let total_count := Z.of_nat (List.length matching) in
  let offset := ((page - 1) * limit)%Z in
  (firstn (Z.to_nat limit) (skipn (Z.to_nat offset) (arrange matching)),
   mk_pagination page limit total_count (((total_count + limit - 1) / limit)%Z)
                 ((offset + limit <? total_count)%Z) ((1 <? page)%Z)).

(** the keyword lists of [_classify_error] and of the summary of [get_errors] *)
Definition reseau : pystr := of_string "r" ++ [233%N] ++ of_string "seau".

Definition classify_network : list pystr :=
  [of_string "timeout"; of_string "connection"; of_string "network"; reseau;
   of_string "connexion"].
Definition classify_parsing : list pystr :=
  map of_string ["parse"; "extract"; "format"; "uuid"; "url"]%string.
Definition classify_invoice : list pystr :=
  map of_string ["facture"; "invoice"; "compte"; "journal"; "partner"]%string.

Definition summary_network : list pystr :=
  [of_string "timeout"; of_string "connection"; of_string "network"; reseau].
Definition summary_parsing : list pystr := map of_string ["parse"; "extract"; "format"]%string.
Definition summary_invoice : list pystr :=
  map of_string ["facture"; "invoice"; "compte"; "journal"]%string.

(** [any(k in msg for k in ks)] *)
Definition any_in (ks : list pystr) (msg : pystr) : bool := existsb (contains msg) ks.

(** the text of a [Text] field, whose value is a [str] or [False] *)
Definition text_of (v : pyval) : pystr := match v with VStr s => s | _ => [] end.

Record error_counts := mk_error_counts {
  errors_total : nat;
  dgi_errors : nat;
  network_errors : nat;
  parsing_errors : nat;
  invoice_errors : nat;
  can_retry : nat
}.

Section Errors.

(** [str.lower] and [str.upper] *)
Variable py_lower : pystr -> pystr.
Variable py_upper : pystr -> pystr.

(** [_classify_error] *)
Definition classify_error (error_message : pyval) : string :=
  if negb (truthy error_message) then "unknown"%string
  else
    let msg_lower := py_lower (text_of error_message) in
    if contains msg_lower (of_string "dgi") || contains msg_lower (of_string "fne")
    then "dgi_service"%string
    else if any_in classify_network msg_lower then "network"%string
    else if any_in classify_parsing msg_lower then "parsing"%string
    else if any_in classify_invoice msg_lower then "invoice_creation"%string
    else if contains msg_lower (of_string "playwright") then "browser"%string
    else "other"%string.

(** the ['summary'] block of [get_errors] *)
Definition error_summary (en : env) : error_counts :=
  let all_errors := filter (fun r => (company_id r =? company en) && scan_state_eqb (state r) Error)
                           (db en) in
  let msg r := text_of (py_or (error_message r) (VStr [])) in
  mk_error_counts (List.length all_errors)
    (List.length (filter (fun r => contains (py_upper (msg r)) (of_string "DGI")) all_errors))
    (List.length (filter (fun r => any_in summary_network (py_lower (msg r))) all_errors))
    (List.length (filter (fun r => any_in summary_parsing (py_lower (msg r))) all_errors))
    (List.length (filter (fun r => any_in summary_invoice (py_lower (msg r))) all_errors))
    (List.length (filter (fun r => negb (match invoice_id r with Some _ => true | None => false end))
                         all_errors)).

End Errors.

(* ================================================================== *)
(** ** The scanning endpoints of the mobile API *)

Definition dgi_host : pystr := of_string "services.fne.dgi.gouv.ci".

(** the outcome of [check_qr_code] *)
Inductive check_result :=
| CheckValidation
| CheckInvalidUrl
| CheckExists (scan_record_found : scan_record)
| CheckNew (uuid : pystr).

(** [check_qr_code]; [qr_url] is the body's ['qr_url'] string, empty when absent *)
Definition check_qr_code (qr_url : pystr) (en : env) : check_result :=
  let u := strip qr_url in
  if List.length u =? 0 then CheckValidation
  else match extract_uuid_from_url u with
       | None => CheckInvalidUrl
       | Some uuid =>
           match check_duplicate en uuid with
           | Some existing => CheckExists existing
           | None => CheckNew uuid
           end
       end.

(** the outcome of [report_duplicate] *)
Inductive report_result :=
| ReportValidation
| ReportInvalidUrl
| ReportNotFound
| ReportOk (count : nat) (record : scan_record).

(** [report_duplicate], for the authenticated user [user] *)
Definition report_duplicate (qr_url : pystr) (user : nat) : st report_result :=
  let u := strip qr_url in
  if List.length u =? 0 then sret ReportValidation
  else match extract_uuid_from_url u with
       | None => sret ReportInvalidUrl
       | Some uuid =>
           en <-- sget ;;;
           match check_duplicate en uuid with
           | None => sret ReportNotFound
           | Some existing =>
               _ <-- write_rec (rec_id existing)
                       (fun r => set_dup r (S (duplicate_count r)) (now en) user) ;;;
               r <-- read_rec (rec_id existing) ;;;
               sret (ReportOk (duplicate_count r) r)
           end
       end.

(** the outcome of [scan_qr_code]: [VALIDATION_ERROR], the [INVALID_URL] of
    an URL outside the DGI service, or the result of [process_qr_scan] *)
Inductive scan_api_result :=
| ScanValidation
| ScanUnrecognized
| ScanProcessed (result : scan_result).

(** one entry of the ['results'] of [sync_offline_scans] *)
Inductive sync_entry :=
| SyncMissing (qr_url : pystr)
| SyncScanned (result : scan_result) (qr_url : pystr) (scanned_at : pyval).

Definition sync_entry_success (e : sync_entry) : bool :=
  match e with SyncScanned r _ _ => result_success r | SyncMissing _ => false end.

Definition sync_entry_error_code (e : sync_entry) : option string :=
  match e with SyncScanned r _ _ => result_error_code r | SyncMissing _ => None end.

Definition is_duplicate_entry (e : sync_entry) : bool :=
  match sync_entry_error_code e with Some c => String.eqb c "DUPLICATE"%string | None => false end.

(** the outcome of [sync_offline_scans]: the two refusals, or the results
    with the [total], [successful], [duplicates] and [errors] of the summary *)
Inductive sync_result :=
| SyncEmpty
| SyncTooMany
| SyncOk (results : list sync_entry) (total successful duplicates errors : Z).

(** [scan.get('qr_url', '').strip()]: a value that is not a [str] has no
    [strip] method *)
Definition strip_value (v : pyval) : res pystr :=
  match v with
  | VStr s => Ok (strip s)
  | _ => Raise (OtherException (of_string "object has no attribute 'strip'"))
  end.

Section Endpoints.

Variable fetch : pystr -> res dict.
Variable acct : scan_record -> list nat -> list nat * res nat.
Variable seq_ref : nat -> pystr.
Variable move_name : nat -> pystr.
Variable user_name : nat -> pystr.
Variable iso : nat -> pystr.

(** [scan_qr_code], for the authenticated user [user] *)
Definition scan_qr_code (qr_url : pystr) (user : nat) : st scan_api_result :=
  let u := strip qr_url in
  if List.length u =? 0 then sret ScanValidation
  else if negb (contains u dgi_host) then sret ScanUnrecognized
  else r <-- process_qr_scan fetch acct seq_ref move_name user_name iso u (Some user) ;;;
       sret (ScanProcessed r).

Fixpoint sync_loop (user : nat) (scans : list dict) : st (list sync_entry) :=
  match scans with
  | [] => sret []
  | scan :: rest =>
      qr_url <-- slift (strip_value (get_or scan "qr_url" (VStr []))) ;;;
      e <-- (if List.length qr_url =? 0 then sret (SyncMissing qr_url)
             else r <-- process_qr_scan fetch acct seq_ref move_name user_name iso qr_url (Some user) ;;;
                  sret (SyncScanned r qr_url (dget scan "scanned_at"))) ;;;
      es <-- sync_loop user rest ;;;
      sret (e :: es)
  end.

(** [sync_offline_scans], for the authenticated user [user], with the
    body's ['scans'] list *)
Definition sync_offline_scans (scans : list dict) (user : nat) : st sync_result :=
  if List.length scans =? 0 then sret SyncEmpty
  else if 50 <? List.length scans then sret SyncTooMany
  else
    results <-- sync_loop user scans ;;;
    let successful := Z.of_nat (List.length (filter sync_entry_success results)) in
    let duplicates := Z.of_nat (List.length (filter is_duplicate_entry results)) in
    let total := Z.of_nat (List.length results) in
    sret (SyncOk results total successful duplicates ((total - successful - duplicates)%Z)).

End Endpoints.

(* ================================================================== *)
(** ** Sample inputs *)

Definition sample_uuid : pystr := of_string "019bd62c-467e-7000-82ac-45c8389c7f05".
Definition sample_url : pystr :=
  of_string "https://www.services.fne.dgi.gouv.ci/fr/verification/" ++ sample_uuid.

Definition sample_record (id : nat) (s : scan_state) (inv : option nat) : scan_record :=
  mk_rec id (of_string "SCAN/2024/0001") sample_uuid sample_url 1
    (VStr (of_string "SOCIETE ABC SARL")) (VStr (of_string "2502298K")) VNone VNone
    (VStr (of_string "FAC2024001234")) VNone VNone (VNum (inject_Z 1677566)) VNone inv s VNone 2 500
    0 None None.

(** the sequence reference, move name, user name and date rendering of the samples *)
Definition sample_label (n : nat) : pystr := of_string "SCAN/2024/0001".

(** company 1, user 2, next row id 2 *)
Definition sample_env (rs : list scan_record) : env := mk_env rs 2 1000 1 2 [].

Definition sample_acct_ok (r : scan_record) (lg : list nat) : list nat * res nat :=
  (lg ++ [42], Ok 42).
Definition sample_acct_fail (r : scan_record) (lg : list nat) : list nat * res nat :=
  (lg, Raise (OtherException (of_string "Aucun compte de charge"))).
Definition sample_fetch_ok (u : pystr) : res dict :=
  extract_dgi_data_from_text (of_string "MONTANT TTC: 5 FCFA") [].
Definition sample_fetch_fail (u : pystr) : res dict :=
  Ok (dict_false (of_string "Erreur: Timeout 60000ms exceeded.")).
Definition sample_requests_timeout (u : pystr) (t : nat) : res response :=
  Raise (RequestException Timeout (of_string "Read timed out.")).
Definition sample_page (u : pystr) : res (pystr * pystr) :=
  Ok (of_string "Chargement...", of_string "<html><body>Chargement...</body></html>").
(** a [chromium.launch] that crashes on the first two attempts *)
Definition sample_launch (k : nat) : res nat :=
  if k <? 3 then Raise (OtherException (of_string "Target page, context or browser has been closed"))
  else Ok 7.

(* ================================================================== *)
(** * Proofs *)

Example extract_uuid_example :
  extract_uuid_from_url
    (of_string "https://x/019BD62C-467E-7000-82AC-45C8389C7F05")
  = Some (of_string "019bd62c-467e-7000-82ac-45c8389c7f05").
Proof. vm_compute. reflexivity. Qed.

Example extract_uuid_none :
  extract_uuid_from_url (of_string "https://google.com") = None.
Proof. vm_compute. reflexivity. Qed.

(** ** The [re] engine *)

Lemma first_some_None {A B} (f : A -> option B) l :
  first_some f l = None <-> Forall (fun x => f x = None) l.
Proof.
  induction l as [|x l IH]; simpl; split; intro H; auto.
  - destruct (f x) eqn:E; [discriminate|]. constructor; auto. apply IH; auto.
  - inversion H; subst. rewrite H2. apply IH; auto.
Qed.

Lemma first_some_Some {A B} (f : A -> option B) l y :
  first_some f l = Some y ->
  exists l1 x l2, l = l1 ++ x :: l2 /\ f x = Some y /\ Forall (fun z => f z = None) l1.
Proof.
  induction l as [|x l IH]; simpl; intro H; [discriminate|].
  destruct (f x) eqn:E.
  - inversion H; subst. exists [], x, l. auto.
  - destruct (IH H) as (l1 & x' & l2 & -> & Hx & Hl1).
    exists (x :: l1), x', l2. auto.
Qed.

Lemma seq_app_inv st k l1 x l2 :
  seq st k = l1 ++ x :: l2 -> x = st + List.length l1 /\ l1 = seq st (List.length l1).
Proof.
  revert st l1. induction k as [|k IH]; intros st l1 H; simpl in H.
  - destruct l1; discriminate.
  - destruct l1 as [|y l1]; simpl in H; inversion H; subst.
    + split; simpl; [lia | reflexivity].
    + destruct (IH (S y) l1 H2) as [-> E]. simpl. split; [lia|]. f_equal. exact E.
Qed.

Lemma run_le c n l : run c (Some n) l <= n.
Proof.
  revert l; induction n as [|n IH]; intros [|x l]; simpl; try lia.
  destruct (c x); [specialize (IH l); lia | lia].
Qed.

Lemma run_full c n l :
  run c (Some n) l = n <-> n <= List.length l /\ forallb c (firstn n l) = true.
Proof.
  revert l; induction n as [|n IH]; intros [|x l]; simpl.
  - split; auto; lia.
  - split; auto; lia.
  - split; [discriminate | intros [H _]; lia].
  - destruct (c x) eqn:E; simpl.
    + split.
      * intro H. injection H as H. apply IH in H as [A B]. split; [lia|exact B].
      * intros [A B]. f_equal. apply IH. split; [lia|exact B].
    + split; [intro H; discriminate | intros [_ H]; discriminate].
Qed.

Lemma mtch_times c n g r l pos caps :
  mtch (IRep c n (Some n) g :: r) l pos caps =
  if (n <=? List.length l) && forallb c (firstn n l)
  then mtch r (skipn n l) (pos + n) caps else None.
Proof.
  simpl. unfold candidates.
  pose proof (run_le c n l) as Hle.
  destruct ((n <=? List.length l) && forallb c (firstn n l)) eqn:E.
  - apply andb_true_iff in E as [E1 E2]. apply Nat.leb_le in E1.
    assert (Hr : run c (Some n) l = n) by (apply run_full; auto).
    rewrite Hr, Nat.ltb_irrefl, Nat.sub_diag.
    destruct g; simpl; destruct (mtch r (skipn n l) (pos + n) caps); reflexivity.
  - destruct (Nat.ltb (run c (Some n) l) n) eqn:L; [reflexivity|].
    apply Nat.ltb_ge in L.
    assert (Hr : run c (Some n) l = n) by lia.
    apply run_full in Hr as [H1 H2]. apply Nat.leb_le in H1.
    rewrite H1, H2 in E. discriminate.
Qed.

Lemma mtch_times_Some c n g r l pos caps m :
  mtch (IRep c n (Some n) g :: r) l pos caps = Some m <->
  exists a l', l = a ++ l' /\ List.length a = n /\ forallb c a = true
               /\ mtch r l' (pos + n) caps = Some m.
Proof.
  rewrite mtch_times. split.
  - destruct ((n <=? List.length l) && forallb c (firstn n l)) eqn:E; [|discriminate].
    apply andb_true_iff in E as [E1 E2]. apply Nat.leb_le in E1. intro H.
    exists (firstn n l), (skipn n l). repeat split; auto.
    + symmetry; apply firstn_skipn.
    + rewrite length_firstn. lia.
  - intros (a & l' & -> & La & Ca & M).
    rewrite firstn_app, skipn_app, La, Nat.sub_diag, firstn_all2, skipn_all2 by lia.
    simpl. rewrite app_nil_r, Ca, length_app, La.
    replace (n <=? n + List.length l') with true by (symmetry; apply Nat.leb_le; lia).
    exact M.
Qed.

(** ** [extract_uuid_from_url] *)

Lemma fold_eq_45 x : fold x = 45%N -> x = 45%N.
Proof.
  unfold fold.
  destruct ((65 <=? x) && (x <=? 90))%N eqn:E1.
  { apply andb_true_iff in E1 as [A _]. apply N.leb_le in A. lia. }
  destruct ((x =? 304) || (x =? 305))%N; [discriminate|].
  destruct (x =? 383)%N; [discriminate|].
  destruct (x =? 8490)%N; [discriminate|auto].
Qed.

Lemma hex_i_any x : hex_i x = hex_any x.
Proof.
  unfold hex_i, hex_any, is_ascii_digit, fold.
  destruct ((65 <=? x) && (x <=? 90))%N eqn:E1.
  - apply andb_true_iff in E1 as [A B]. apply N.leb_le in A, B.
    destruct (48 <=? x + 32)%N eqn:F1, (x + 32 <=? 57)%N eqn:F2,
      (97 <=? x + 32)%N eqn:F3, (x + 32 <=? 102)%N eqn:F4,
      (48 <=? x)%N eqn:G1, (x <=? 57)%N eqn:G2, (97 <=? x)%N eqn:G3,
      (x <=? 102)%N eqn:G4, (65 <=? x)%N eqn:G5, (x <=? 70)%N eqn:G6;
      simpl; try reflexivity;
      repeat match goal with
             | H : (_ <=? _)%N = true |- _ => apply N.leb_le in H
             | H : (_ <=? _)%N = false |- _ => apply N.leb_gt in H
             end; lia.
  - destruct ((x =? 304) || (x =? 305))%N eqn:E2.
    { apply orb_true_iff in E2 as [E|E]; apply N.eqb_eq in E; subst; reflexivity. }
    destruct (x =? 383)%N eqn:E3; [apply N.eqb_eq in E3; subst; reflexivity|].
    destruct (x =? 8490)%N eqn:E4; [apply N.eqb_eq in E4; subst; reflexivity|].
    destruct ((65 <=? x) && (x <=? 70))%N eqn:E5; [|rewrite !orb_false_r; reflexivity].
    apply andb_true_iff in E5 as [A B]. apply N.leb_le in A, B.
    rewrite andb_false_iff in E1. destruct E1 as [E1|E1]; apply N.leb_gt in E1; lia.
Qed.

Lemma forallb_hex_i a : forallb hex_i a = forallb hex_any a.
Proof. induction a; simpl; [reflexivity|]. rewrite hex_i_any, IHa. reflexivity. Qed.

Lemma forallb_dash a :
  List.length a = 1 -> forallb (lit_i 45%N) a = true -> a = [45%N].
Proof.
  destruct a as [|x [|]]; simpl; try discriminate. intros _ H.
  rewrite andb_true_r in H. unfold lit_i in H. apply N.eqb_eq in H.
  rewrite (fold_eq_45 x H). reflexivity.
Qed.

Lemma mtch_uuid_re l pos caps m :
  mtch uuid_re l pos caps = Some m <->
  exists w rest, l = w ++ rest /\ uuid_shape w /\ m = (pos + 36, caps).
Proof.
  unfold uuid_re, one, times. split.
  - intro H.
    apply mtch_times_Some in H as (a & l1 & -> & La & Ca & H).
    apply mtch_times_Some in H as (d1 & l2 & -> & Ld1 & Cd1 & H).
    apply mtch_times_Some in H as (b & l3 & -> & Lb & Cb & H).
    apply mtch_times_Some in H as (d2 & l4 & -> & Ld2 & Cd2 & H).
    apply mtch_times_Some in H as (c & l5 & -> & Lc & Cc & H).
    apply mtch_times_Some in H as (d3 & l6 & -> & Ld3 & Cd3 & H).
    apply mtch_times_Some in H as (d & l7 & -> & Ld & Cd & H).
    apply mtch_times_Some in H as (d4 & l8 & -> & Ld4 & Cd4 & H).
    apply mtch_times_Some in H as (e & l9 & -> & Le & Ce & H).
    simpl in H. inversion H; subst m.
    rewrite (forallb_dash d1), (forallb_dash d2), (forallb_dash d3), (forallb_dash d4)
      by assumption.
    exists (a ++ [45%N] ++ b ++ [45%N] ++ c ++ [45%N] ++ d ++ [45%N] ++ e), l9.
    split; [rewrite !app_assoc; reflexivity|]. split; [|f_equal; lia].
    exists a, b, c, d, e. repeat split; auto.
    rewrite !forallb_app, <- !forallb_hex_i, Ca, Cb, Cc, Cd, Ce. reflexivity.
  - intros (w & rest & -> & (a & b & c & d & e & -> & La & Lb & Lc & Ld & Le & Hx) & ->).
    rewrite !forallb_app in Hx. rewrite <- !forallb_hex_i in Hx.
    repeat rewrite andb_true_iff in Hx.
    destruct Hx as (Ca & Cb & Cc & Cd & Ce).
    rewrite <- !app_assoc.
    apply mtch_times_Some. exists a; eexists; split; [reflexivity|]. split; [auto|]. split; [auto|].
    apply mtch_times_Some. exists [45%N]; eexists; split; [reflexivity|]. split; [auto|]. split; [reflexivity|].
    apply mtch_times_Some. exists b; eexists; split; [reflexivity|]. split; [auto|]. split; [auto|].
    apply mtch_times_Some. exists [45%N]; eexists; split; [reflexivity|]. split; [auto|]. split; [reflexivity|].
    apply mtch_times_Some. exists c; eexists; split; [reflexivity|]. split; [auto|]. split; [auto|].
    apply mtch_times_Some. exists [45%N]; eexists; split; [reflexivity|]. split; [auto|]. split; [reflexivity|].
    apply mtch_times_Some. exists d; eexists; split; [reflexivity|]. split; [auto|]. split; [auto|].
    apply mtch_times_Some. exists [45%N]; eexists; split; [reflexivity|]. split; [auto|]. split; [reflexivity|].
    apply mtch_times_Some. exists e; eexists; split; [reflexivity|]. split; [auto|]. split; [auto|].
    simpl. f_equal. f_equal. lia.
Qed.

Lemma uuid_shape_length w : uuid_shape w -> List.length w = 36.
Proof.
  intros (a & b & c & d & e & -> & La & Lb & Lc & Ld & Le & _).
  rewrite !length_app. simpl. lia.
Qed.

Lemma uuid_at_mtch s i :
  uuid_at s i <-> mtch uuid_re (skipn i s) i [] = Some (i + 36, []).
Proof.
  split.
  - intros (w & rest & E & Hw). apply mtch_uuid_re. eauto.
  - intro H. apply mtch_uuid_re in H as (w & rest & E & Hw & _). exists w, rest; auto.
Qed.

Lemma mtch_uuid_re_None_iff s i :
  mtch uuid_re (skipn i s) i [] = None <-> ~ uuid_at s i.
Proof.
  split.
  - intros H Hu. apply uuid_at_mtch in Hu. congruence.
  - intro H. destruct (mtch uuid_re (skipn i s) i []) as [m|] eqn:E; [|reflexivity].
    exfalso. apply H. apply mtch_uuid_re in E as (w & rest & E & Hw & _). exists w, rest; auto.
Qed.

Lemma uuid_at_bound s i : uuid_at s i -> i < S (List.length s).
Proof.
  intros (w & rest & E & Hw). apply uuid_shape_length in Hw.
  assert (L : List.length (skipn i s) = List.length (w ++ rest)) by (rewrite E; reflexivity).
  rewrite length_skipn, length_app in L. lia.
Qed.

Lemma uuid_probe_None s i : uuid_probe s i = None <-> ~ uuid_at s i.
Proof.
  unfold uuid_probe. rewrite <- mtch_uuid_re_None_iff.
  destruct (mtch uuid_re (skipn i s) i []) as [[e caps]|]; split; congruence.
Qed.

Lemma uuid_probe_Some s i m : uuid_probe s i = Some m -> m = (i, i + 36, []) /\ uuid_at s i.
Proof.
  unfold uuid_probe. destruct (mtch uuid_re (skipn i s) i []) as [[e caps]|] eqn:E;
    [|discriminate].
  intro H. inversion H; subst.
  apply mtch_uuid_re in E as (w & rest & E & Hw & Hm). inversion Hm; subst.
  split; [reflexivity|]. exists w, rest; auto.
Qed.

(** C4: [extract_uuid_from_url] returns [None] exactly when the string has
    no 8-4-4-4-12 hexadecimal substring (any letter case), and otherwise
    the leftmost such substring, lowercased. *)
Theorem extract_uuid_from_url_spec (url : pystr) :
  (extract_uuid_from_url url = None <-> forall i, ~ uuid_at url i) /\
  (forall i, uuid_at url i -> (forall j, j < i -> ~ uuid_at url j) ->
     extract_uuid_from_url url = Some (lower (firstn 36 (skipn i url)))).
Proof.
  unfold extract_uuid_from_url, search. fold (uuid_probe url).
  split.
  - destruct (first_some (uuid_probe url) (seq 0 (S (List.length url)))) as [m|] eqn:HS.
    + split; [intro H; destruct m as [[i e] caps]; discriminate|].
      intro H. apply first_some_Some in HS as (l1 & x & l2 & _ & Hx & _).
      apply uuid_probe_Some in Hx as [_ Hx]. exfalso; exact (H x Hx).
    + split; [intros _|intro; reflexivity].
      intros i Hi. apply first_some_None in HS. rewrite Forall_forall in HS.
      assert (In i (seq 0 (S (List.length url)))) as Hin
        by (apply in_seq; pose proof (uuid_at_bound _ _ Hi); lia).
      apply HS in Hin. apply uuid_probe_None in Hin. exact (Hin Hi).
  - intros i Hi Hmin.
    destruct (first_some (uuid_probe url) (seq 0 (S (List.length url)))) as [m|] eqn:HS.
    + apply first_some_Some in HS as (l1 & x & l2 & Hseq & Hx & Hl1).
      apply seq_app_inv in Hseq as [Ex El1]. simpl in Ex. subst x.
      apply uuid_probe_Some in Hx as [-> Hx].
      assert (List.length l1 = i) as Ei.
      { destruct (Nat.lt_trichotomy (List.length l1) i) as [Lt|[Eq|Gt]]; auto.
        - exfalso. exact (Hmin _ Lt Hx).
        - exfalso. rewrite Forall_forall in Hl1.
          assert (In i l1) as Hin by (rewrite El1; apply in_seq; lia).
          apply Hl1, uuid_probe_None in Hin. exact (Hin Hi). }
      rewrite Ei. simpl. unfold slice. replace (i + 36 - i) with 36 by lia. reflexivity.
    + exfalso. apply first_some_None in HS. rewrite Forall_forall in HS.
      assert (In i (seq 0 (S (List.length url)))) as Hin
        by (apply in_seq; pose proof (uuid_at_bound _ _ Hi); lia).
      apply HS, uuid_probe_None in Hin. exact (Hin Hi).
Qed.

(** ** [_extract_dgi_data_from_text] *)

Ltac nbool :=
  repeat match goal with
  | H : (_ && _) = true |- _ => apply andb_true_iff in H as [? ?]
  | H : (_ || _) = true |- _ => apply orb_true_iff in H as [?|?]
  | H : (_ && _) = false |- _ => apply andb_false_iff in H as [?|?]
  | H : (_ || _) = false |- _ => apply orb_false_iff in H as [? ?]
  | H : (_ <=? _)%N = true |- _ => apply N.leb_le in H
  | H : (_ <=? _)%N = false |- _ => apply N.leb_gt in H
  | H : (_ =? _)%N = true |- _ => apply N.eqb_eq in H
  | H : (_ =? _)%N = false |- _ => apply N.eqb_neq in H
  end.

Lemma fold_id x :
  ((x < 65)%N \/ ((90 < x)%N /\ x <> 304%N /\ x <> 305%N /\ x <> 383%N /\ x <> 8490%N)) ->
  fold x = x.
Proof.
  intro H. unfold fold.
  destruct ((65 <=? x) && (x <=? 90))%N eqn:E1; [nbool; lia|].
  destruct ((x =? 304) || (x =? 305))%N eqn:E2; [nbool; lia|].
  destruct (x =? 383)%N eqn:E3; [nbool; lia|].
  destruct (x =? 8490)%N eqn:E4; [nbool; lia|reflexivity].
Qed.

Lemma is_space_small x : is_space x = true -> fold x = x /\ ((x < 97)%N \/ (122 < x)%N).
Proof. intro H. unfold is_space in H. nbool; (split; [apply fold_id|]); lia. Qed.

Lemma is_digit_all x : is_digit x = true -> In x all_digits.
Proof.
  unfold is_digit. intro H. apply existsb_exists in H as (z & Hz & Hr).
  unfold in_digit_run in Hr. nbool.
  unfold all_digits. apply in_flat_map. exists z. split; [exact Hz|].
  apply in_map_iff. exists (N.to_nat (x - z)). split; [lia|]. apply in_seq. lia.
Qed.

(** a property of characters that every decimal digit has, checked on the list *)
Lemma digit_prop (P : pychar -> bool) x :
  forallb P all_digits = true -> is_digit x = true -> P x = true.
Proof. intros H Hx. exact (proj1 (forallb_forall _ _) H x (is_digit_all x Hx)). Qed.

Lemma is_digit_small x : is_digit x = true -> fold x = x /\ ((x < 97)%N \/ (122 < x)%N).
Proof.
  intro H.
  apply (digit_prop (fun x => (fold x =? x) && ((x <? 97) || (122 <? x)))%N) in H;
    [|vm_compute; reflexivity].
  apply andb_true_iff in H as [H1 H2]. apply N.eqb_eq in H1. split; [exact H1|].
  apply orb_true_iff in H2 as [H2|H2]; apply N.ltb_lt in H2; auto.
Qed.

Lemma digit_not_space x : is_digit x = true -> is_space x = false.
Proof.
  intro H. apply (digit_prop (fun x => negb (is_space x))) in H; [|vm_compute; reflexivity].
  apply negb_true_iff, H.
Qed.

Lemma digit_not_newline x : is_digit x = true -> is_newline x = false.
Proof.
  intro H. apply (digit_prop (fun x => negb (is_newline x))) in H; [|vm_compute; reflexivity].
  apply negb_true_iff, H.
Qed.

Lemma in_skipn_in {A} (x : A) n l : In x (skipn n l) -> In x l.
Proof. intro H. rewrite <- (firstn_skipn n l). apply in_or_app. right. exact H. Qed.

Lemma skipn_length_app {A} (a b : list A) : skipn (List.length a) (a ++ b) = b.
Proof. induction a; simpl; auto. Qed.

Lemma firstn_length_app {A} (a b : list A) : firstn (List.length a) (a ++ b) = a.
Proof. induction a; simpl; [reflexivity|]. rewrite IHa. reflexivity. Qed.

Lemma mtch_lits_in w rest l pos caps m :
  mtch (lits w ++ rest) l pos caps = Some m ->
  forall c, In c (of_string w) -> exists x, In x l /\ fold x = fold c.
Proof.
  revert rest l pos caps m.
  induction w as [|a w IH]; intros rest l pos caps m H c Hc; [destruct Hc|].
  simpl in H. unfold one in H. apply mtch_times_Some in H as (b & l' & -> & Lb & Cb & H).
  destruct b as [|x [|]]; simpl in Lb; try discriminate.
  simpl in Cb. rewrite andb_true_r in Cb. unfold lit_i in Cb. apply N.eqb_eq in Cb.
  destruct Hc as [<-|Hc].
  - exists x. simpl. auto.
  - destruct (IH _ _ _ _ _ H c Hc) as (y & Hy & Fy). exists y. simpl. auto.
Qed.

Lemma search_absent w rest s c :
  In c (of_string w) -> (forall x, In x s -> fold x <> fold c) ->
  search (lits w ++ rest) s = None.
Proof.
  intros Hc Hs. unfold search. apply first_some_None. apply Forall_forall.
  intros i _. destruct (mtch (lits w ++ rest) (skipn i s) i []) as [m|] eqn:E; [|reflexivity].
  exfalso. destruct (mtch_lits_in w rest _ _ _ _ E c Hc) as (x & Hx & Fx).
  exact (Hs x (in_skipn_in x i s Hx) Fx).
Qed.

Lemma mtch_lits_prefix w rest l pos caps :
  mtch (lits w ++ rest) (of_string w ++ l) pos caps
  = mtch rest l (pos + String.length w) caps.
Proof.
  revert pos. induction w as [|a w IH]; intro pos.
  - simpl. rewrite Nat.add_0_r. reflexivity.
  - change (mtch ((one (lit_i (N_of_ascii a)) :: lits w) ++ rest)
                 ((N_of_ascii a :: of_string w) ++ l) pos caps
            = mtch rest l (pos + S (String.length w)) caps).
    rewrite <- !app_comm_cons. unfold one. rewrite mtch_times.
    cbn [List.length firstn forallb skipn]. unfold lit_i. rewrite N.eqb_refl.
    cbn [andb Nat.leb]. rewrite IH. f_equal. lia.
Qed.

Lemma run_stop c a x t :
  forallb c a = true -> c x = false -> run c None (a ++ x :: t) = List.length a.
Proof.
  induction a as [|y a IH]; simpl; intros Ha Hx; [rewrite Hx; reflexivity|].
  apply andb_true_iff in Ha as [Hy Ha]. rewrite Hy. f_equal. auto.
Qed.

Lemma mtch_rep_greedy c lo r a x t pos p' caps m :
  forallb c a = true -> c x = false -> lo <= List.length a ->
  p' = pos + List.length a ->
  mtch r (x :: t) p' caps = Some m ->
  mtch (IRep c lo None true :: r) (a ++ x :: t) pos caps = Some m.
Proof.
  intros Ha Hx Hlo Hp H. cbn [mtch]. rewrite (run_stop c a x t Ha Hx).
  unfold candidates.
  destruct (Nat.ltb (List.length a) lo) eqn:L; [apply Nat.ltb_lt in L; lia|].
  rewrite seq_S, rev_unit. cbn [first_some].
  replace (lo + (List.length a - lo)) with (List.length a) by lia.
  rewrite skipn_length_app, <- Hp, H. reflexivity.
Qed.

Lemma lstrip_spaces_app b l : forallb is_space b = true -> lstrip (b ++ l) = lstrip l.
Proof.
  induction b as [|y b IH]; simpl; intro H; [reflexivity|].
  apply andb_true_iff in H as [Hy H]. unfold lstrip in *. rewrite Hy. apply IH, H.
Qed.

Lemma lstrip_nonspace x l : is_space x = false -> lstrip (x :: l) = x :: l.
Proof. intro H. unfold lstrip. rewrite H. reflexivity. Qed.

Lemma forallb_rev {A} (f : A -> bool) l : forallb f (rev l) = forallb f l.
Proof.
  induction l as [|y l IH]; simpl; [reflexivity|].
  rewrite forallb_app, IH. simpl. rewrite andb_true_r, andb_comm. reflexivity.
Qed.

Lemma strip_digits_spaces a b :
  a <> [] -> forallb is_digit a = true -> forallb is_space b = true -> strip (a ++ b) = a.
Proof.
  intros Hne Ha Hb. unfold strip.
  destruct a as [|x a']; [congruence|].
  simpl in Ha. apply andb_true_iff in Ha as [Hx Ha'].
  rewrite <- app_comm_cons, lstrip_nonspace by (apply digit_not_space; exact Hx).
  rewrite app_comm_cons, rev_app_distr, lstrip_spaces_app by (rewrite forallb_rev; exact Hb).
  destruct (rev (x :: a')) as [|y r] eqn:R.
  - apply (f_equal (@List.length pychar)) in R. rewrite length_rev in R. discriminate.
  - assert (Hy : In y (x :: a')) by (apply in_rev; rewrite R; left; reflexivity).
    rewrite lstrip_nonspace.
    + rewrite <- R, rev_involutive. reflexivity.
    + apply digit_not_space. destruct Hy as [<-|Hy]; [exact Hx|].
      apply (proj1 (forallb_forall _ _) Ha' _ Hy).
Qed.

Lemma remove_char_spaces c b :
  forallb is_space b = true -> forallb is_space (remove_char c b) = true.
Proof.
  induction b as [|y b IH]; simpl; intro H; [reflexivity|].
  apply andb_true_iff in H as [Hy H]. destruct (negb (y =? c)%N); simpl; auto.
  rewrite Hy. auto.
Qed.

Lemma remove_char_digits c g :
  (c = 32%N \/ c = NBSP) -> forallb is_digit g = true -> remove_char c g = g.
Proof.
  intro Hc. induction g as [|y g IH]; simpl; intro H; [reflexivity|].
  apply andb_true_iff in H as [Hy H].
  apply (digit_prop (fun x => negb (x =? 32) && negb (x =? NBSP))%N) in Hy;
    [|vm_compute; reflexivity].
  destruct (y =? c)%N eqn:E; [apply N.eqb_eq in E; destruct Hc; subst c y; discriminate|].
  simpl. f_equal. auto.
Qed.

Lemma remove_char_app c a b : remove_char c (a ++ b) = remove_char c a ++ remove_char c b.
Proof. unfold remove_char. apply filter_app. Qed.

Lemma render_remove gs ss :
  Forall (fun g => forallb is_digit g = true) gs ->
  remove_char NBSP (remove_char 32%N (render gs ss)) = List.concat gs.
Proof.
  revert ss. induction gs as [|g gs IH]; intros ss H; [reflexivity|].
  inversion H; subst. cbn [render List.concat].
  rewrite !remove_char_app.
  rewrite (remove_char_digits 32%N g), (remove_char_digits NBSP g) by auto.
  f_equal. destruct gs as [|g' gs']; [reflexivity|].
  rewrite !remove_char_app, IH by auto.
  destruct (hd SepNone ss); reflexivity.
Qed.

Lemma forallb_impl {A} (f g : A -> bool) l :
  (forall x, f x = true -> g x = true) -> forallb f l = true -> forallb g l = true.
Proof.
  intros Hfg H. apply forallb_forall. intros x Hx. apply Hfg.
  exact (proj1 (forallb_forall _ _) H x Hx).
Qed.

Lemma render_digit_space gs ss :
  Forall (fun g => forallb is_digit g = true) gs ->
  forallb digit_or_space (render gs ss) = true.
Proof.
  revert ss. induction gs as [|g gs IH]; intros ss H; [reflexivity|].
  inversion H; subst. cbn [render]. rewrite forallb_app.
  rewrite (forallb_impl is_digit digit_or_space g) by
    (auto; intros x Hx; unfold digit_or_space; rewrite Hx; reflexivity).
  destruct gs as [|g' gs']; [reflexivity|].
  rewrite forallb_app, IH by auto. destruct (hd SepNone ss); reflexivity.
Qed.

Lemma render_head gs ss :
  gs <> [] -> Forall (fun g => g <> [] /\ forallb is_digit g = true) gs ->
  exists d R', render gs ss = d :: R' /\ is_digit d = true.
Proof.
  intros Hne H. destruct gs as [|g gs]; [congruence|].
  inversion H as [|? ? [Hg Hd] _]; subst.
  destruct g as [|d g']; [congruence|].
  simpl in Hd. apply andb_true_iff in Hd as [Hd _].
  exists d. eexists. split; [reflexivity|exact Hd].
Qed.

Lemma concat_digits gs :
  gs <> [] -> Forall (fun g => g <> [] /\ forallb is_digit g = true) gs ->
  List.concat gs <> [] /\ forallb is_digit (List.concat gs) = true.
Proof.
  intros Hne H. split.
  - destruct gs as [|g gs]; [congruence|]. inversion H as [|? ? [Hg _] _]; subst.
    simpl. destruct g; [congruence|discriminate].
  - clear Hne. induction H as [|g gs [_ Hg] _ IH]; [reflexivity|].
    simpl. rewrite forallb_app, Hg, IH. reflexivity.
Qed.

Lemma strip_digits a : a <> [] -> forallb is_digit a = true -> strip a = a.
Proof.
  intros Hne Ha. rewrite <- (app_nil_r a) at 1. apply strip_digits_spaces; auto.
Qed.

Lemma mtch_open n r l pos caps :
  mtch (IOpen n :: r) l pos caps = mtch r l pos ((n, (pos, pos)) :: caps).
Proof. reflexivity. Qed.

Lemma mtch_close n r l pos caps :
  mtch (IClose n :: r) l pos caps = mtch r l pos (close_group n pos caps).
Proof. reflexivity. Qed.

Lemma mtch_currency_tail suffix pos caps :
  suffix = "FCFA"%string \/ suffix = "CFA"%string ->
  mtch [star is_space; opt (lit_i 70%N); one (lit_i 67%N); one (lit_i 70%N); one (lit_i 65%N)]
       (of_string suffix) pos caps = Some (pos + String.length suffix, caps).
Proof.
  intros [-> | ->]; simpl; do 2 f_equal; lia.
Qed.

Lemma amount_text_avoids lead R gap suffix c :
  forallb is_space lead = true -> forallb digit_or_space R = true ->
  forallb is_space gap = true ->
  forallb (fun x => negb (fold x =? fold c)%N)
          (of_string "MONTANT TTC:" ++ of_string suffix) = true ->
  ((97 <=? fold c) && (fold c <=? 122))%N = true ->
  forall x, In x (of_string "MONTANT TTC:" ++ lead ++ R ++ gap ++ of_string suffix) ->
            fold x <> fold c.
Proof.
  intros Hl HR Hg Hc Hb x Hx. nbool.
  rewrite forallb_app in Hc. apply andb_true_iff in Hc as [Hp Hu].
  assert (Hs : forall y, is_space y = true -> fold y <> fold c)
    by (intros y Hy; apply is_space_small in Hy as [-> ?]; lia).
  repeat rewrite in_app_iff in Hx. destruct Hx as [Hx|[Hx|[Hx|[Hx|Hx]]]].
  - apply (proj1 (forallb_forall _ _) Hp) in Hx. apply negb_true_iff in Hx. nbool. exact Hx.
  - apply Hs. exact (proj1 (forallb_forall _ _) Hl x Hx).
  - apply (proj1 (forallb_forall _ _) HR) in Hx. unfold digit_or_space in Hx. nbool.
    + apply is_digit_small in H1 as [-> ?]. lia.
    + apply Hs. assumption.
  - apply Hs. exact (proj1 (forallb_forall _ _) Hg x Hx).
  - apply (proj1 (forallb_forall _ _) Hu) in Hx. apply negb_true_iff in Hx. nbool. exact Hx.
Qed.

Lemma amount_mtch lead d0 R' gap suffix :
  forallb is_space lead = true -> is_digit d0 = true ->
  forallb digit_or_space (d0 :: R') = true -> forallb is_space gap = true ->
  suffix = "FCFA"%string \/ suffix = "CFA"%string ->
  mtch amount_re (of_string "MONTANT TTC:" ++ lead ++ (d0 :: R') ++ gap ++ of_string suffix) 0 []
  = Some (12 + List.length lead + List.length ((d0 :: R') ++ gap) + String.length suffix,
          [(1, (12 + List.length lead, 12 + List.length lead + List.length ((d0 :: R') ++ gap)));
           (1, (12 + List.length lead, 12 + List.length lead))]).
Proof.
  intros Hlead Hd0 HR Hgap Hsuf.
  unfold amount_re, field_prefix. rewrite <- app_assoc, mtch_lits_prefix.
  unfold star, plus, opt, one.
  assert (Hnl : is_newline d0 = false) by (apply digit_not_newline, Hd0).
  eapply mtch_rep_greedy with (p' := 12 + List.length lead);
    [exact Hlead | apply digit_not_space, Hd0 | lia | reflexivity |].
  apply (mtch_rep_greedy _ _ _ [] d0 _ _ (12 + List.length lead));
    [reflexivity | exact Hnl | simpl; lia | simpl; lia |].
  apply (mtch_rep_greedy _ _ _ [] d0 _ _ (12 + List.length lead));
    [reflexivity | apply digit_not_space, Hd0 | simpl; lia | simpl; lia |].
  rewrite mtch_open.
  match goal with |- mtch ?r _ ?p ?c = ?rhs =>
    change (mtch r ((d0 :: R') ++ gap ++ of_string suffix) p c = rhs) end.
  rewrite app_assoc.
  assert (Hu : exists u U', of_string suffix = u :: U' /\ digit_or_space u = false)
    by (destruct Hsuf as [-> | ->]; do 2 eexists; split; reflexivity).
  destruct Hu as (u & U' & HU & Hu).
  rewrite HU.
  apply (mtch_rep_greedy _ _ _ _ u _ _
           (12 + List.length lead + List.length ((d0 :: R') ++ gap))); [ | exact Hu | | | ].
  - rewrite forallb_app, HR, (forallb_impl is_space digit_or_space gap); auto.
    intros x Hx. unfold digit_or_space. rewrite Hx. apply orb_true_r.
  - rewrite length_app. simpl. lia.
  - reflexivity.
  - rewrite mtch_close, <- HU. unfold close_group. cbn [cap_lookup Nat.eqb].
    apply mtch_currency_tail, Hsuf.
Qed.
Lemma amount_text_no_field lead R gap suffix :
  forallb is_space lead = true -> forallb digit_or_space R = true ->
  forallb is_space gap = true -> suffix = "FCFA"%string \/ suffix = "CFA"%string ->
  let T := of_string "MONTANT TTC:" ++ lead ++ R ++ gap ++ of_string suffix in
  search supplier_re T = None /\ search client_re T = None /\
  search invoice_re T = None /\ search date_re T = None /\ search verif_re T = None.
Proof.
  intros Hl HR Hg Hsuf T.
  assert (Hav : forall c,
             forallb (fun x => negb (fold x =? fold c)%N)
                     (of_string "MONTANT TTC:" ++ of_string suffix) = true ->
             ((97 <=? fold c) && (fold c <=? 122))%N = true ->
             forall x, In x T -> fold x <> fold c)
    by (intros c H1 H2; apply amount_text_avoids; assumption).
  assert (Hc : forall c, ((97 <=? fold c) && (fold c <=? 122))%N = true ->
             forallb (fun x => negb (fold x =? fold c)%N) (of_string "MONTANT TTC:") = true ->
             forallb (fun x => negb (fold x =? fold c)%N) (of_string "FCFA") = true ->
             forallb (fun x => negb (fold x =? fold c)%N) (of_string "CFA") = true ->
             forall x, In x T -> fold x <> fold c).
  { intros c H0 H1 H2 H3. apply Hav; [|exact H0].
    rewrite forallb_app, H1. destruct Hsuf as [-> | ->]; assumption. }
  unfold supplier_re, client_re, invoice_re, date_re, verif_re, field_prefix.
  rewrite <- !app_assoc.
  repeat split;
    [ apply search_absent with (c := 82%N)
    | apply search_absent with (c := 76%N)
    | apply search_absent with (c := 85%N)
    | apply search_absent with (c := 68%N)
    | apply search_absent with (c := 73%N) ];
    (simpl; tauto) || (apply Hc; reflexivity).
Qed.

Lemma search_at_0 r s e caps :
  mtch r s 0 [] = Some (e, caps) -> search r s = Some (0, e, caps).
Proof. intro H. unfold search. cbn [seq first_some skipn]. rewrite H. reflexivity. Qed.

Lemma grp_slice s e a b caps : grp s (0, e, (1, (a, b)) :: caps) 1 = firstn (b - a) (skipn a s).
Proof. reflexivity. Qed.

(** C8: whatever digit-group separators the amount uses (none, ordinary
    spaces, non-breaking spaces, mixed), the extracted [amount_ttc] is the
    number formed by the digits alone. *)
Theorem amount_separator_invariant (gs : list pystr) (ss : list sep) (lead gap : pystr)
    (suffix : string) (raw : pystr) :
  gs <> [] ->
  Forall (fun g => g <> [] /\ forallb is_digit g = true) gs ->
  forallb is_space lead = true -> forallb is_space gap = true ->
  suffix = "FCFA"%string \/ suffix = "CFA"%string ->
  exists d,
    extract_dgi_data_from_text
      (of_string "MONTANT TTC:" ++ lead ++ render gs ss ++ gap ++ of_string suffix) raw = Ok d
    /\ dict_get d "amount_ttc" = Some (VNum (amount_value (List.concat gs))).
Proof.
  intros Hne Hgs Hlead Hgap Hsuf.
  assert (HR : forallb digit_or_space (render gs ss) = true)
    by (apply render_digit_space; eapply Forall_impl; [|exact Hgs]; simpl; tauto).
  destruct (render_head gs ss Hne Hgs) as (d0 & R' & HRe & Hd0).
  destruct (concat_digits gs Hne Hgs) as [Hcne Hcd].
  destruct (amount_text_no_field lead (render gs ss) gap suffix Hlead HR Hgap Hsuf)
    as (Hsup & Hcli & Hinv & Hdat & Hver).
  pose proof (amount_mtch lead d0 R' gap suffix Hlead Hd0 ltac:(rewrite <- HRe; exact HR)
                Hgap Hsuf) as Hm.
  rewrite <- HRe in Hm. apply search_at_0 in Hm.
  assert (Hg : forall e caps,
             grp (of_string "MONTANT TTC:" ++ lead ++ render gs ss ++ gap ++ of_string suffix)
                 (0, e, (1, (12 + List.length lead,
                             12 + List.length lead + List.length (render gs ss ++ gap))) :: caps) 1
             = render gs ss ++ gap).
  { intros e caps. rewrite grp_slice.
    replace (12 + List.length lead + List.length (render gs ss ++ gap) - (12 + List.length lead))
      with (List.length (render gs ss ++ gap)) by lia.
    change 12 with (List.length (of_string "MONTANT TTC:")).
    rewrite <- length_app, app_assoc, skipn_length_app, app_assoc, firstn_length_app.
    reflexivity. }
  assert (Hf : py_float_digits
                 (strip (remove_char NBSP (remove_char 32%N (render gs ss ++ gap))))
               = Ok (VNum (amount_value (List.concat gs)))).
  { rewrite !remove_char_app.
    rewrite render_remove by (eapply Forall_impl; [|exact Hgs]; simpl; tauto).
    assert (Hsp : forallb is_space (remove_char NBSP (remove_char 32%N gap)) = true)
      by (apply remove_char_spaces, remove_char_spaces, Hgap).
    rewrite (strip_digits_spaces _ _ Hcne Hcd Hsp).
    unfold py_float_digits. rewrite strip_digits by auto. rewrite Hcd.
    destruct (List.concat gs); [congruence|reflexivity]. }
  eexists. split.
  - unfold extract_dgi_data_from_text.
    rewrite Hsup, Hcli, Hinv, Hdat. cbn [bind]. rewrite Hver, Hm, Hg, Hf.
    cbn [bind]. reflexivity.
  - reflexivity.
Qed.

Lemma amount_separator_invariant_witness :
  exists d,
    extract_dgi_data_from_text
      (of_string "MONTANT TTC:" ++ [10%N] ++
       render [of_string "1"; of_string "677"; of_string "566"] [SepSpace; SepNbsp] ++
       [32%N] ++ of_string "FCFA") [] = Ok d
    /\ dict_get d "amount_ttc"
       = Some (VNum (amount_value (List.concat [of_string "1"; of_string "677"; of_string "566"]))).
Proof.
  apply (amount_separator_invariant [of_string "1"; of_string "677"; of_string "566"]
           [SepSpace; SepNbsp] [10%N] [32%N] "FCFA" []);
    [discriminate | repeat constructor; discriminate | reflexivity | reflexivity
    | left; reflexivity].
Defined.

Example amount_three_spellings :
  map (fun t => match extract_dgi_data_from_text t [] with
                | Ok d => dict_get d "amount_ttc"
                | Raise _ => None
                end)
      [of_string "MONTANT TTC: 1 677 566 FCFA";
       of_string "MONTANT TTC: 1" ++ [NBSP] ++ of_string "677" ++ [NBSP] ++ of_string "566 CFA";
       of_string "MONTANT TTC: 1677566 FCFA"]
  = [Some (VNum (inject_Z 1677566)); Some (VNum (inject_Z 1677566));
     Some (VNum (inject_Z 1677566))].
Proof. vm_compute. reflexivity. Qed.

(* ================================================================== *)
(** ** Lookups in the table *)

Lemma pystr_eqb_eq a b : pystr_eqb a b = true <-> a = b.
Proof.
  revert b; induction a as [|x a IH]; intros [|y b]; simpl; split; intro H;
    try discriminate; try reflexivity.
  - apply andb_true_iff in H as [H1 H2]. apply N.eqb_eq in H1. apply IH in H2. congruence.
  - injection H as -> ->. rewrite N.eqb_refl. apply IH. reflexivity.
Qed.

Lemma pystr_eqb_refl a : pystr_eqb a a = true.
Proof. apply pystr_eqb_eq. reflexivity. Qed.

Lemma find_unique {A} (p : A -> bool) l y :
  In y l -> p y = true -> (forall x, In x l -> p x = true -> x = y) -> find p l = Some y.
Proof.
  induction l as [|x l IH]; simpl; intros Hy Py Hu; [destruct Hy|].
  destruct (p x) eqn:Px.
  - f_equal. apply Hu; auto.
  - destruct Hy as [<-|Hy]; [congruence|]. apply IH; auto.
Qed.

Lemma find_none {A} (p : A -> bool) l :
  (forall x, In x l -> p x = false) -> find p l = None.
Proof.
  induction l as [|x l IH]; simpl; intros H; [reflexivity|].
  rewrite H by auto. apply IH. auto.
Qed.

Lemma find_rec_in i rs r :
  NoDup (map rec_id rs) -> In r rs -> rec_id r = i -> find_rec i rs = Some r.
Proof.
  unfold find_rec. induction rs as [|x rs IH]; simpl; intros Hn Hr Hi; [destruct Hr|].
  inversion Hn as [|? ? Hx Hn']; subst.
  destruct Hr as [<-|Hr].
  - rewrite Nat.eqb_refl. reflexivity.
  - destruct (rec_id x =? rec_id r) eqn:E.
    + apply Nat.eqb_eq in E. exfalso. apply Hx. rewrite E. apply in_map. exact Hr.
    + apply IH; auto.
Qed.

Lemma find_rec_update i g rs :
  (forall x, rec_id (g x) = rec_id x) ->
  find_rec i (map (fun r => if rec_id r =? i then g r else r) rs) = option_map g (find_rec i rs).
Proof.
  unfold find_rec. intro Hg. induction rs as [|x rs IH]; simpl; [reflexivity|].
  destruct (rec_id x =? i) eqn:E; simpl.
  - rewrite Hg, E. reflexivity.
  - rewrite E. exact IH.
Qed.

Lemma find_rec_fresh i rs r :
  (forall x, In x rs -> rec_id x < i) -> rec_id r = i -> find_rec i (rs ++ [r]) = Some r.
Proof.
  unfold find_rec. induction rs as [|x rs IH]; simpl; intros H Hr.
  - rewrite Hr, Nat.eqb_refl. reflexivity.
  - assert (rec_id x < i) by auto. destruct (rec_id x =? i) eqn:E; [apply Nat.eqb_eq in E; lia|].
    apply IH; auto.
Qed.

Lemma nodup_id_eq rs x y :
  NoDup (map rec_id rs) -> In x rs -> In y rs -> rec_id x = rec_id y -> x = y.
Proof.
  induction rs as [|z rs IH]; simpl; intros Hn Hx Hy E; [destruct Hx|].
  inversion Hn as [|? ? Hz Hn']; subst.
  destruct Hx as [<-|Hx], Hy as [<-|Hy]; auto.
  - exfalso. apply Hz. rewrite E. apply in_map. exact Hy.
  - exfalso. apply Hz. rewrite <- E. apply in_map. exact Hx.
Qed.

Lemma same_key_sym r1 r2 :
  same_key (qr_uuid r1) (company_id r1) r2 = true -> same_key (qr_uuid r2) (company_id r2) r1 = true.
Proof.
  unfold same_key. intro H. apply andb_true_iff in H as [H1 H2].
  apply pystr_eqb_eq in H1. apply Nat.eqb_eq in H2. rewrite H1, H2, pystr_eqb_refl, Nat.eqb_refl.
  reflexivity.
Qed.

Lemma ids_unique_spec rs : ids_unique rs = true -> NoDup (map rec_id rs).
Proof.
  induction rs as [|x rs IH]; simpl; intro H; [constructor|].
  apply andb_true_iff in H as [H1 H2]. constructor; auto.
  intro Hin. apply in_map_iff in Hin as (y & Hy & Hin).
  apply negb_true_iff in H1.
  assert (existsb (fun z => rec_id z =? rec_id x) rs = true)
    by (apply existsb_exists; exists y; split; [exact Hin|apply Nat.eqb_eq; exact Hy]).
  congruence.
Qed.

Lemma keys_unique_spec rs :
  keys_unique rs = true ->
  forall r1 r2, In r1 rs -> In r2 rs -> same_key (qr_uuid r1) (company_id r1) r2 = true -> r1 = r2.
Proof.
  induction rs as [|x rs IH]; simpl; intros H r1 r2 H1 H2 Hk; [destruct H1|].
  apply andb_true_iff in H as [Hx H]. apply negb_true_iff in Hx.
  destruct H1 as [E1|H1], H2 as [E2|H2]; subst; auto.
  - exfalso. assert (existsb (same_key (qr_uuid r1) (company_id r1)) rs = true)
      by (apply existsb_exists; eauto). congruence.
  - exfalso. apply same_key_sym in Hk.
    assert (existsb (same_key (qr_uuid r2) (company_id r2)) rs = true)
      by (apply existsb_exists; eauto). congruence.
Qed.

Lemma wf_spec en :
  wf en = true ->
  NoDup (map rec_id (db en)) /\
  (forall r, In r (db en) -> rec_id r < next_id en) /\
  (forall r1 r2, In r1 (db en) -> In r2 (db en) ->
                 same_key (qr_uuid r1) (company_id r1) r2 = true -> r1 = r2).
Proof.
  unfold wf. intro H. apply andb_true_iff in H as [H H3]. apply andb_true_iff in H as [H1 H2].
  split; [apply ids_unique_spec, H1|]. split; [|apply keys_unique_spec, H3].
  intros r Hr. apply (proj1 (forallb_forall _ _) H2) in Hr. apply Nat.ltb_lt, Hr.
Qed.

Lemma check_duplicate_found en r :
  wf en = true -> In r (db en) -> company_id r = company en ->
  is_done_or_processed (state r) = true -> check_duplicate en (qr_uuid r) = Some r.
Proof.
  intros Hwf Hr Hc Hs. destruct (wf_spec en Hwf) as (_ & _ & Hk).
  unfold check_duplicate. apply find_unique.
  - apply in_rev in Hr. exact Hr.
  - rewrite pystr_eqb_refl, Hs, Hc, Nat.eqb_refl. reflexivity.
  - intros x Hx Px. apply in_rev in Hx.
    apply andb_true_iff in Px as [Px Pc]. apply andb_true_iff in Px as [Pu _].
    apply pystr_eqb_eq in Pu. apply Nat.eqb_eq in Pc.
    apply Hk; auto. unfold same_key. rewrite Pu, Pc, <- Hc, pystr_eqb_refl, Nat.eqb_refl.
    reflexivity.
Qed.

Lemma check_duplicate_error en r :
  wf en = true -> In r (db en) -> company_id r = company en ->
  is_done_or_processed (state r) = false ->
  check_duplicate en (qr_uuid r) = None.
Proof.
  intros Hwf Hr Hc Hs. destruct (wf_spec en Hwf) as (_ & _ & Hk).
  unfold check_duplicate. apply find_none.
  intros x Hx. apply in_rev in Hx.
  destruct (pystr_eqb (qr_uuid x) (qr_uuid r) && is_done_or_processed (state x)
            && (company_id x =? company en)) eqn:Px; [|reflexivity].
  apply andb_true_iff in Px as [Px Pc]. apply andb_true_iff in Px as [Pu Pd].
  assert (x = r) as ->; [|congruence].
  apply pystr_eqb_eq in Pu. apply Nat.eqb_eq in Pc.
  apply Hk; auto. unfold same_key. rewrite Pu, Pc, <- Hc, pystr_eqb_refl, Nat.eqb_refl.
  reflexivity.
Qed.

(** C3: when the table holds a [done] or [processed] record of the
    requesting company for the URL's identifier, [process_qr_scan] bumps
    that record's [duplicate_count] by one, stamps the time and the acting
    user, creates no row, and returns [DUPLICATE] with the snapshot of the
    updated record. *)
Theorem process_duplicate_rescan fetch acct seq_ref move_name user_name iso
    (en : env) (url : pystr) (user_id : option nat) (r : scan_record) :
  wf en = true -> In r (db en) -> extract_uuid_from_url url = Some (qr_uuid r) ->
  company_id r = company en -> is_done_or_processed (state r) = true ->
  let r' := set_dup r (S (duplicate_count r)) (now en) (acting en user_id) in
  process_qr_scan fetch acct seq_ref move_name user_name iso url user_id en
  = (with_db en (map (fun x => if rec_id x =? rec_id r then r' else x) (db en)) (next_id en),
     Ok (SDuplicate (S (duplicate_count r)) (snapshot move_name user_name iso r'))).
Proof.
  intros Hwf Hr Hu Hc Hs r'. unfold process_qr_scan. rewrite Hu. cbn [sbind sget].
  rewrite (check_duplicate_found en r Hwf Hr Hc Hs).
  unfold write_rec, read_rec. cbn [sbind db with_db].
  unfold sbind, sret. cbn [db with_db].
  rewrite find_rec_update by reflexivity.
  rewrite (find_rec_in (rec_id r) (db en) r) by (try apply (wf_spec en Hwf); auto).
  cbn [option_map]. f_equal. f_equal.
  apply map_ext_in. intros x Hx. destruct (rec_id x =? rec_id r) eqn:E; [|reflexivity].
  apply Nat.eqb_eq in E.
  rewrite (nodup_id_eq (db en) x r) by (try apply (wf_spec en Hwf); auto).
  reflexivity.
Qed.

Lemma process_draft_invoice_raise fetch acct seq_ref move_name user_name iso
    (en : env) (url : pystr) (user_id : option nat) (u : pystr) (d : dict)
    (lg : list nat) (e : exc) :
  wf en = true -> extract_uuid_from_url url = Some u -> check_duplicate en u = None ->
  fetch url = Ok d -> truthy (dget d "success") = true ->
  existsb (same_key u (company en)) (db en) = false ->
  acct (draft_record seq_ref en url u d user_id (next_id en)) (ledger en) = (lg, Raise e) ->
  is_exception e = true ->
  exists en',
    process_qr_scan fetch acct seq_ref move_name user_name iso url user_id en
    = (en', Ok (SInvoiceError (invoice_error_prefix ++ exc_str e) (next_id en)))
    /\ find_rec (next_id en) (db en')
       = Some (set_error_state (draft_record seq_ref en url u d user_id (next_id en))
                               (VStr (exc_str e))).
Proof.
  intros Hwf Hu Hcd Hf Hs Hk Ha He. destruct (wf_spec en Hwf) as (Hn & Hlt & _).
  unfold process_qr_scan. rewrite Hu.
  unfold sget, slift, create, stry, create_invoice, read_rec, run_acct, write_rec, sbind, sret.
  cbv beta iota zeta. rewrite Hcd, Hf. cbv beta iota zeta. rewrite Hs. cbn [negb].
  cbn [qr_uuid company_id draft_record]. rewrite Hk. cbn [db next_id with_db].
  rewrite find_rec_fresh by (auto; reflexivity).
  cbn [invoice_id draft_record ledger with_db]. rewrite Ha, He.
  eexists. split; [reflexivity|].
  cbn [db with_ledger with_db].
  rewrite find_rec_update by reflexivity.
  rewrite find_rec_fresh by (auto; reflexivity). reflexivity.
Qed.

(** C1: when the table holds an [error] record of the requesting company
    for the URL's identifier, and the fetch returns, [process_qr_scan]
    raises the [IntegrityError] of the [unique(qr_uuid, company_id)]
    constraint, whatever the fetched data and the accounting do: no new
    record is created and no success is reached. *)
Theorem process_after_error_record fetch acct seq_ref move_name user_name iso
    (en : env) (url : pystr) (user_id : option nat) (r : scan_record) (d : dict) :
  wf en = true -> In r (db en) -> extract_uuid_from_url url = Some (qr_uuid r) ->
  company_id r = company en -> state r = Error -> fetch url = Ok d ->
  process_qr_scan fetch acct seq_ref move_name user_name iso url user_id en
  = (en, Raise unique_violation).
Proof.
  intros Hwf Hr Hu Hc Hs Hf. unfold process_qr_scan. rewrite Hu.
  unfold sget, slift, create, sbind. cbv beta iota zeta.
  rewrite (check_duplicate_error en r Hwf Hr Hc) by (rewrite Hs; reflexivity).
  rewrite Hf. cbv beta iota zeta.
  assert (Hx : existsb (same_key (qr_uuid r) (company en)) (db en) = true).
  { apply existsb_exists. exists r. split; [exact Hr|].
    unfold same_key. rewrite pystr_eqb_refl, Hc, Nat.eqb_refl. reflexivity. }
  destruct (negb (truthy (dget d "success")));
    cbn [qr_uuid company_id draft_record error_record]; rewrite Hx; reflexivity.
Qed.

(* ================================================================== *)
(** ** [_fetch_dgi_with_requests] *)

(** C6: [_fetch_dgi_with_requests] returns a value ([Some] data or
    [None]) for every transport behaviour; the only exceptions that can
    leave it are those outside [Exception] ([KeyboardInterrupt],
    [SystemExit], ...).  In particular, when every request raises a
    [RequestException], it returns [None]. *)
Theorem fetch_dgi_with_requests_never_raises requests_get soup_get_text py_upper json_str py_float
    (url : pystr) :
  ((exists v, fetch_dgi_with_requests requests_get soup_get_text py_upper json_str py_float url = Ok v)
   \/ (exists e, fetch_dgi_with_requests requests_get soup_get_text py_upper json_str py_float url
                 = Raise e /\ is_exception e = false)) /\
  ((forall u t, exists k m, requests_get u t = Raise (RequestException k m)) ->
   fetch_dgi_with_requests requests_get soup_get_text py_upper json_str py_float url = Ok None).
Proof.
  unfold fetch_dgi_with_requests, py_try. split.
  - destruct (_ <- _ ;; _) as [v|e].
    + left. eauto.
    + destruct (is_exception e) eqn:He; [left; eauto|right; eauto].
  - intro Hr.
    assert (Hl : forall us, api_loop requests_get json_str py_float us = Ok None).
    { induction us as [|u us IH]; [reflexivity|]. simpl.
      unfold api_attempt, py_try. destruct (Hr u 15) as (k & m & ->). simpl. exact IH. }
    destruct (Hr url 30) as (k & m & Hk).
    destruct (extract_uuid_from_url url); [rewrite Hl|]; simpl; rewrite Hk; reflexivity.
Qed.

Lemma fetch_dgi_with_requests_never_raises_witness :
  fetch_dgi_with_requests sample_requests_timeout (fun h => Ok h) (fun s => s) (fun _ => [])
    (fun _ => Ok VNone) sample_url = Ok None.
Proof.
  apply (proj2 (fetch_dgi_with_requests_never_raises sample_requests_timeout (fun h => Ok h)
                  (fun s => s) (fun _ => []) (fun _ => Ok VNone) sample_url)).
  intros u t. do 2 eexists. reflexivity.
Defined.

(* ================================================================== *)
(** ** [_launch_playwright_browser] *)

Lemma launch_count_app a b : launch_count (a ++ b) = launch_count a + launch_count b.
Proof. unfold launch_count. rewrite filter_app, length_app. reflexivity. Qed.

Lemma launch_attempts_count {B} (launch : nat -> res B) n todo last :
  launch_count (fst (launch_attempts launch n todo last)) <= List.length todo.
Proof.
  revert last. induction todo as [|k todo IH]; intro last; simpl; [apply le_n|].
  destruct (launch k) as [b|e]; [unfold launch_count; simpl; lia|].
  destruct (is_exception e); [|unfold launch_count; simpl; lia].
  specialize (IH (Some e)).
  destruct (launch_attempts launch n todo (Some e)) as [tr r]. simpl in *.
  change (ELaunch k :: ?l) with ([ELaunch k] ++ l). rewrite !launch_count_app.
  assert (launch_count (if k <? n then [ESleep (k * 3)] else []) = 0)
    by (destruct (k <? n); reflexivity).
  assert (launch_count [ELaunch k] = 1) by reflexivity. lia.
Qed.

Lemma launch_attempts_ok {B} (launch : nat -> res B) n j : forall a m last b,
  (forall k, a <= k < a + j -> exists e, launch k = Raise e /\ is_exception e = true) ->
  launch (a + j) = Ok b -> j < m ->
  launch_attempts launch n (seq a m) last
  = (flat_map (launch_step n) (seq a j) ++ [ELaunch (a + j)], Ok b).
Proof.
  induction j as [|j IH]; intros a m last b Hf Hb Hm; (destruct m as [|m]; [lia|]); simpl.
  - rewrite Nat.add_0_r in Hb. rewrite Hb. rewrite Nat.add_0_r. reflexivity.
  - destruct (Hf a ltac:(lia)) as (e & He & Hx). rewrite He, Hx.
    rewrite (IH (S a) m (Some e) b) by (try (intros; apply Hf; lia); try lia;
                                         rewrite <- Hb; f_equal; lia).
    simpl. unfold launch_step. rewrite <- !app_assoc, Nat.add_succ_r. reflexivity.
Qed.

Lemma launch_attempts_fail {B} (launch : nat -> res B) n m : forall a last e,
  (forall k, a <= k < a + m -> exists e', launch k = Raise e' /\ is_exception e' = true) ->
  launch (a + m) = Raise e -> is_exception e = true ->
  launch_attempts launch n (seq a (S m)) last = (flat_map (launch_step n) (seq a (S m)), Raise e).
Proof.
  induction m as [|m IH]; intros a last e Hf He Hx;
    change (seq a (S ?k)) with (a :: seq (S a) k); cbn [launch_attempts flat_map].
  - rewrite Nat.add_0_r in He. rewrite He, Hx. simpl. unfold launch_step.
    rewrite !app_nil_r. reflexivity.
  - destruct (Hf a ltac:(lia)) as (e0 & He0 & Hx0). rewrite He0, Hx0.
    rewrite (IH (S a) (Some e0) e) by (try (intros; apply Hf; lia); try exact Hx;
                                       rewrite <- He; f_equal; lia).
    reflexivity.
Qed.

Lemma backoff_trace_steps n j :
  1 <= j <= n -> backoff_trace j = flat_map (launch_step n) (seq 1 (j - 1)) ++ [ELaunch j].
Proof.
  intro Hj. unfold backoff_trace. f_equal. rewrite !flat_map_concat_map. f_equal.
  apply map_ext_in.
  intros k Hk. apply in_seq in Hk. unfold launch_step.
  replace (k <? n) with true by (symmetry; apply Nat.ltb_lt; lia). reflexivity.
Qed.

Example backoff_trace_3 :
  backoff_trace 3 = [ELaunch 1; ESleep 3; ELaunch 2; ESleep 6; ELaunch 3].
Proof. reflexivity. Qed.

(** C9: [_launch_playwright_browser p, max_retries=n] calls
    [chromium.launch] at most [n] times; when attempts [1..j-1] raise and
    attempt [j] succeeds, it sleeps [3 k] seconds after each failed attempt
    [k] and returns the browser of attempt [j]; when all [n] attempts raise,
    it sleeps after each but the last and raises the last attempt's
    exception. *)
Theorem launch_retry_backoff {B} (launch : nat -> res B) (n : nat) :
  launch_count (fst (launch_playwright_browser launch n)) <= n /\
  (forall j b, 1 <= j <= n ->
     (forall k, 1 <= k < j -> exists e, launch k = Raise e /\ is_exception e = true) ->
     launch j = Ok b ->
     launch_playwright_browser launch n = (backoff_trace j, Ok b)) /\
  (forall e, 1 <= n ->
     (forall k, 1 <= k < n -> exists e', launch k = Raise e' /\ is_exception e' = true) ->
     launch n = Raise e -> is_exception e = true ->
     launch_playwright_browser launch n = (backoff_trace n, Raise e)).
Proof.
  unfold launch_playwright_browser. split; [|split].
  - pose proof (launch_attempts_count launch n (seq 1 n) None) as H.
    rewrite length_seq in H. exact H.
  - intros j b Hj Hf Hb. rewrite (backoff_trace_steps n j Hj).
    replace (ELaunch j) with (ELaunch (1 + (j - 1))) by (f_equal; lia).
    apply launch_attempts_ok; [intros; apply Hf; lia| |lia].
    rewrite <- Hb. f_equal. lia.
  - intros e Hn Hf He Hx.
    replace n with (S (n - 1)) at 2 by lia.
    rewrite (launch_attempts_fail launch n (n - 1) 1 None e)
      by (try (intros; apply Hf; lia); try exact Hx; rewrite <- He; f_equal; lia).
    rewrite (backoff_trace_steps n n) by lia.
    replace (S (n - 1)) with ((n - 1) + 1) by lia.
    rewrite seq_app, flat_map_app. simpl. unfold launch_step.
    replace (S (n - 1)) with n by lia. rewrite Nat.ltb_irrefl. reflexivity.
Qed.

Lemma launch_retry_backoff_witness :
  launch_playwright_browser sample_launch 3
  = ([ELaunch 1; ESleep 3; ELaunch 2; ESleep 6; ELaunch 3], Ok 7).
Proof.
  apply (proj1 (proj2 (launch_retry_backoff sample_launch 3)) 3 7).
  - lia.
  - intros k Hk. eexists. split; [unfold sample_launch; replace (k <? 3) with true by
                                    (symmetry; apply Nat.ltb_lt; lia); reflexivity|reflexivity].
  - reflexivity.
Defined.

(* ================================================================== *)
(** ** Retrying the invoice creation *)

(** On a record in [error] with no invoice, [retry_error] and
    [action_retry_create_invoice] both run [_create_invoice] on it.  When
    the accounting steps create the invoice [inv], both leave the same
    database: the row is [done] with [invoice_id = inv] and the accounting
    side is the one those steps leave; [retry_error] answers with the
    invoice and the form action returns normally.  When they raise [e],
    the row gets the message of [e] in [error_message] (after
    [retry_failed_note] for the API), the API answers
    [RETRY_FAILED] and the form action raises [UserError("Erreur: ...")]. *)
Theorem retry_runs_create_invoice acct (id : nat) (en : env) (r : scan_record) :
  find_rec id (db en) = Some r -> state r = Error -> invoice_id r = None ->
  (forall lg inv, acct r (ledger en) = (lg, Ok inv) ->
     let en' := with_db (with_ledger en lg)
                  (map (fun x => if rec_id x =? id then set_done x inv else x) (db en))
                  (next_id en) in
     retry_error acct id en = (en', Ok (ApiRetryOk id inv))
     /\ action_retry_create_invoice acct id en = (en', Ok tt)
     /\ ledger en' = lg /\ find_rec id (db en') = Some (set_done r inv)) /\
  (forall lg e, acct r (ledger en) = (lg, Raise e) -> is_exception e = true ->
     exists en1 en2,
       retry_error acct id en = (en1, Ok (ApiRetryFailed (retry_failed_msg ++ exc_str e)))
       /\ action_retry_create_invoice acct id en
          = (en2, Raise (UserError (of_string "Erreur: " ++ exc_str e)))
       /\ ledger en1 = lg /\ ledger en2 = lg
       /\ find_rec id (db en1)
          = Some (set_error_message r (VStr (retry_failed_note ++ exc_str e)))
       /\ find_rec id (db en2) = Some (set_error_message r (VStr (exc_str e)))).
Proof.
  intros Hr Hs Hi. split.
  - intros lg inv Ha en'.
    unfold retry_error, action_retry_create_invoice, stry, create_invoice, run_acct,
      read_rec, write_rec, sget, sbind, sret.
    cbv beta iota zeta. rewrite Hr. cbv beta iota zeta. rewrite Hs, Hi.
    cbn [scan_state_eqb negb andb]. cbv beta iota zeta. rewrite Hr, Hi.
    cbv beta iota zeta. rewrite Ha. cbv beta iota zeta.
    repeat split.
    unfold en'. cbn [db with_db]. rewrite find_rec_update, Hr by reflexivity. reflexivity.
  - intros lg e Ha He.
    unfold retry_error, action_retry_create_invoice, stry, create_invoice, run_acct,
      read_rec, write_rec, sget, sbind, sret, sraise.
    cbv beta iota zeta. rewrite Hr. cbv beta iota zeta. rewrite Hs, Hi.
    cbn [scan_state_eqb negb andb]. cbv beta iota zeta. rewrite Hr, Hi.
    cbv beta iota zeta. rewrite Ha. cbv beta iota zeta. rewrite He.
    do 2 eexists. split; [reflexivity|]. split; [reflexivity|].
    split; [reflexivity|]. split; [reflexivity|].
    cbn [db with_db with_ledger]. rewrite !find_rec_update, Hr by reflexivity.
    split; reflexivity.
Qed.

(** C7: [action_retry_create_invoice] does not reject a record that
    [retry_error] rejects.  On a [done] record with an invoice the API
    answers [INVALID_STATE], and on an [error] record that already has an
    invoice it answers [ALREADY_PROCESSED]; on both the form action
    changes nothing and returns normally, the same result it gives after
    a retry that did create the invoice of an [error] record. *)
Lemma retry_silent_noop_cex :
  let en := mk_env [sample_record 1 Done (Some 42); sample_record 2 Error (Some 43);
                    sample_record 3 Error None] 4 1000 1 2 [] in
  retry_error sample_acct_ok 1 en = (en, Ok (ApiInvalidState Done))
  /\ action_retry_create_invoice sample_acct_ok 1 en = (en, Ok tt)
  /\ retry_error sample_acct_ok 2 en = (en, Ok ApiAlreadyProcessed)
  /\ action_retry_create_invoice sample_acct_ok 2 en = (en, Ok tt)
  /\ snd (action_retry_create_invoice sample_acct_ok 3 en) = Ok tt
  /\ find_rec 3 (db (fst (action_retry_create_invoice sample_acct_ok 3 en)))
     = Some (set_done (sample_record 3 Error None) 42).
Proof. vm_compute. repeat split. Qed.

(* ================================================================== *)
(** ** The [success] marker and the draft path *)

Lemma dict_get_set_ne d k k' v :
  String.eqb k' k = false -> dict_get (dict_set d k v) k' = dict_get d k'.
Proof.
  intro Hk. induction d as [|[k0 v0] d IH]; simpl.
  - rewrite Hk. reflexivity.
  - destruct (String.eqb k k0) eqn:E; simpl.
    + apply String.eqb_eq in E. subst k0. rewrite Hk. reflexivity.
    + rewrite IH. reflexivity.
Qed.

Lemma bind_success (m : res dict) (k : dict -> res dict) :
  res_success_true m -> (forall x, success_true x -> res_success_true (k x)) -> res_success_true (bind m k).
Proof. destruct m; simpl; auto. Qed.

Lemma bind_success_val (m : res pyval) (k : pyval -> res dict) :
  (forall x, res_success_true (k x)) -> res_success_true (bind m k).
Proof. destruct m; simpl; auto. Qed.

Lemma match_opt_success {X} (o : option X) (f : X -> dict) (d : dict) :
  success_true d -> (forall x, success_true (f x)) -> success_true (match o with Some x => f x | None => d end).
Proof. destruct o; auto. Qed.

Lemma match_opt_res_success {X} (o : option X) (f : X -> res dict) (r : res dict) :
  res_success_true r -> (forall x, res_success_true (f x)) -> res_success_true (match o with Some x => f x | None => r end).
Proof. destruct o; auto. Qed.

Lemma success_dget d : success_true d -> dget d "success" = VBool true.
Proof. unfold success_true, dget, get_or. intro H. rewrite H. reflexivity. Qed.

Lemma success_set d k v : String.eqb "success" k = false -> success_true d -> success_true (dict_set d k v).
Proof. unfold success_true. intros Hk Hd. rewrite dict_get_set_ne by exact Hk. exact Hd. Qed.

Lemma extract_success_true t h d :
  extract_dgi_data_from_text t h = Ok d -> dget d "success" = VBool true.
Proof.
  intro H. apply success_dget.
  assert (R : res_success_true (extract_dgi_data_from_text t h)).
  { unfold extract_dgi_data_from_text.
    repeat lazymatch goal with
      | |- forall _, _ => intro
      | |- res_success_true (bind (A := dict) _ _) => apply bind_success
      | |- res_success_true (bind (A := pyval) _ _) => apply bind_success_val
      | |- res_success_true (match _ with Some _ => _ | None => _ end) => apply match_opt_res_success
      | |- res_success_true (Ok _) => unfold res_success_true
      | |- success_true (match _ with Some _ => _ | None => _ end) => apply match_opt_success
      | |- success_true (dict_set _ _ _) => apply success_set; [reflexivity|]
      | |- success_true (extract_base _ _) => reflexivity
      | |- success_true ?x => assumption
      end. }
  rewrite H in R. exact R.
Qed.

Lemma extract_no_field t h :
  no_field_matches t = true -> extract_dgi_data_from_text t h = Ok (extract_base t h).
Proof.
  unfold no_field_matches, extract_dgi_data_from_text. simpl.
  destruct (search supplier_re t); [discriminate|].
  destruct (search client_re t); [discriminate|].
  destruct (search invoice_re t); [discriminate|].
  destruct (search date_re t); [discriminate|].
  destruct (search verif_re t); [discriminate|].
  destruct (search amount_re t); [discriminate|].
  reflexivity.
Qed.

Lemma process_draft_invoice_ok fetch acct seq_ref move_name user_name iso
    (en : env) (url : pystr) (user_id : option nat) (u : pystr) (d : dict)
    (lg : list nat) (inv : nat) :
  wf en = true -> extract_uuid_from_url url = Some u -> check_duplicate en u = None ->
  fetch url = Ok d -> truthy (dget d "success") = true ->
  existsb (same_key u (company en)) (db en) = false ->
  acct (draft_record seq_ref en url u d user_id (next_id en)) (ledger en) = (lg, Ok inv) ->
  exists en',
    process_qr_scan fetch acct seq_ref move_name user_name iso url user_id en
    = (en', Ok (SSuccess (next_id en) inv))
    /\ find_rec (next_id en) (db en')
       = Some (set_done (draft_record seq_ref en url u d user_id (next_id en)) inv).
Proof.
  intros Hwf Hu Hcd Hf Hs Hk Ha. destruct (wf_spec en Hwf) as (Hn & Hlt & _).
  unfold process_qr_scan. rewrite Hu.
  unfold sget, slift, create, stry, create_invoice, read_rec, run_acct, write_rec, sbind, sret.
  cbv beta iota zeta. rewrite Hcd, Hf. cbv beta iota zeta. rewrite Hs. cbn [negb].
  cbn [qr_uuid company_id draft_record]. rewrite Hk. cbn [db next_id with_db].
  rewrite find_rec_fresh by (auto; reflexivity).
  cbn [invoice_id draft_record ledger with_db]. rewrite Ha.
  eexists. split; [reflexivity|].
  cbn [db with_ledger with_db].
  rewrite find_rec_update by reflexivity.
  rewrite find_rec_fresh by (auto; reflexivity). reflexivity.
Qed.

(** C5: when the accounting steps of [_create_invoice] raise an
    [Exception] on the draft record just created, [process_qr_scan] returns
    normally an [INVOICE_ERROR] result (with [success] false) carrying the
    record's id, and the record is left in state [error] with the
    exception's message as [error_message]. *)
Theorem process_invoice_error_caught fetch acct seq_ref move_name user_name iso
    (en : env) (url : pystr) (user_id : option nat) (u : pystr) (d : dict)
    (lg : list nat) (e : exc) :
  wf en = true -> extract_uuid_from_url url = Some u -> check_duplicate en u = None ->
  fetch url = Ok d -> truthy (dget d "success") = true ->
  existsb (same_key u (company en)) (db en) = false ->
  acct (draft_record seq_ref en url u d user_id (next_id en)) (ledger en) = (lg, Raise e) ->
  is_exception e = true ->
  exists en' res r,
    process_qr_scan fetch acct seq_ref move_name user_name iso url user_id en = (en', Ok res)
    /\ res = SInvoiceError (invoice_error_prefix ++ exc_str e) (next_id en)
    /\ result_success res = false
    /\ result_error_code res = Some "INVOICE_ERROR"%string
    /\ find_rec (next_id en) (db en') = Some r
    /\ rec_id r = next_id en /\ state r = Error /\ error_message r = VStr (exc_str e).
Proof.
  intros Hwf Hu Hcd Hf Hs Hk Ha He.
  destruct (process_draft_invoice_raise fetch acct seq_ref move_name user_name iso en url user_id
              u d lg e Hwf Hu Hcd Hf Hs Hk Ha He) as (en' & Hp & Hr).
  exists en', (SInvoiceError (invoice_error_prefix ++ exc_str e) (next_id en)),
    (set_error_state (draft_record seq_ref en url u d user_id (next_id en)) (VStr (exc_str e))).
  repeat split; assumption.
Qed.

(** C10: [_extract_dgi_data_from_text] always returns a dict whose
    ['success'] is [True].  Hence, when the fast path gives nothing and the
    render path yields a body text in which no field pattern matches
    ([\d] matching every Unicode decimal digit, as in [re]),
    [fetch_invoice_data_from_dgi] returns that dict, [process_qr_scan]
    creates a [draft] record whose [amount_ttc] is 0, and goes on to the
    invoice creation: it ends in [success] or in [INVOICE_ERROR]. *)
Theorem extract_success_always_proceeds requests_get soup_get_text py_upper json_str py_float
    render_page acct seq_ref move_name user_name iso :
  (forall t h d, extract_dgi_data_from_text t h = Ok d -> dget d "success" = VBool true) /\
  (forall en url user_id u text html,
     wf en = true -> extract_uuid_from_url url = Some u -> check_duplicate en u = None ->
     existsb (same_key u (company en)) (db en) = false ->
     fetch_dgi_with_requests requests_get soup_get_text py_upper json_str py_float url = Ok None ->
     render_page url = Ok (text, html) -> no_field_matches text = true ->
     let fetch := fetch_invoice_data_from_dgi requests_get soup_get_text py_upper json_str
                    py_float render_page in
     let r0 := draft_record seq_ref en url u (extract_base text html) user_id (next_id en) in
     fetch url = Ok (extract_base text html)
     /\ amount_ttc r0 = nat_val 0 /\ state r0 = Draft
     /\ (forall lg inv, acct r0 (ledger en) = (lg, Ok inv) ->
           exists en',
             process_qr_scan fetch acct seq_ref move_name user_name iso url user_id en
             = (en', Ok (SSuccess (next_id en) inv))
             /\ find_rec (next_id en) (db en') = Some (set_done r0 inv))
     /\ (forall lg e, acct r0 (ledger en) = (lg, Raise e) -> is_exception e = true ->
           exists en',
             process_qr_scan fetch acct seq_ref move_name user_name iso url user_id en
             = (en', Ok (SInvoiceError (invoice_error_prefix ++ exc_str e) (next_id en))))).
Proof.
  split; [exact extract_success_true|].
  intros en url user_id u text html Hwf Hu Hcd Hk Hq Hp Hn fetch r0.
  assert (Hf : fetch url = Ok (extract_base text html)).
  { unfold fetch, fetch_invoice_data_from_dgi. rewrite Hq. simpl.
    unfold render_path, py_try. rewrite Hp. simpl. rewrite (extract_no_field text html Hn).
    reflexivity. }
  assert (Hs : truthy (dget (extract_base text html) "success") = true) by reflexivity.
  split; [exact Hf|]. split; [reflexivity|]. split; [reflexivity|]. split.
  - intros lg inv Ha.
    exact (process_draft_invoice_ok fetch acct seq_ref move_name user_name iso en url user_id
             u _ lg inv Hwf Hu Hcd Hf Hs Hk Ha).
  - intros lg e Ha He.
    destruct (process_draft_invoice_raise fetch acct seq_ref move_name user_name iso en url user_id
                u _ lg e Hwf Hu Hcd Hf Hs Hk Ha He) as (en' & Hr & _).
    eauto.
Qed.

(* ================================================================== *)
(** ** Instances on the sample inputs *)

Lemma process_after_error_record_witness :
  process_qr_scan sample_fetch_fail sample_acct_ok sample_label sample_label sample_label
    sample_label sample_url None (sample_env [sample_record 1 Error None])
  = (sample_env [sample_record 1 Error None], Raise unique_violation).
Proof.
  apply (process_after_error_record sample_fetch_fail sample_acct_ok sample_label sample_label
           sample_label sample_label (sample_env [sample_record 1 Error None]) sample_url None
           (sample_record 1 Error None) (dict_false (of_string "Erreur: Timeout 60000ms exceeded."))).
  - vm_compute. reflexivity.
  - simpl. left. reflexivity.
  - vm_compute. reflexivity.
  - reflexivity.
  - reflexivity.
  - reflexivity.
Defined.

Lemma process_rescan_after_dgi_error_cex :
  let '(en1, r1) := process_qr_scan sample_fetch_fail sample_acct_ok sample_label sample_label
                      sample_label sample_label sample_url None (sample_env []) in
  r1 = Ok (SDgiError (VStr (of_string "Erreur: Timeout 60000ms exceeded.")) 2)
  /\ process_qr_scan sample_fetch_ok sample_acct_ok sample_label sample_label sample_label
       sample_label sample_url None en1 = (en1, Raise unique_violation).
Proof. vm_compute. split; reflexivity. Qed.

Lemma extract_malformed_date_cex :
  extract_dgi_data_from_text (of_string "DATE DE FACTURATION: 32/13/2024") []
  = Raise (ValueError (of_string "time data '32/13/2024' does not match format '%d/%m/%Y'"))
  /\ exists e, extract_dgi_data_from_text (of_string "MONTANT TTC: FCFA") [] = Raise e.
Proof. split; [vm_compute; reflexivity|eexists; vm_compute; reflexivity]. Qed.

Lemma process_duplicate_rescan_witness :
  let r := sample_record 1 Done (Some 42) in
  let r' := set_dup r 1 1000 2 in
  process_qr_scan sample_fetch_ok sample_acct_ok sample_label sample_label sample_label
    sample_label sample_url None (sample_env [r])
  = (with_db (sample_env [r]) [r'] 2,
     Ok (SDuplicate 1 (snapshot sample_label sample_label sample_label r'))).
Proof.
  apply (process_duplicate_rescan sample_fetch_ok sample_acct_ok sample_label sample_label
           sample_label sample_label (sample_env [sample_record 1 Done (Some 42)]) sample_url None
           (sample_record 1 Done (Some 42))).
  - vm_compute. reflexivity.
  - simpl. left. reflexivity.
  - vm_compute. reflexivity.
  - reflexivity.
  - reflexivity.
Defined.

Lemma extract_uuid_from_url_spec_witness :
  extract_uuid_from_url (of_string "https://x/019BD62C-467E-7000-82AC-45C8389C7F05")
  = Some (of_string "019bd62c-467e-7000-82ac-45c8389c7f05").
Proof.
  apply (proj2 (extract_uuid_from_url_spec
                  (of_string "https://x/019BD62C-467E-7000-82AC-45C8389C7F05")) 10).
  - apply uuid_at_mtch. vm_compute. reflexivity.
  - intros j Hj. apply uuid_probe_None.
    do 10 (destruct j as [|j]; [vm_compute; reflexivity|]). lia.
Defined.

Lemma process_invoice_error_caught_witness :
  exists en' res r,
    process_qr_scan sample_fetch_ok sample_acct_fail sample_label sample_label sample_label
      sample_label sample_url None (sample_env []) = (en', Ok res)
    /\ res = SInvoiceError (invoice_error_prefix ++ of_string "Aucun compte de charge") 2
    /\ result_success res = false
    /\ result_error_code res = Some "INVOICE_ERROR"%string
    /\ find_rec 2 (db en') = Some r
    /\ rec_id r = 2 /\ state r = Error /\ error_message r = VStr (of_string "Aucun compte de charge").
Proof.
  apply (process_invoice_error_caught sample_fetch_ok sample_acct_fail sample_label sample_label
           sample_label sample_label (sample_env []) sample_url None sample_uuid
           (match sample_fetch_ok sample_url with Ok d => d | Raise _ => [] end) []
           (OtherException (of_string "Aucun compte de charge"))).
  - reflexivity.
  - vm_compute. reflexivity.
  - vm_compute. reflexivity.
  - vm_compute. reflexivity.
  - vm_compute. reflexivity.
  - reflexivity.
  - reflexivity.
  - reflexivity.
Defined.

Lemma retry_runs_create_invoice_witness :
  let en := sample_env [sample_record 1 Error None] in
  retry_error sample_acct_ok 1 en
  = (with_db (with_ledger en [42]) [set_done (sample_record 1 Error None) 42] 2,
     Ok (ApiRetryOk 1 42))
  /\ exists en1 en2,
       retry_error sample_acct_fail 1 en
       = (en1, Ok (ApiRetryFailed (retry_failed_msg ++ of_string "Aucun compte de charge")))
       /\ action_retry_create_invoice sample_acct_fail 1 en
          = (en2, Raise (UserError (of_string "Erreur: " ++ of_string "Aucun compte de charge")))
       /\ ledger en1 = [] /\ ledger en2 = []
       /\ find_rec 1 (db en1)
          = Some (set_error_message (sample_record 1 Error None)
                    (VStr (retry_failed_note ++ of_string "Aucun compte de charge")))
       /\ find_rec 1 (db en2)
          = Some (set_error_message (sample_record 1 Error None)
                    (VStr (of_string "Aucun compte de charge"))).
Proof.
  split.
  - exact (proj1 (proj1 (retry_runs_create_invoice sample_acct_ok 1
                           (sample_env [sample_record 1 Error None]) (sample_record 1 Error None)
                           eq_refl eq_refl eq_refl) [42] 42 eq_refl)).
  - exact (proj2 (retry_runs_create_invoice sample_acct_fail 1
                    (sample_env [sample_record 1 Error None]) (sample_record 1 Error None)
                    eq_refl eq_refl eq_refl) []
                 (OtherException (of_string "Aucun compte de charge")) eq_refl eq_refl).
Defined.

Lemma extract_success_always_proceeds_witness :
  exists en',
    process_qr_scan
      (fetch_invoice_data_from_dgi sample_requests_timeout (fun h => Ok h) (fun s => s)
         (fun _ => []) (fun _ => Ok VNone) sample_page)
      sample_acct_ok sample_label sample_label sample_label sample_label sample_url None
      (sample_env [])
    = (en', Ok (SSuccess 2 42))
    /\ find_rec 2 (db en')
       = Some (set_done (draft_record sample_label (sample_env []) sample_url sample_uuid
                           (extract_base (of_string "Chargement...")
                              (of_string "<html><body>Chargement...</body></html>")) None 2) 42).
Proof.
  refine (proj1 (proj2 (proj2 (proj2 (proj2
            (extract_success_always_proceeds sample_requests_timeout (fun h => Ok h) (fun s => s)
               (fun _ => []) (fun _ => Ok VNone) sample_page sample_acct_ok sample_label
               sample_label sample_label sample_label)
            (sample_env []) sample_url None sample_uuid (of_string "Chargement...")
            (of_string "<html><body>Chargement...</body></html>") _ _ _ _ _ _ _)))) [42] 42 _).
  all: vm_compute; reflexivity.
Defined.

(* ================================================================== *)
(** ** The model actions, the mobile API endpoints and their properties *)

Lemma check_duplicate_some en u r :
  check_duplicate en u = Some r ->
  In r (db en) /\ qr_uuid r = u /\ is_done_or_processed (state r) = true /\ company_id r = company en.
Proof.
  unfold check_duplicate. intro H. apply find_some in H as [Hin Hp].
  apply in_rev in Hin. apply andb_true_iff in Hp as [Hp Hc]. apply andb_true_iff in Hp as [Hu Hs].
  apply pystr_eqb_eq in Hu. apply Nat.eqb_eq in Hc. auto.
Qed.

Lemma map_upd_fresh (f : scan_record -> scan_record) i rs :
  (forall x, In x rs -> rec_id x < i) ->
  map (fun r => if rec_id r =? i then f r else r) rs = rs.
Proof.
  induction rs as [|x rs IH]; simpl; intro H; [reflexivity|].
  assert (rec_id x < i) by auto. destruct (rec_id x =? i) eqn:E; [apply Nat.eqb_eq in E; lia|].
  f_equal. auto.
Qed.

Lemma pair_ok_inj {A} (a b : env) (x y : A) : (a, Ok x) = (b, Ok y) -> a = b /\ x = y.
Proof. intro H. injection H as -> ->. auto. Qed.

Lemma pair_raise_ok {A} (a b : env) (e : exc) (y : A) : (a, Raise e) = (b, Ok y) -> False.
Proof. intro H. discriminate H. Qed.

Lemma same_key_comm r1 r2 :
  same_key (qr_uuid r1) (company_id r1) r2 = same_key (qr_uuid r2) (company_id r2) r1.
Proof.
  destruct (same_key (qr_uuid r1) (company_id r1) r2) eqn:E.
  - symmetry. apply same_key_sym, E.
  - destruct (same_key (qr_uuid r2) (company_id r2) r1) eqn:E'; [|reflexivity].
    apply same_key_sym in E'. congruence.
Qed.

Lemma existsb_map' {A B} (f : B -> bool) (g : A -> B) l : existsb f (map g l) = existsb (fun x => f (g x)) l.
Proof. induction l as [|x l IH]; simpl; [reflexivity|]. rewrite IH. reflexivity. Qed.

Lemma forallb_map' {A B} (f : B -> bool) (g : A -> B) l : forallb f (map g l) = forallb (fun x => f (g x)) l.
Proof. induction l as [|x l IH]; simpl; [reflexivity|]. rewrite IH. reflexivity. Qed.

Lemma existsb_ext' {A} (f g : A -> bool) l : (forall x, f x = g x) -> existsb f l = existsb g l.
Proof. intro H. induction l as [|x l IH]; simpl; [reflexivity|]. rewrite H, IH. reflexivity. Qed.

Lemma forallb_ext' {A} (f g : A -> bool) l : (forall x, f x = g x) -> forallb f l = forallb g l.
Proof. intro H. induction l as [|x l IH]; simpl; [reflexivity|]. rewrite H, IH. reflexivity. Qed.

Section Preserve.
Variable g : scan_record -> scan_record.
Hypothesis g_id : forall r, rec_id (g r) = rec_id r.
Hypothesis g_uuid : forall r, qr_uuid (g r) = qr_uuid r.
Hypothesis g_company : forall r, company_id (g r) = company_id r.

Lemma ids_unique_map rs : ids_unique (map g rs) = ids_unique rs.
Proof.
  induction rs as [|x rs IH]; simpl; [reflexivity|]. rewrite IH, existsb_map'.
  f_equal. f_equal. apply existsb_ext'. intro y. rewrite !g_id. reflexivity.
Qed.

Lemma keys_unique_map rs : keys_unique (map g rs) = keys_unique rs.
Proof.
  induction rs as [|x rs IH]; simpl; [reflexivity|]. rewrite IH, existsb_map'.
  f_equal. f_equal. apply existsb_ext'. intro y. unfold same_key. rewrite !g_uuid, !g_company.
  reflexivity.
Qed.

Lemma wf_map en n :
  wf en = true ->
  wf (with_db en (map g (db en)) n) = (forallb (fun r => rec_id r <? n) (db en)).
Proof.
  unfold wf. cbn [db next_id with_db]. rewrite ids_unique_map, keys_unique_map, forallb_map'.
  intro H. apply andb_true_iff in H as [H H3]. apply andb_true_iff in H as [H1 H2].
  rewrite H1, H3. simpl. rewrite andb_true_r.
  apply forallb_ext'. intro r. rewrite g_id. reflexivity.
Qed.

End Preserve.

Lemma ids_unique_app rs r :
  ids_unique (rs ++ [r]) = ids_unique rs && negb (existsb (fun x => rec_id x =? rec_id r) rs).
Proof.
  induction rs as [|x rs IH]; simpl; [reflexivity|]. rewrite IH, existsb_app. simpl.
  rewrite (Nat.eqb_sym (rec_id r)).
  destruct (rec_id x =? rec_id r), (existsb (fun x0 => rec_id x0 =? rec_id x) rs), (ids_unique rs),
    (existsb (fun x0 => rec_id x0 =? rec_id r) rs); reflexivity.
Qed.

Lemma keys_unique_app rs r :
  keys_unique (rs ++ [r]) = keys_unique rs && negb (existsb (same_key (qr_uuid r) (company_id r)) rs).
Proof.
  induction rs as [|x rs IH]; simpl; [reflexivity|]. rewrite IH, existsb_app. simpl.
  rewrite (same_key_comm x r).
  destruct (same_key (qr_uuid r) (company_id r) x), (existsb (same_key (qr_uuid x) (company_id x)) rs),
    (keys_unique rs), (existsb (same_key (qr_uuid r) (company_id r)) rs); reflexivity.
Qed.

Lemma wf_append en r :
  wf en = true -> rec_id r = next_id en ->
  existsb (same_key (qr_uuid r) (company_id r)) (db en) = false ->
  wf (with_db en (db en ++ [r]) (S (next_id en))) = true.
Proof.
  intros H Hid Hk. destruct (wf_spec en H) as (_ & Hlt & _).
  unfold wf in *. cbn [db next_id with_db].
  apply andb_true_iff in H as [H H3]. apply andb_true_iff in H as [H1 H2].
  rewrite ids_unique_app, keys_unique_app, forallb_app, H1, H3, Hk.
  assert (existsb (fun x => rec_id x =? rec_id r) (db en) = false) as ->.
  { apply not_true_iff_false. intro E. apply existsb_exists in E as (x & Hx & E).
    apply Nat.eqb_eq in E. specialize (Hlt x Hx). lia. }
  assert (forallb (fun x => rec_id x <? S (next_id en)) (db en) = true) as ->.
  { apply forallb_forall. intros x Hx. apply Nat.ltb_lt. specialize (Hlt x Hx). lia. }
  assert (forallb (fun x => rec_id x <? S (next_id en)) [r] = true) as ->.
  { simpl. rewrite andb_true_r. apply Nat.ltb_lt. lia. }
  reflexivity.
Qed.

Lemma process_outcome fetch acct seq_ref move_name user_name iso en url user_id en' r0 :
  wf en = true ->
  process_qr_scan fetch acct seq_ref move_name user_name iso url user_id en = (en', Ok r0) ->
  company en' = company en /\ now en' = now en /\ uid en' = uid en /\
  match r0 with
  | SInvalidUrl => en' = en /\ extract_uuid_from_url url = None
  | SDuplicate c _ =>
      exists r, In r (db en) /\ company_id r = company en /\ is_done_or_processed (state r) = true
        /\ extract_uuid_from_url url = Some (qr_uuid r) /\ c = S (duplicate_count r)
        /\ en' = with_db en (map (fun x => if rec_id x =? rec_id r
                                          then set_dup x (S (duplicate_count x)) (now en)
                                                 (acting en user_id)
                                          else x) (db en)) (next_id en)
  | SDgiError _ id | SInvoiceError _ id =>
      id = next_id en /\ next_id en' = S id /\
      exists nr, db en' = db en ++ [nr] /\ rec_id nr = id
        /\ company_id nr = company en /\ state nr = Error /\ invoice_id nr = None
        /\ extract_uuid_from_url url = Some (qr_uuid nr) /\ duplicate_count nr = 0
        /\ existsb (same_key (qr_uuid nr) (company_id nr)) (db en) = false
  | SSuccess id inv =>
      id = next_id en /\ next_id en' = S id /\
      exists nr, db en' = db en ++ [nr] /\ rec_id nr = id
        /\ company_id nr = company en /\ state nr = Done /\ invoice_id nr = Some inv
        /\ extract_uuid_from_url url = Some (qr_uuid nr) /\ duplicate_count nr = 0
        /\ existsb (same_key (qr_uuid nr) (company_id nr)) (db en) = false
  end.
Proof.
  intros Hwf H. destruct (wf_spec en Hwf) as (Hn & Hlt & _).
  unfold process_qr_scan in H.
  destruct (extract_uuid_from_url url) as [u|] eqn:Hu.
  2:{ unfold sret in H. apply pair_ok_inj in H as [<- <-]. repeat split; auto. }
  unfold sget, slift, create, stry, create_invoice, read_rec, run_acct, write_rec, sbind, sret in H.
  cbv beta iota zeta in H.
  destruct (check_duplicate en u) as [ex|] eqn:Hcd.
  - apply check_duplicate_some in Hcd as (Hin & Hxu & Hs & Hc).
    cbn [db with_db] in H. rewrite find_rec_update in H by reflexivity.
    rewrite (find_rec_in (rec_id ex) (db en) ex Hn Hin eq_refl) in H.
    cbn [option_map] in H. apply pair_ok_inj in H as [<- <-].
    cbn [company now uid with_db]. split; [reflexivity|]. split; [reflexivity|]. split; [reflexivity|].
    exists ex. cbn [duplicate_count set_dup]. subst u. repeat split; auto.
  - destruct (fetch url) as [d|e]; [|apply pair_raise_ok in H; destruct H].
    cbv beta iota zeta in H.
    destruct (negb (truthy (dget d "success"))).
    + cbn [qr_uuid company_id error_record draft_record] in H.
      destruct (existsb (same_key u (company en)) (db en)) eqn:Hk; [apply pair_raise_ok in H; destruct H|].
      apply pair_ok_inj in H as [<- <-]. cbn [company now uid with_db db next_id].
      repeat split; auto. exists (error_record seq_ref en url u d user_id (next_id en)).
      repeat split; auto.
    + cbn [qr_uuid company_id error_record draft_record] in H.
      destruct (existsb (same_key u (company en)) (db en)) eqn:Hk; [apply pair_raise_ok in H; destruct H|].
      cbn [db next_id with_db] in H.
      rewrite find_rec_fresh in H by (auto; reflexivity).
      cbn [invoice_id draft_record ledger with_db] in H.
      match type of H with context [acct ?a ?b] => destruct (acct a b) as [lg [inv|e]] eqn:Ha end.
      * cbv beta iota zeta in H. apply pair_ok_inj in H as [<- <-].
        cbn [company now uid with_db with_ledger db next_id].
        repeat split; auto. exists (set_done (draft_record seq_ref en url u d user_id (next_id en)) inv).
        rewrite map_app, map_upd_fresh by exact Hlt. cbn. rewrite Nat.eqb_refl.
        repeat split; auto.
      * cbv beta iota zeta in H. destruct (is_exception e); [|apply pair_raise_ok in H; destruct H].
        apply pair_ok_inj in H as [<- <-].
        cbn [company now uid with_db with_ledger db next_id].
        repeat split; auto.
        exists (set_error_state (draft_record seq_ref en url u d user_id (next_id en)) (VStr (exc_str e))).
        rewrite map_app, map_upd_fresh by exact Hlt. cbn. rewrite Nat.eqb_refl.
        repeat split; auto.
Qed.

Lemma process_wf fetch acct seq_ref move_name user_name iso en url user_id en' r0 :
  wf en = true ->
  process_qr_scan fetch acct seq_ref move_name user_name iso url user_id en = (en', Ok r0) ->
  wf en' = true.
Proof.
  intros Hwf H.
  destruct (process_outcome fetch acct seq_ref move_name user_name iso en url user_id en' r0 Hwf H)
    as (_ & _ & _ & Ho).
  assert (Happ : forall nr, db en' = db en ++ [nr] -> next_id en' = S (next_id en) ->
                 rec_id nr = next_id en ->
                 existsb (same_key (qr_uuid nr) (company_id nr)) (db en) = false -> wf en' = true).
  { intros nr Hdb Hnx Hid Hk. pose proof (wf_append en nr Hwf Hid Hk) as W.
    unfold wf in *. cbn [db next_id with_db] in W. rewrite Hdb, Hnx. exact W. }
  destruct r0 as [|c snap|err id|id inv|err id].
  - destruct Ho as [-> _]. exact Hwf.
  - destruct Ho as (r & _ & _ & _ & _ & _ & ->).
    rewrite wf_map; [| intro x; destruct (rec_id x =? rec_id r); reflexivity
                     | intro x; destruct (rec_id x =? rec_id r); reflexivity
                     | intro x; destruct (rec_id x =? rec_id r); reflexivity | exact Hwf].
    unfold wf in Hwf. apply andb_true_iff in Hwf as [Hwf _]. apply andb_true_iff in Hwf as [_ Hwf].
    exact Hwf.
  - destruct Ho as (-> & Hnx & nr & Hdb & Hid & _ & _ & _ & _ & _ & Hk). eauto.
  - destruct Ho as (-> & Hnx & nr & Hdb & Hid & _ & _ & _ & _ & _ & Hk). eauto.
  - destruct Ho as (-> & Hnx & nr & Hdb & Hid & _ & _ & _ & _ & _ & Hk). eauto.
Qed.

Lemma total_scans_sum en :
  total_scans (get_stats en)
  = list_sum (map (fun r => if company_id r =? company en
                            then (if is_done_or_processed (state r) then 1 else 0) + duplicate_count r
                                 + (if scan_state_eqb (state r) Error then 1 else 0)
                            else 0) (db en)).
Proof.
  unfold get_stats. cbn [total_scans]. generalize (db en) as l.
  induction l as [|x l IH]; [reflexivity|]. simpl.
  destruct (company_id x =? company en); simpl; [|exact IH].
  destruct (0 <? duplicate_count x) eqn:E; [|apply Nat.ltb_ge in E];
    destruct (state x); simpl; lia.
Qed.

Lemma list_sum_upd (f : scan_record -> nat) g l y :
  NoDup (map rec_id l) -> In y l ->
  list_sum (map f (map (fun x => if rec_id x =? rec_id y then g x else x) l)) + f y
  = list_sum (map f l) + f (g y).
Proof.
  induction l as [|x l IH]; simpl; intros Hn Hin; [destruct Hin|].
  inversion Hn as [|? ? Hx Hn']; subst.
  destruct (rec_id x =? rec_id y) eqn:E.
  - apply Nat.eqb_eq in E.
    assert (x = y) as <-.
    { destruct Hin as [|Hin]; [assumption|]. exfalso. apply Hx. rewrite E. apply in_map, Hin. }
    rewrite (map_ext_in (fun x0 => if rec_id x0 =? rec_id x then g x0 else x0) (fun x0 => x0)).
    + rewrite map_id. simpl. lia.
    + intros z Hz. destruct (rec_id z =? rec_id x) eqn:E'; [|reflexivity].
      apply Nat.eqb_eq in E'. exfalso. apply Hx. rewrite <- E'. apply in_map, Hz.
  - destruct Hin as [<-|Hin]; [rewrite Nat.eqb_refl in E; discriminate|].
    simpl. specialize (IH Hn' Hin). lia.
Qed.

Lemma list_sum_app_one (f : scan_record -> nat) l x :
  list_sum (map f (l ++ [x])) = list_sum (map f l) + f x.
Proof. rewrite map_app, list_sum_app. simpl. lia. Qed.

(** Every call of [process_qr_scan] that returns a result for an URL
    carrying an identifier adds exactly one to the [total_scans] of
    [get_stats]: a success adds a [done] row, a [DGI_ERROR] or
    [INVOICE_ERROR] an [error] row, and a [DUPLICATE] one attempt to the
    counter of the existing row.  An [INVALID_URL] result changes nothing. *)
Theorem stats_count_each_scan fetch acct seq_ref move_name user_name iso en url user_id en' r0 :
  wf en = true ->
  process_qr_scan fetch acct seq_ref move_name user_name iso url user_id en = (en', Ok r0) ->
  total_scans (get_stats en')
  = total_scans (get_stats en) + match r0 with SInvalidUrl => 0 | _ => 1 end.
Proof.
  intros Hwf H. destruct (wf_spec en Hwf) as (Hn & _ & _).
  destruct (process_outcome fetch acct seq_ref move_name user_name iso en url user_id en' r0 Hwf H)
    as (Hc & _ & _ & Ho).
  rewrite !total_scans_sum, Hc.
  destruct r0 as [|c snap|err id|id inv|err id].
  - destruct Ho as [-> _]. lia.
  - destruct Ho as (r & Hin & Hrc & Hs & _ & _ & ->). cbn [db with_db company].
    match goal with |- list_sum (map ?f (map ?u ?l)) = _ =>
      pose proof (list_sum_upd f (fun x => set_dup x (S (duplicate_count x)) (now en) (acting en user_id))
                    l r Hn Hin) as E end.
    cbn [company_id state duplicate_count set_dup] in E. rewrite Hrc, Nat.eqb_refl in E. lia.
  - destruct Ho as (_ & _ & nr & Hdb & _ & Hrc & Hs & _ & _ & Hd & _). rewrite Hdb, list_sum_app_one,
      Hrc, Hs, Hd, Nat.eqb_refl. simpl. lia.
  - destruct Ho as (_ & _ & nr & Hdb & _ & Hrc & Hs & _ & _ & Hd & _). rewrite Hdb, list_sum_app_one,
      Hrc, Hs, Hd, Nat.eqb_refl. simpl. lia.
  - destruct Ho as (_ & _ & nr & Hdb & _ & Hrc & Hs & _ & _ & Hd & _). rewrite Hdb, list_sum_app_one,
      Hrc, Hs, Hd, Nat.eqb_refl. simpl. lia.
Qed.

(** [get_stats] counts every [done] or [processed] row of the company in
    [successful_scans], and exactly one of [processed_scans] and
    [unprocessed_scans]: [successful_scans] is always their sum. *)
Theorem stats_successful_split en :
  successful_scans (get_stats en) = processed_scans (get_stats en) + unprocessed_scans (get_stats en).
Proof.
  unfold get_stats. cbn [successful_scans processed_scans unprocessed_scans].
  generalize (filter (fun r => company_id r =? company en) (db en)) as l.
  induction l as [|x l IH]; [reflexivity|]. simpl. destruct (state x); simpl; lia.
Qed.

(** After [process_qr_scan] returned a result with a [record_id], the form
    button [action_view_invoice] on that record opens the invoice of a
    success, and raises the [UserError] "Aucune facture associee." after a
    [DGI_ERROR] or an [INVOICE_ERROR]. *)
Theorem view_invoice_after_scan fetch acct seq_ref move_name user_name iso en url user_id en' r0 :
  wf en = true ->
  process_qr_scan fetch acct seq_ref move_name user_name iso url user_id en = (en', Ok r0) ->
  match r0 with
  | SSuccess id inv => action_view_invoice id en' = (en', Ok (invoice_action inv))
  | SDgiError _ id | SInvoiceError _ id =>
      action_view_invoice id en' = (en', Raise (UserError no_invoice_msg))
  | _ => True
  end.
Proof.
  intros Hwf H. destruct (wf_spec en Hwf) as (_ & Hlt & _).
  destruct (process_outcome fetch acct seq_ref move_name user_name iso en url user_id en' r0 Hwf H)
    as (_ & _ & _ & Ho).
  destruct r0 as [|c snap|err id|id inv|err id]; try exact I;
    destruct Ho as (-> & _ & nr & Hdb & Hid & _ & _ & Hi & _);
    unfold action_view_invoice, read_rec, sbind; rewrite Hdb, find_rec_fresh by assumption;
    rewrite Hi; reflexivity.
Qed.

Lemma stats_count_each_scan_witness :
  let p := process_qr_scan sample_fetch_ok sample_acct_ok sample_label sample_label sample_label
             sample_label sample_url None (sample_env [sample_record 1 Done (Some 42)]) in
  total_scans (get_stats (fst p))
  = total_scans (get_stats (sample_env [sample_record 1 Done (Some 42)])) + 1.
Proof.
  intro p.
  apply (stats_count_each_scan sample_fetch_ok sample_acct_ok sample_label sample_label sample_label
           sample_label (sample_env [sample_record 1 Done (Some 42)]) sample_url None (fst p)
           (SDuplicate 1 (snapshot sample_label sample_label sample_label
                            (set_dup (sample_record 1 Done (Some 42)) 1 1000 2)))).
  - vm_compute. reflexivity.
  - subst p. vm_compute. reflexivity.
Defined.

Lemma view_invoice_after_scan_witness :
  let p := process_qr_scan sample_fetch_ok sample_acct_ok sample_label sample_label sample_label
             sample_label sample_url None (sample_env []) in
  action_view_invoice 2 (fst p) = (fst p, Ok (invoice_action 42)).
Proof.
  intro p.
  apply (view_invoice_after_scan sample_fetch_ok sample_acct_ok sample_label sample_label
           sample_label sample_label (sample_env []) sample_url None (fst p) (SSuccess 2 42)).
  - vm_compute. reflexivity.
  - subst p. vm_compute. reflexivity.
Defined.

Lemma find_rec_map h j rs :
  (forall r, rec_id (h r) = rec_id r) -> find_rec j (map h rs) = option_map h (find_rec j rs).
Proof.
  unfold find_rec. intro Hh. induction rs as [|x rs IH]; simpl; [reflexivity|].
  rewrite Hh. destruct (rec_id x =? j); [reflexivity|exact IH].
Qed.

Lemma set_state_id r s : rec_id (set_state r s) = rec_id r.
Proof. reflexivity. Qed.

Lemma set_state_twice r s s' : set_state (set_state r s) s' = set_state r s'.
Proof. reflexivity. Qed.

Lemma set_state_same r : set_state r (state r) = r.
Proof. destruct r; reflexivity. Qed.

Lemma menv_eta me : mk_menv (base me) (processed me) = me.
Proof. destruct me; reflexivity. Qed.

Lemma env_eta en : with_db en (db en) (next_id en) = en.
Proof. destruct en; reflexivity. Qed.

Lemma proc_of_clear j i p : proc_of j (proc_clear i p) = if i =? j then None else proc_of j p.
Proof.
  unfold proc_of, proc_clear. induction p as [|[k v] p IH]; cbn [filter find fst snd].
  - destruct (i =? j); reflexivity.
  - destruct (k =? i) eqn:E; cbn [negb filter find fst].
    + apply Nat.eqb_eq in E. subst k. rewrite IH. destruct (i =? j); reflexivity.
    + destruct (k =? j) eqn:E'.
      * apply Nat.eqb_eq in E'. subst k. rewrite Nat.eqb_sym, E. reflexivity.
      * exact IH.
Qed.

Lemma proc_of_put j i v p : proc_of j (proc_put i v p) = if i =? j then v else proc_of j p.
Proof.
  destruct v as [uv|]; simpl.
  - pose proof (proc_of_clear j i p) as H. unfold proc_of in H |- *. simpl.
    destruct (i =? j) eqn:E; [reflexivity|]. exact H.
  - rewrite proc_of_clear. destruct (i =? j); reflexivity.
Qed.

Lemma write_marked_eq i s v me :
  write_marked i s v me
  = (mk_menv (with_db (base me) (map (fun r => if rec_id r =? i then set_state r s else r)
                                      (db (base me))) (next_id (base me)))
             (proc_put i v (processed me)), Ok tt).
Proof. reflexivity. Qed.

Lemma write_marked_all_eq l s v me :
  write_marked_all l s v me
  = (mk_menv (with_db (base me) (map (fun r => if existsb (Nat.eqb (rec_id r)) l then set_state r s else r)
                                      (db (base me))) (next_id (base me)))
             (fold_left (fun p i => proc_put i v p) l (processed me)), Ok tt).
Proof.
  revert me. induction l as [|i l IH]; intro me.
  - simpl. rewrite map_id, env_eta, menv_eta. reflexivity.
  - cbn [write_marked_all]. unfold mbind. rewrite write_marked_eq, IH.
    unfold with_db. cbn [base processed db next_id now company uid ledger fold_left].
    do 3 f_equal. rewrite map_map. apply map_ext. intro r. cbn [existsb].
    destruct (rec_id r =? i) eqn:E; cbn [orb].
    + rewrite set_state_id. destruct (existsb (Nat.eqb (rec_id r)) l); reflexivity.
    + reflexivity.
Qed.

Lemma filtered_state_eq s ids en :
  forallb (fun i => match find_rec i (db en) with Some _ => true | None => false end) ids = true ->
  filtered_state s ids en
  = (en, Ok (filter (fun i => match find_rec i (db en) with
                              | Some r => scan_state_eqb (state r) s | None => false end) ids)).
Proof.
  induction ids as [|i ids IH]; simpl; intro H; [reflexivity|].
  apply andb_true_iff in H as [H1 H2].
  unfold sbind, read_rec. destruct (find_rec i (db en)) as [r|]; [|discriminate].
  cbv beta iota. rewrite (IH H2). unfold sret.
  destruct (scan_state_eqb (state r) s); reflexivity.
Qed.

Lemma filter_all {A} (f : A -> bool) l : (forall x, In x l -> f x = true) -> filter f l = l.
Proof.
  induction l as [|x l IH]; simpl; intro H; [reflexivity|].
  rewrite (H x (or_introl eq_refl)), IH; auto.
Qed.

Lemma filter_filter' {A} (f g : A -> bool) l :
  filter f (filter g l) = filter (fun x => g x && f x) l.
Proof.
  induction l as [|x l IH]; simpl; [reflexivity|].
  destruct (g x); simpl; [destruct (f x)|]; simpl; rewrite ?IH; reflexivity.
Qed.

Lemma existsb_filter_eqb j (P : nat -> bool) l :
  existsb (Nat.eqb j) (filter P l) = existsb (Nat.eqb j) l && P j.
Proof.
  induction l as [|i l IH]; simpl; [reflexivity|].
  destruct (P i) eqn:Pi; simpl; rewrite IH;
  destruct (j =? i) eqn:E; simpl; try reflexivity.
  - apply Nat.eqb_eq in E. subst. rewrite Pi. destruct (existsb (Nat.eqb i) l); reflexivity.
  - apply Nat.eqb_eq in E. subst. rewrite Pi. apply andb_false_r.
Qed.

Lemma fold_put_none l p :
  fold_left (fun p i => proc_put i None p) l p
  = filter (fun e => negb (existsb (Nat.eqb (fst e)) l)) p.
Proof.
  revert p. induction l as [|i l IH]; intro p; simpl.
  - symmetry. apply filter_all. reflexivity.
  - rewrite IH. unfold proc_clear. rewrite filter_filter'. apply filter_ext.
    intros [k v]; simpl. destruct (k =? i); destruct (existsb (Nat.eqb k) l); reflexivity.
Qed.

Lemma filter_notin_put S l uv p :
  (forall i, In i l -> existsb (Nat.eqb i) S = true) ->
  filter (fun e => negb (existsb (Nat.eqb (fst e)) S)) (fold_left (fun p i => proc_put i (Some uv) p) l p)
  = filter (fun e => negb (existsb (Nat.eqb (fst e)) S)) p.
Proof.
  revert p. induction l as [|i l IH]; intros p H; simpl; [reflexivity|].
  rewrite IH by (intros; apply H; right; assumption).
  cbn [filter fst]. rewrite (H i (or_introl eq_refl)). cbn [negb].
  unfold proc_clear. rewrite filter_filter'. apply filter_ext.
  intros [k v]; simpl. destruct (k =? i) eqn:E; simpl; [|reflexivity].
  apply Nat.eqb_eq in E. subst k. rewrite (H i (or_introl eq_refl)). reflexivity.
Qed.

Lemma proc_of_none_notin i p : proc_of i p = None -> forall e, In e p -> fst e <> i.
Proof.
  unfold proc_of. intros H e He Hi.
  destruct (find (fun e => fst e =? i) p) eqn:F; [discriminate|].
  pose proof (List.find_none _ _ F e He) as Hf. simpl in Hf. subst i.
  rewrite Nat.eqb_refl in Hf. discriminate.
Qed.

Lemma proc_of_fold_put j l v p :
  proc_of j (fold_left (fun p i => proc_put i v p) l p)
  = if existsb (Nat.eqb j) l then v else proc_of j p.
Proof.
  revert p. induction l as [|i l IH]; intro p; simpl; [reflexivity|].
  rewrite IH, proc_of_put. rewrite (Nat.eqb_sym i j).
  destruct (j =? i), (existsb (Nat.eqb j) l); reflexivity.
Qed.

Lemma filter_false_nil {A} (f : A -> bool) l :
  (forall x, In x l -> f x = false) -> filter f l = [].
Proof.
  induction l as [|x l IH]; simpl; intro H; [reflexivity|].
  rewrite (H x (or_introl eq_refl)). apply IH; auto.
Qed.

(** [action_mark_processed] on a selection of existing rows none of which
    is [done] raises its [UserError] and changes nothing *)
Theorem action_mark_processed_refuses ids me :
  forallb (fun i => match find_rec i (db (base me)) with
                    | Some r => negb (scan_state_eqb (state r) Done) | None => false end) ids = true ->
  action_mark_processed ids me = (me, Raise (UserError mark_processed_refused)).
Proof.
  intro H. unfold action_mark_processed, mbind, lift.
  rewrite filtered_state_eq.
  - rewrite filter_false_nil; [rewrite menv_eta; reflexivity|].
    intros i Hi. eapply forallb_forall in H; [|exact Hi].
    destruct (find_rec i (db (base me))); [|discriminate].
    destruct (scan_state_eqb (state s) Done); [discriminate|reflexivity].
  - apply forallb_forall. intros i Hi. eapply forallb_forall in H; [|exact Hi].
    destruct (find_rec i (db (base me))); [reflexivity|discriminate].
Qed.

(** [action_mark_processed] on a selection of existing rows, one of them
    [done] at least, succeeds; it moves exactly the selected [done] rows to
    [processed], stamps them with the current user and time, and leaves
    every other row and stamp as it was *)
Theorem action_mark_processed_marks_done ids me :
  forallb (fun i => match find_rec i (db (base me)) with Some _ => true | None => false end) ids = true ->
  existsb (fun i => match find_rec i (db (base me)) with
                    | Some r => scan_state_eqb (state r) Done | None => false end) ids = true ->
  exists me',
    action_mark_processed ids me = (me', Ok true) /\
    forall j,
      let chosen := existsb (Nat.eqb j) ids
                    && match find_rec j (db (base me)) with
                       | Some r => scan_state_eqb (state r) Done | None => false end in
      find_rec j (db (base me'))
        = (if chosen then option_map (fun r => set_state r Processed) (find_rec j (db (base me)))
           else find_rec j (db (base me))) /\
      proc_of j (processed me')
        = (if chosen then Some (uid (base me), now (base me)) else proc_of j (processed me)).
Proof.
  intros Hall Hex. unfold action_mark_processed, mbind at 1, lift at 1.
  rewrite (filtered_state_eq _ _ _ Hall). cbv beta iota. rewrite menv_eta.
  set (P := fun i => match find_rec i (db (base me)) with
                     | Some r => scan_state_eqb (state r) Done | None => false end).
  destruct (filter P ids) as [|i0 l0] eqn:F.
  - exfalso. apply existsb_exists in Hex as [i [Hi Pi]].
    assert (In i (filter P ids)) by (apply filter_In; auto). rewrite F in H. destruct H.
  - unfold mbind, mget. rewrite write_marked_all_eq. unfold mret.
    eexists. split; [reflexivity|]. intro j. cbn [base processed db].
    rewrite <- F. split.
    + unfold with_db; cbn [db]. rewrite find_rec_map by (intro r; destruct (existsb (Nat.eqb (rec_id r)) (filter P ids)); reflexivity).
      fold P. destruct (find_rec j (db (base me))) as [r|] eqn:Fr;
        [|simpl; destruct (existsb (Nat.eqb j) ids); reflexivity].
      assert (rec_id r = j) as Hr.
      { unfold find_rec in Fr. apply find_some in Fr as [_ Fr]. apply Nat.eqb_eq. exact Fr. }
      simpl. rewrite Hr, existsb_filter_eqb.
      replace (P j) with (scan_state_eqb (state r) Done) by (unfold P; rewrite Fr; reflexivity).
      destruct (existsb (Nat.eqb j) ids && scan_state_eqb (state r) Done); reflexivity.
    + rewrite proc_of_fold_put, existsb_filter_eqb. reflexivity.
Qed.

Lemma find_rec_id j rs r : find_rec j rs = Some r -> rec_id r = j.
Proof.
  unfold find_rec. intro F. apply find_some in F as [_ F]. apply Nat.eqb_eq. exact F.
Qed.

(** on well-formed data, [action_mark_processed] followed by
    [action_mark_unprocessed] on the same selection of [done] rows that
    carry no processing stamp gives back the data exactly as before *)
Theorem action_mark_round_trip ids me :
  wf (base me) = true ->
  0 < List.length ids ->
  forallb (fun i => match find_rec i (db (base me)) with
                    | Some r => scan_state_eqb (state r) Done | None => false end) ids = true ->
  forallb (fun i => match proc_of i (processed me) with None => true | Some _ => false end) ids = true ->
  exists me1,
    action_mark_processed ids me = (me1, Ok true) /\
    action_mark_unprocessed ids me1 = (me, Ok true).
Proof.
  intros Hwf Hlen Hdone Hproc.
  destruct (wf_spec _ Hwf) as [Hnd _].
  assert (Hfind : forall i, In i ids -> exists r, find_rec i (db (base me)) = Some r /\ state r = Done).
  { intros i Hi. eapply forallb_forall in Hdone; [|exact Hi].
    destruct (find_rec i (db (base me))) as [r|]; [|discriminate].
    exists r. split; [reflexivity|]. destruct (state r); first [reflexivity | discriminate]. }
  assert (Hall : forallb (fun i => match find_rec i (db (base me)) with Some _ => true | None => false end) ids = true).
  { apply forallb_forall. intros i Hi. destruct (Hfind i Hi) as [r [-> _]]. reflexivity. }
  set (G1 := fun r => if existsb (Nat.eqb (rec_id r)) ids then set_state r Processed else r).
  assert (HG1 : forall r, rec_id (G1 r) = rec_id r).
  { intro r. unfold G1. destruct (existsb (Nat.eqb (rec_id r)) ids); reflexivity. }
  set (me1 := mk_menv (with_db (base me) (map G1 (db (base me))) (next_id (base me)))
                      (fold_left (fun p i => proc_put i (Some (uid (base me), now (base me))) p) ids (processed me))).
  exists me1. split.
  - unfold action_mark_processed, mbind at 1, lift at 1.
    rewrite (filtered_state_eq _ _ _ Hall). cbv beta iota. rewrite menv_eta.
    rewrite filter_all.
    2:{ intros i Hi. destruct (Hfind i Hi) as [r [-> Hs]]. rewrite Hs. reflexivity. }
    destruct ids as [|i0 l0]; [simpl in Hlen; lia|].
    unfold mbind, mget. rewrite write_marked_all_eq. reflexivity.
  - assert (Hin1 : forall i, In i ids ->
              exists r, find_rec i (db (base me1)) = Some (set_state r Processed)).
    { intros i Hi. destruct (Hfind i Hi) as [r [Fr Hs]]. exists r.
      unfold me1, with_db. cbn [base db]. rewrite find_rec_map by exact HG1. rewrite Fr. simpl.
      unfold G1. rewrite (find_rec_id _ _ _ Fr).
      replace (existsb (Nat.eqb i) ids) with true; [reflexivity|].
      symmetry. apply existsb_exists. exists i. split; [exact Hi|apply Nat.eqb_refl]. }
    assert (Hall1 : forallb (fun i => match find_rec i (db (base me1)) with Some _ => true | None => false end) ids = true).
    { apply forallb_forall. intros i Hi. destruct (Hin1 i Hi) as [r ->]. reflexivity. }
    unfold action_mark_unprocessed, mbind at 1, lift at 1.
    rewrite (filtered_state_eq _ _ _ Hall1). cbv beta iota. rewrite menv_eta.
    rewrite filter_all.
    2:{ intros i Hi. destruct (Hin1 i Hi) as [r ->]. reflexivity. }
    destruct ids as [|i0 l0] eqn:Eids; [simpl in Hlen; lia|].
    rewrite <- Eids in *.
    unfold mbind. rewrite write_marked_all_eq. unfold mret.
    unfold me1, with_db. cbn [base processed db next_id now company uid ledger].
    f_equal. rewrite <- menv_eta. f_equal.
    + rewrite <- env_eta. unfold with_db. f_equal.
      rewrite map_map. rewrite <- (map_id (db (base me))) at 2. apply map_ext_in.
      intros r Hr. rewrite HG1. unfold G1. rewrite <- ?Eids.
      destruct (existsb (Nat.eqb (rec_id r)) ids) eqn:E; [|reflexivity].
      apply existsb_exists in E as [i [Hi Ei]]. apply Nat.eqb_eq in Ei.
      destruct (Hfind i Hi) as [r' [Fr' Hs]].
      rewrite (find_rec_in i _ r Hnd Hr Ei) in Fr'. injection Fr' as <-.
      rewrite set_state_twice, <- Hs. apply set_state_same.
    + rewrite fold_put_none, filter_notin_put.
      * apply filter_all. intros [k v] Hkv. cbn [fst].
        destruct (existsb (Nat.eqb k) ids) eqn:E; [|reflexivity].
        apply existsb_exists in E as [i [Hi Ei]]. apply Nat.eqb_eq in Ei. subst k.
        eapply forallb_forall in Hproc; [|exact Hi].
        destruct (proc_of i (processed me)) eqn:Pi; [discriminate|].
        exfalso. apply (proc_of_none_notin _ _ Pi _ Hkv). reflexivity.
      * intros i Hi. rewrite <- Eids in Hi. apply existsb_exists. exists i. split; [exact Hi|apply Nat.eqb_refl].
Qed.

Lemma proc_clear_none i p : proc_of i p = None -> proc_clear i p = p.
Proof.
  intro H. apply filter_all. intros e He.
  pose proof (proc_of_none_notin i p H e He) as Hn.
  destruct (fst e =? i) eqn:E; [apply Nat.eqb_eq in E; contradiction|reflexivity].
Qed.

Lemma proc_clear_idem i p : proc_clear i (proc_clear i p) = proc_clear i p.
Proof.
  unfold proc_clear. rewrite filter_filter'. apply filter_ext. intro e.
  destruct (fst e =? i); reflexivity.
Qed.

Lemma map_set_state_back i rs r s :
  NoDup (map rec_id rs) -> find_rec i rs = Some r ->
  map (fun x => if rec_id x =? i then set_state x (state r) else x)
      (map (fun x => if rec_id x =? i then set_state x s else x) rs) = rs.
Proof.
  intros Hnd Fr. rewrite map_map. rewrite <- (map_id rs) at 2. apply map_ext_in.
  intros x Hx. destruct (rec_id x =? i) eqn:E; [|rewrite E; reflexivity].
  rewrite set_state_id, E, set_state_twice. apply Nat.eqb_eq in E.
  rewrite (find_rec_in i rs x Hnd Hx E) in Fr. injection Fr as ->.
  apply set_state_same.
Qed.

(** on well-formed data, the [mark-processed] endpoint on a [done] row
    without stamp answers with the row in state [processed] stamped with
    the caller and the current time; a second call is refused with
    [INVALID_STATE] and changes nothing; [mark-unprocessed] then gives back
    the data exactly as before and answers with the original row *)
Theorem api_mark_round_trip id user user' me r :
  wf (base me) = true ->
  find_rec id (db (base me)) = Some r ->
  state r = Done ->
  proc_of id (processed me) = None ->
  exists me1,
    mark_processed id user me
      = (me1, Ok (MarkOk (set_state r Processed) (Some (user, now (base me))))) /\
    mark_processed id user' me1 = (me1, Ok (MarkInvalidState Processed)) /\
    mark_unprocessed id user' me1 = (me, Ok (MarkOk r None)).
Proof.
  intros Hwf Fr Hs Hp.
  destruct (wf_spec _ Hwf) as [Hnd _].
  set (rs1 := map (fun x => if rec_id x =? id then set_state x Processed else x) (db (base me))).
  assert (F1 : find_rec id rs1 = Some (set_state r Processed)).
  { unfold rs1. rewrite find_rec_update by (intro; reflexivity). rewrite Fr. reflexivity. }
  exists (mk_menv (with_db (base me) rs1 (next_id (base me)))
                  (proc_put id (Some (user, now (base me))) (processed me))).
  split; [|split].
  - unfold mark_processed, mbind, mget, mret, lift, read_rec.
    rewrite Fr, Hs. cbn [scan_state_eqb negb]. rewrite write_marked_eq.
    cbn [base processed]. fold rs1. unfold with_db at 1. cbn [db]. rewrite F1.
    cbn [base processed]. rewrite proc_of_put, Nat.eqb_refl. reflexivity.
  - unfold mark_processed, mbind, mget, mret. cbn [base]. unfold with_db at 1. cbn [db].
    rewrite F1. reflexivity.
  - unfold mark_unprocessed, mbind, mget, mret, lift, read_rec. cbn [base processed].
    unfold with_db at 1. cbn [db]. rewrite F1. cbn [state set_state scan_state_eqb negb].
    rewrite write_marked_eq. cbn [base processed]. unfold with_db. cbn [db next_id now company uid ledger].
    unfold rs1. rewrite <- Hs, (map_set_state_back id _ r Processed Hnd Fr), Fr.
    simpl. rewrite proc_clear_idem, proc_clear_none by exact Hp.
    rewrite Nat.eqb_refl. cbn [negb]. rewrite Hp. destruct me as [[] ?]. reflexivity.
Qed.

Lemma action_mark_processed_refuses_witness :
  action_mark_processed [1] (mk_menv (sample_env [sample_record 1 Error None]) [])
  = (mk_menv (sample_env [sample_record 1 Error None]) [], Raise (UserError mark_processed_refused)).
Proof. apply action_mark_processed_refuses. vm_compute. reflexivity. Defined.

Lemma action_mark_processed_marks_done_witness :
  exists me',
    action_mark_processed [1] (mk_menv (sample_env [sample_record 1 Done (Some 42)]) []) = (me', Ok true) /\
    find_rec 1 (db (base me')) = Some (set_state (sample_record 1 Done (Some 42)) Processed) /\
    proc_of 1 (processed me') = Some (2, 1000).
Proof.
  destruct (action_mark_processed_marks_done [1] (mk_menv (sample_env [sample_record 1 Done (Some 42)]) []))
    as (me' & H1 & H2); [vm_compute; reflexivity | vm_compute; reflexivity |].
  exists me'. split; [exact H1|]. destruct (H2 1) as [A B].
  split; [rewrite A | rewrite B]; vm_compute; reflexivity.
Defined.

Lemma action_mark_round_trip_witness :
  exists me1,
    action_mark_processed [1] (mk_menv (sample_env [sample_record 1 Done (Some 42)]) []) = (me1, Ok true) /\
    action_mark_unprocessed [1] me1 = (mk_menv (sample_env [sample_record 1 Done (Some 42)]) [], Ok true).
Proof.
  apply action_mark_round_trip; [vm_compute; reflexivity | simpl; lia | vm_compute; reflexivity | vm_compute; reflexivity].
Defined.

Lemma api_mark_round_trip_witness :
  exists me1,
    mark_processed 1 7 (mk_menv (sample_env [sample_record 1 Done (Some 42)]) [])
      = (me1, Ok (MarkOk (set_state (sample_record 1 Done (Some 42)) Processed) (Some (7, 1000)))) /\
    mark_processed 1 8 me1 = (me1, Ok (MarkInvalidState Processed)) /\
    mark_unprocessed 1 8 me1 = (mk_menv (sample_env [sample_record 1 Done (Some 42)]) [],
                                Ok (MarkOk (sample_record 1 Done (Some 42)) None)).
Proof.
  apply (api_mark_round_trip 1 7 8 (mk_menv (sample_env [sample_record 1 Done (Some 42)]) [])
           (sample_record 1 Done (Some 42)));
    [vm_compute; reflexivity | reflexivity | reflexivity | reflexivity].
Defined.

Lemma insert_by_perm key x l : Permutation (insert_by key x l) (x :: l).
Proof.
  induction l as [|y l IH]; simpl; [reflexivity|].
  destruct (key x <=? key y); [reflexivity|].
  rewrite IH. apply perm_swap.
Qed.

Lemma sort_by_perm key l : Permutation (sort_by key l) l.
Proof.
  unfold sort_by. induction l as [|x l IH]; simpl; [reflexivity|].
  rewrite insert_by_perm, IH. reflexivity.
Qed.

Lemma search_asc_length dom lim rs :
  List.length (search_asc dom lim rs) = Nat.min (Z.to_nat lim) (List.length (filter dom rs)).
Proof.
  unfold search_asc. rewrite length_firstn, (Permutation_length (sort_by_perm _ _)). reflexivity.
Qed.

Lemma in_firstn' {A} n (l : list A) x : In x (firstn n l) -> In x l.
Proof.
  intro H. rewrite <- (firstn_skipn n l). apply in_or_app. left. exact H.
Qed.

Lemma search_asc_in dom lim rs r : In r (search_asc dom lim rs) -> In r rs /\ dom r = true.
Proof.
  unfold search_asc. intro H. apply in_firstn' in H.
  apply (Permutation_in _ (sort_by_perm _ _)) in H. apply filter_In in H. exact H.
Qed.

Lemma search_asc_all dom lim rs r :
  List.length (filter dom rs) <= Z.to_nat lim -> In r rs -> dom r = true -> In r (search_asc dom lim rs).
Proof.
  unfold search_asc. intros Hl Hr Hd. rewrite firstn_all2.
  - apply (Permutation_in _ (Permutation_sym (sort_by_perm _ _))). apply filter_In. auto.
  - rewrite (Permutation_length (sort_by_perm _ _)). exact Hl.
Qed.

Lemma bulk_mark_loop_eq user t rs me :
  bulk_mark_loop user t rs me
  = (fst (write_marked_all (map rec_id rs) Processed (Some (user, t)) me),
     Ok (map (fun r => mk_entry (rec_id r) (reference r) true None None) rs)).
Proof.
  revert me. induction rs as [|r rs IH]; intro me; [reflexivity|].
  cbn [bulk_mark_loop map write_marked_all]. unfold mtry, mbind, mret.
  rewrite write_marked_eq. cbv beta iota.
  rewrite IH. reflexivity.
Qed.

Lemma summarize_all_ok rs :
  summarize (map (fun r => mk_entry (rec_id r) (reference r) true None None) rs)
  = mk_summary (Z.of_nat (List.length rs)) (Z.of_nat (List.length rs)) 0.
Proof.
  unfold summarize. rewrite filter_all by (intros x Hx; apply in_map_iff in Hx as [r [<- _]]; reflexivity).
  rewrite length_map. f_equal. lia.
Qed.

Lemma find_rec_exists r rs : In r rs -> exists r', find_rec (rec_id r) rs = Some r'.
Proof.
  intro H. destruct (find_rec (rec_id r) rs) as [r'|] eqn:F; [eauto|].
  unfold find_rec in F. pose proof (List.find_none _ _ F r H) as Hr. simpl in Hr.
  rewrite Nat.eqb_refl in Hr. discriminate.
Qed.

Lemma bulk_mark_processed_eq record_ids m user me :
  let records := search_asc (bulk_mark_domain (base me) record_ids) (clamp 1 200 m) (db (base me)) in
  let results := map (fun r => mk_entry (rec_id r) (reference r) true None None) records in
  bulk_mark_processed record_ids m user me
  = (mk_menv (with_db (base me)
                (map (fun r => if existsb (Nat.eqb (rec_id r)) (map rec_id records)
                               then set_state r Processed else r) (db (base me)))
                (next_id (base me)))
             (fold_left (fun p i => proc_put i (Some (user, now (base me))) p)
                (map rec_id records) (processed me)),
     Ok (results, summarize results)).
Proof.
  intros records results. unfold bulk_mark_processed, mbind, mget.
  rewrite bulk_mark_loop_eq, write_marked_all_eq. reflexivity.
Qed.

(** [bulk_mark_processed] reports every row it handles as a success: it
    handles [min(max_records clamped to 1..200, eligible rows)] rows, its
    summary is [failed = 0] and [successful = total_processed], and each
    reported row is now [processed] and stamped with the caller and the
    current time *)
Theorem bulk_mark_processed_reports record_ids m user me :
  exists me' results,
    bulk_mark_processed record_ids m user me = (me', Ok (results, summarize results)) /\
    List.length results
      = Nat.min (Z.to_nat (clamp 1 200 m))
                (List.length (filter (bulk_mark_domain (base me) record_ids) (db (base me)))) /\
    summarize results
      = mk_summary (Z.of_nat (List.length results)) (Z.of_nat (List.length results)) 0 /\
    forall e, In e results ->
      entry_success e = true /\
      proc_of (entry_id e) (processed me') = Some (user, now (base me)) /\
      exists r, find_rec (entry_id e) (db (base me')) = Some r /\ state r = Processed.
Proof.
  pose proof (bulk_mark_processed_eq record_ids m user me) as E. cbv zeta in E.
  rewrite E. eexists. eexists. split; [reflexivity|].
  split; [rewrite length_map; apply search_asc_length|].
  split; [rewrite summarize_all_ok, length_map; reflexivity|].
  intros e He. apply in_map_iff in He as [r0 [<- Hr0]]. cbn [entry_success entry_id].
  assert (Hsel : existsb (Nat.eqb (rec_id r0))
                   (map rec_id (search_asc (bulk_mark_domain (base me) record_ids) (clamp 1 200 m) (db (base me))))
                 = true).
  { apply existsb_exists. exists (rec_id r0). split; [apply in_map; exact Hr0|apply Nat.eqb_refl]. }
  split; [reflexivity|]. split.
  - cbn [processed]. rewrite proc_of_fold_put, Hsel. reflexivity.
  - apply search_asc_in in Hr0 as [Hin _].
    destruct (find_rec_exists r0 _ Hin) as [r1 F1].
    exists (set_state r1 Processed). split; [|reflexivity].
    unfold with_db. cbn [base db]. rewrite find_rec_map, F1.
    + simpl. rewrite (find_rec_id _ _ _ F1), Hsel. reflexivity.
    + intro r. destruct (existsb (Nat.eqb (rec_id r)) _); reflexivity.
Qed.

(** when the eligible rows fit in [max_records] (clamped to 1..200),
    [bulk_mark_processed] leaves no eligible row: no row of the company in
    the selection is [done] any more *)
Theorem bulk_mark_processed_clears record_ids m user me :
  List.length (filter (bulk_mark_domain (base me) record_ids) (db (base me)))
    <= Z.to_nat (clamp 1 200 m) ->
  exists me' results,
    bulk_mark_processed record_ids m user me = (me', Ok (results, summarize results)) /\
    filter (bulk_mark_domain (base me') record_ids) (db (base me')) = [].
Proof.
  intro Hfit.
  pose proof (bulk_mark_processed_eq record_ids m user me) as E. cbv zeta in E.
  rewrite E. eexists. eexists. split; [reflexivity|].
  unfold with_db. cbn [base db]. apply filter_false_nil. intros x Hx.
  apply in_map_iff in Hx as [r [<- Hr]].
  destruct (bulk_mark_domain (base me) record_ids r) eqn:D.
  - replace (existsb _ _) with true.
    + unfold bulk_mark_domain. cbn [state set_state scan_state_eqb]. apply andb_false_intro1, andb_false_r.
    + symmetry. apply existsb_exists. exists (rec_id r). split; [|apply Nat.eqb_refl].
      apply in_map. apply search_asc_all; assumption.
  - destruct (existsb _ _).
    + unfold bulk_mark_domain. cbn [state set_state scan_state_eqb]. apply andb_false_intro1, andb_false_r.
    + exact D.
Qed.

Lemma find_rec_upd j i F rs :
  (forall x, rec_id (F x) = rec_id x) ->
  find_rec j (map (fun x => if rec_id x =? i then F x else x) rs)
  = if i =? j then option_map F (find_rec j rs) else find_rec j rs.
Proof.
  intro HF. rewrite find_rec_map.
  - destruct (find_rec j rs) as [x|] eqn:Fx; simpl; [|destruct (i =? j); reflexivity].
    rewrite (find_rec_id _ _ _ Fx), Nat.eqb_sym. destruct (i =? j); reflexivity.
  - intro x. destruct (rec_id x =? i); auto.
Qed.

Lemma NoDup_firstn' {A} n (l : list A) : NoDup l -> NoDup (firstn n l).
Proof.
  intro H. rewrite <- (firstn_skipn n l) in H. apply NoDup_app_remove_r in H. exact H.
Qed.

Lemma NoDup_map_filter {A B} (f : A -> B) (p : A -> bool) l :
  NoDup (map f l) -> NoDup (map f (filter p l)).
Proof.
  induction l as [|x l IH]; simpl; intro H; [constructor|].
  inversion H as [|? ? Hx Hl]; subst. destruct (p x); simpl; [|auto].
  constructor; [|auto]. intro Hin. apply Hx. apply in_map_iff in Hin as [y [<- Hy]].
  apply filter_In in Hy as [Hy _]. apply in_map. exact Hy.
Qed.

Lemma search_asc_nodup dom lim rs :
  NoDup (map rec_id rs) -> NoDup (map rec_id (search_asc dom lim rs)).
Proof.
  intro H. unfold search_asc. rewrite <- firstn_map. apply NoDup_firstn'.
  apply (Permutation_NoDup (Permutation_map _ (Permutation_sym (sort_by_perm _ _)))).
  apply NoDup_map_filter. exact H.
Qed.

Section Retry.

Variable acct : scan_record -> list nat -> list nat * res nat.
Hypothesis acct_catchable : forall r lg lg' e, acct r lg = (lg', Raise e) -> is_exception e = true.

Lemma bulk_retry_loop_spec rs en :
  NoDup (map rec_id rs) ->
  (forall r, In r rs -> find_rec (rec_id r) (db en) = Some r /\ state r = Error /\ invoice_id r = None) ->
  exists en' results,
    bulk_retry_loop acct rs en = (en', Ok results) /\
    map entry_id results = map rec_id rs /\
    (forall j, ~ In j (map rec_id rs) -> find_rec j (db en') = find_rec j (db en)) /\
    forall e, In e results ->
      exists r', find_rec (entry_id e) (db en') = Some r' /\
        ((entry_success e = true /\ state r' = Done /\ entry_invoice e = invoice_id r' /\
          invoice_id r' <> None) \/
         (entry_success e = false /\ state r' = Error /\ invoice_id r' = None /\
          exists msg, entry_error e = Some msg /\ error_message r' = VStr (bulk_failed_note ++ msg))).
Proof.
  revert en. induction rs as [|r rs IH]; intros en Hnd Hrs.
  - exists en, []. repeat split; auto. intros e [].
  - inversion Hnd as [|? ? Hr Hnd']; subst.
    destruct (Hrs r (or_introl eq_refl)) as (Fr & Sr & Ir).
    (* the step on [r] *)
    assert (Hstep : exists F e0,
               (forall x, rec_id (F x) = rec_id x) /\
               stry (inv <-- create_invoice acct (rec_id r) ;;;
                     sret (mk_entry (rec_id r) (reference r) true (Some inv) None))
                    (fun e => if is_exception e
                              then Some (_ <-- write_rec (rec_id r)
                                                 (fun x => set_error_message x
                                                             (VStr (bulk_failed_note ++ exc_str e))) ;;;
                                         sret (mk_entry (rec_id r) (reference r) false None
                                                        (Some (exc_str e))))
                              else None) en
               = (with_db (with_ledger en (fst (acct r (ledger en))))
                          (map (fun x => if rec_id x =? rec_id r then F x else x) (db en)) (next_id en),
                  Ok e0) /\
               entry_id e0 = rec_id r /\
               ((entry_success e0 = true /\ state (F r) = Done /\ entry_invoice e0 = invoice_id (F r) /\
                 invoice_id (F r) <> None) \/
                (entry_success e0 = false /\ state (F r) = Error /\ invoice_id (F r) = None /\
                 exists msg, entry_error e0 = Some msg /\ error_message (F r) = VStr (bulk_failed_note ++ msg)))).
    { unfold stry, create_invoice, sbind, read_rec, run_acct, sret, write_rec.
      rewrite Fr, Ir. destruct (acct r (ledger en)) as [lg [inv|e]] eqn:A; cbv beta iota.
      - exists (fun x => set_done x inv), (mk_entry (rec_id r) (reference r) true (Some inv) None).
        split; [reflexivity|]. split; [reflexivity|]. split; [reflexivity|].
        left. repeat split; discriminate.
      - rewrite (acct_catchable _ _ _ _ A).
        exists (fun x => set_error_message x (VStr (bulk_failed_note ++ exc_str e))),
               (mk_entry (rec_id r) (reference r) false None (Some (exc_str e))).
        split; [reflexivity|]. split; [reflexivity|]. split; [reflexivity|].
        right. cbn. repeat split; auto. exists (exc_str e). split; reflexivity. }
    destruct Hstep as (F & e0 & HF & Hst & Hid & Hout).
    set (en1 := with_db (with_ledger en (fst (acct r (ledger en))))
                        (map (fun x => if rec_id x =? rec_id r then F x else x) (db en)) (next_id en)).
    assert (Hdb1 : forall j, find_rec j (db en1)
                             = if rec_id r =? j then option_map F (find_rec j (db en)) else find_rec j (db en)).
    { intro j. unfold en1, with_db. cbn [db]. apply find_rec_upd. exact HF. }
    destruct (IH en1 Hnd') as (en' & results & Hl & Hids & Hsame & Hres).
    { intros r' Hr'. destruct (Hrs r' (or_intror Hr')) as (F' & S' & I').
      rewrite Hdb1. destruct (rec_id r =? rec_id r') eqn:E; [|auto].
      apply Nat.eqb_eq in E. exfalso. apply Hr. rewrite E. apply in_map. exact Hr'. }
    exists en', (e0 :: results). split; [|split; [|split]].
    + cbn [bulk_retry_loop]. unfold sbind at 1. rewrite Hst. fold en1.
      unfold sbind. rewrite Hl. reflexivity.
    + simpl. rewrite Hid, Hids. reflexivity.
    + intros j Hj. rewrite Hsame by (intro; apply Hj; right; assumption).
      rewrite Hdb1. destruct (rec_id r =? j) eqn:E; [|reflexivity].
      apply Nat.eqb_eq in E. exfalso. apply Hj. left. exact E.
    + intros e [<-|He]; [|apply Hres; exact He].
      exists (F r). split; [|exact Hout].
      rewrite Hid, Hsame by exact Hr. rewrite Hdb1, Nat.eqb_refl, Fr. reflexivity.
Qed.

End Retry.

(** on well-formed data, and when the accounting steps raise only
    exceptions that [except Exception] catches, [bulk_retry_errors]
    answers normally; it handles [min(max_records clamped to 1..50,
    eligible rows)] rows, one entry each, and every entry tells the truth
    about its row: a success names the invoice the row now has in state
    [done], a failure leaves the row in [error] without invoice, its
    message prefixed with the bulk-retry note *)
Theorem bulk_retry_errors_outcome acct record_ids m en :
  wf en = true ->
  (forall r lg lg' e, acct r lg = (lg', Raise e) -> is_exception e = true) ->
  exists en' results,
    bulk_retry_errors acct record_ids m en = (en', Ok (results, summarize results)) /\
    List.length results
      = Nat.min (Z.to_nat (clamp 1 50 m)) (List.length (filter (bulk_retry_domain en record_ids) (db en))) /\
    NoDup (map entry_id results) /\
    forall e, In e results ->
      exists r', find_rec (entry_id e) (db en') = Some r' /\
        ((entry_success e = true /\ state r' = Done /\ entry_invoice e = invoice_id r' /\
          invoice_id r' <> None) \/
         (entry_success e = false /\ state r' = Error /\ invoice_id r' = None /\
          exists msg, entry_error e = Some msg /\ error_message r' = VStr (bulk_failed_note ++ msg))).
Proof.
  intros Hwf Hacct. destruct (wf_spec _ Hwf) as [Hnd _].
  set (records := search_asc (bulk_retry_domain en record_ids) (clamp 1 50 m) (db en)).
  destruct (bulk_retry_loop_spec acct Hacct records en) as (en' & results & Hl & Hids & _ & Hres).
  - apply search_asc_nodup. exact Hnd.
  - intros r Hr. apply search_asc_in in Hr as [Hin Hd].
    unfold bulk_retry_domain in Hd. apply andb_true_iff in Hd as [Hd _].
    apply andb_true_iff in Hd as [Hd Hinv]. apply andb_true_iff in Hd as [_ Hs].
    split; [apply find_rec_in; auto|]. split.
    + destruct (state r); first [reflexivity | discriminate].
    + destruct (invoice_id r); [discriminate|reflexivity].
  - exists en', results. split; [|split; [|split]].
    + unfold bulk_retry_errors, sbind, sget. fold records. rewrite Hl. reflexivity.
    + rewrite <- (length_map entry_id), Hids, length_map. apply search_asc_length.
    + rewrite Hids. apply search_asc_nodup. exact Hnd.
    + exact Hres.
Qed.

Lemma bulk_mark_processed_clears_witness :
  exists me' results,
    bulk_mark_processed [] 50 7 (mk_menv (sample_env [sample_record 1 Done (Some 42)]) [])
      = (me', Ok (results, summarize results)) /\
    filter (bulk_mark_domain (base me') []) (db (base me')) = [].
Proof. apply bulk_mark_processed_clears. vm_compute. lia. Defined.

Lemma bulk_retry_errors_outcome_witness :
  exists en' results,
    bulk_retry_errors sample_acct_fail [] 10 (sample_env [sample_record 1 Error None])
      = (en', Ok (results, summarize results)) /\
    List.length results = 1.
Proof.
  destruct (bulk_retry_errors_outcome sample_acct_fail [] 10 (sample_env [sample_record 1 Error None]))
    as (en' & results & H1 & H2 & _).
  - vm_compute. reflexivity.
  - intros r lg lg' e H. unfold sample_acct_fail in H. injection H as _ <-. reflexivity.
  - exists en', results. split; [exact H1|]. rewrite H2. vm_compute. reflexivity.
Defined.

Lemma find_map' {A B} (p : B -> bool) (g : A -> B) l :
  find p (map g l) = option_map g (find (fun x => p (g x)) l).
Proof.
  induction l as [|x l IH]; simpl; [reflexivity|]. destruct (p (g x)); [reflexivity|exact IH].
Qed.

Lemma find_ext' {A} (p q : A -> bool) l : (forall x, p x = q x) -> find p l = find q l.
Proof.
  intro H. induction l as [|x l IH]; simpl; [reflexivity|]. rewrite H. destruct (q x); auto.
Qed.

Lemma check_duplicate_map g en n u :
  (forall r, qr_uuid (g r) = qr_uuid r) -> (forall r, state (g r) = state r) ->
  (forall r, company_id (g r) = company_id r) ->
  check_duplicate (with_db en (map g (db en)) n) u = option_map g (check_duplicate en u).
Proof.
  intros Hu Hs Hc. unfold check_duplicate. cbn [db company with_db].
  rewrite <- map_rev, find_map'. f_equal. apply find_ext'. intro r. rewrite Hu, Hs, Hc. reflexivity.
Qed.

Lemma contains_nonempty h n : n <> [] -> contains h n = true -> h <> [].
Proof. intros Hn H ->. destruct n; [contradiction|discriminate]. Qed.

Lemma dgi_host_nonempty : dgi_host <> [].
Proof. discriminate. Qed.

Lemma strip_length_pos q : contains (strip q) dgi_host = true -> (List.length (strip q) =? 0) = false.
Proof.
  intro H. apply (contains_nonempty _ _ dgi_host_nonempty) in H.
  destruct (strip q); [contradiction|reflexivity].
Qed.

Lemma scan_dup_eq fetch acct seq_ref move_name user_name iso q user en u r :
  wf en = true ->
  contains (strip q) dgi_host = true ->
  extract_uuid_from_url (strip q) = Some u ->
  check_duplicate en u = Some r ->
  scan_qr_code fetch acct seq_ref move_name user_name iso q user en
  = (with_db en (map (fun x => if rec_id x =? rec_id r
                               then set_dup x (S (duplicate_count x)) (now en) (acting en (Some user))
                               else x) (db en)) (next_id en),
     Ok (ScanProcessed (SDuplicate (S (duplicate_count r))
           (snapshot move_name user_name iso
              (set_dup r (S (duplicate_count r)) (now en) (acting en (Some user))))))).
Proof.
  intros Hwf Hc Hu Hd. destruct (wf_spec _ Hwf) as [Hn _].
  destruct (check_duplicate_some _ _ _ Hd) as (Hin & _).
  unfold scan_qr_code. rewrite (strip_length_pos _ Hc), Hc. cbn [negb].
  unfold process_qr_scan. rewrite Hu.
  unfold sbind, sget, write_rec, read_rec, sret. cbv beta iota. rewrite Hd.
  cbn [db with_db]. rewrite find_rec_update by reflexivity.
  rewrite (find_rec_in (rec_id r) (db en) r Hn Hin eq_refl). reflexivity.
Qed.

(** on well-formed data, for an URL of the DGI service, [check_qr_code]
    tells what [scan_qr_code] then does: an URL without UUID is reported
    invalid and changes nothing; a known invoice is reported as a duplicate
    whose counter is one more than the row [check_qr_code] found; a new
    invoice, if the scan succeeds, adds one row carrying its UUID *)
Theorem check_qr_code_predicts_scan fetch acct seq_ref move_name user_name iso qr_url user en :
  wf en = true ->
  contains (strip qr_url) dgi_host = true ->
  match check_qr_code qr_url en with
  | CheckValidation => False
  | CheckInvalidUrl =>
      scan_qr_code fetch acct seq_ref move_name user_name iso qr_url user en
      = (en, Ok (ScanProcessed SInvalidUrl))
  | CheckExists r =>
      exists en' snap,
        scan_qr_code fetch acct seq_ref move_name user_name iso qr_url user en
        = (en', Ok (ScanProcessed (SDuplicate (S (duplicate_count r)) snap)))
  | CheckNew uuid =>
      forall en' x,
        scan_qr_code fetch acct seq_ref move_name user_name iso qr_url user en = (en', Ok x) ->
        exists nr, db en' = db en ++ [nr] /\ qr_uuid nr = uuid
  end.
Proof.
  intros Hwf Hc. unfold check_qr_code. rewrite (strip_length_pos _ Hc).
  destruct (extract_uuid_from_url (strip qr_url)) as [u|] eqn:Hu.
  - destruct (check_duplicate en u) as [r|] eqn:Hd.
    + do 2 eexists. apply (scan_dup_eq _ _ _ _ _ _ _ _ _ u); assumption.
    + intros en' x H. unfold scan_qr_code in H. rewrite (strip_length_pos _ Hc), Hc in H.
      cbn [negb] in H. unfold sbind at 1 in H.
      destruct (process_qr_scan fetch acct seq_ref move_name user_name iso (strip qr_url) (Some user) en)
        as [en1 [r0|e]] eqn:P; [|apply pair_raise_ok in H; destruct H].
      unfold sret in H. apply pair_ok_inj in H as [<- _].
      pose proof (process_outcome _ _ _ _ _ _ _ _ _ _ _ Hwf P) as (_ & _ & _ & Ho).
      destruct r0 as [| c s | d id | m id | id inv].
      * destruct Ho as [_ Hn]. rewrite Hn in Hu. discriminate.
      * exfalso. destruct Ho as (rr & Hin & Hco & Hs & Hx & _). rewrite Hu in Hx. injection Hx as Hx. subst u.
        unfold check_duplicate in Hd.
        pose proof (List.find_none _ _ Hd rr (proj1 (in_rev _ _) Hin)) as Hf. simpl in Hf.
        rewrite pystr_eqb_refl, Hs, Hco, Nat.eqb_refl in Hf. discriminate.
      * destruct Ho as (_ & _ & nr & Hdb & _ & _ & _ & _ & Hx & _).
        rewrite Hu in Hx. injection Hx as ->. eauto.
      * destruct Ho as (_ & _ & nr & Hdb & _ & _ & _ & _ & Hx & _).
        rewrite Hu in Hx. injection Hx as ->. eauto.
      * destruct Ho as (_ & _ & nr & Hdb & _ & _ & _ & _ & Hx & _).
        rewrite Hu in Hx. injection Hx as ->. eauto.
  - unfold scan_qr_code. rewrite (strip_length_pos _ Hc), Hc. cbn [negb].
    unfold process_qr_scan. rewrite Hu. reflexivity.
Qed.

Lemma check_exists_inv qr_url en r :
  check_qr_code qr_url en = CheckExists r ->
  exists u, (List.length (strip qr_url) =? 0) = false /\
            extract_uuid_from_url (strip qr_url) = Some u /\ check_duplicate en u = Some r.
Proof.
  unfold check_qr_code. destruct (List.length (strip qr_url) =? 0); [discriminate|].
  destruct (extract_uuid_from_url (strip qr_url)) as [u|]; [|discriminate].
  destruct (check_duplicate en u) as [r'|] eqn:Hd; [|discriminate].
  intro H. injection H as <-. eauto.
Qed.

(** on well-formed data, when [check_qr_code] finds an invoice, a
    [report_duplicate] of the URL answers with the counter one above the
    found row's and records the reporting user; a [scan_qr_code] of the
    same URL afterwards counts one more again *)
Theorem report_then_scan_counts fetch acct seq_ref move_name user_name iso qr_url user user' en r :
  wf en = true ->
  contains (strip qr_url) dgi_host = true ->
  check_qr_code qr_url en = CheckExists r ->
  exists en1 r1 en2 snap,
    report_duplicate qr_url user en = (en1, Ok (ReportOk (S (duplicate_count r)) r1)) /\
    rec_id r1 = rec_id r /\ last_duplicate_user_id r1 = Some user /\
    scan_qr_code fetch acct seq_ref move_name user_name iso qr_url user' en1
    = (en2, Ok (ScanProcessed (SDuplicate (S (S (duplicate_count r))) snap))).
Proof.
  intros Hwf Hc Hck. destruct (check_exists_inv _ _ _ Hck) as (u & Hl & Hu & Hd).
  destruct (wf_spec _ Hwf) as [Hn _].
  destruct (check_duplicate_some _ _ _ Hd) as (Hin & _).
  set (g := fun x => if rec_id x =? rec_id r
                     then set_dup x (S (duplicate_count x)) (now en) user else x).
  set (en1 := with_db en (map g (db en)) (next_id en)).
  assert (Hwf1 : wf en1 = true).
  { unfold en1. rewrite wf_map; [| intro x; unfold g; destruct (rec_id x =? rec_id r); reflexivity
                               | intro x; unfold g; destruct (rec_id x =? rec_id r); reflexivity
                               | intro x; unfold g; destruct (rec_id x =? rec_id r); reflexivity | exact Hwf].
    unfold wf in Hwf. apply andb_true_iff in Hwf as [Hwf _]. apply andb_true_iff in Hwf as [_ Hwf].
    exact Hwf. }
  assert (Hd1 : check_duplicate en1 u = Some (g r)).
  { unfold en1. rewrite check_duplicate_map, Hd; [reflexivity| | |];
      intro x; unfold g; destruct (rec_id x =? rec_id r); reflexivity. }
  exists en1, (g r). eexists. eexists. split; [|split; [|split]].
  - unfold report_duplicate. rewrite Hl, Hu. unfold sbind, sget, write_rec, read_rec, sret.
    cbv beta iota. rewrite Hd. fold g. fold en1.
    replace (find_rec (rec_id r) (db en1)) with (Some (g r)).
    + unfold g. rewrite Nat.eqb_refl. reflexivity.
    + unfold en1, g, with_db. cbn [db]. rewrite find_rec_update by reflexivity.
      rewrite (find_rec_in (rec_id r) (db en) r Hn Hin eq_refl). cbn [option_map].
      rewrite Nat.eqb_refl. reflexivity.
  - unfold g. destruct (rec_id r =? rec_id r); reflexivity.
  - unfold g. rewrite Nat.eqb_refl. reflexivity.
  - rewrite (scan_dup_eq fetch acct seq_ref move_name user_name iso qr_url user' en1 u (g r) Hwf1 Hc Hu Hd1).
    unfold g at 2 3. rewrite Nat.eqb_refl. reflexivity.
Qed.

Lemma check_qr_code_predicts_scan_witness :
  exists en' snap,
    scan_qr_code sample_fetch_ok sample_acct_ok sample_label sample_label sample_label sample_label
      sample_url 7 (sample_env [sample_record 1 Done (Some 42)])
    = (en', Ok (ScanProcessed (SDuplicate 1 snap))).
Proof.
  pose proof (check_qr_code_predicts_scan sample_fetch_ok sample_acct_ok sample_label sample_label
                sample_label sample_label sample_url 7 (sample_env [sample_record 1 Done (Some 42)]))
    as H.
  assert (E : check_qr_code sample_url (sample_env [sample_record 1 Done (Some 42)])
              = CheckExists (sample_record 1 Done (Some 42))) by (vm_compute; reflexivity).
  rewrite E in H. apply H; vm_compute; reflexivity.
Defined.

Lemma report_then_scan_counts_witness :
  exists en1 r1 en2 snap,
    report_duplicate sample_url 7 (sample_env [sample_record 1 Done (Some 42)])
      = (en1, Ok (ReportOk 1 r1)) /\
    rec_id r1 = 1 /\ last_duplicate_user_id r1 = Some 7 /\
    scan_qr_code sample_fetch_ok sample_acct_ok sample_label sample_label sample_label sample_label
      sample_url 8 en1 = (en2, Ok (ScanProcessed (SDuplicate 2 snap))).
Proof.
  apply (report_then_scan_counts sample_fetch_ok sample_acct_ok sample_label sample_label sample_label
           sample_label sample_url 7 8 (sample_env [sample_record 1 Done (Some 42)])
           (sample_record 1 Done (Some 42))); vm_compute; reflexivity.
Defined.

Lemma sync_loop_length fetch acct seq_ref move_name user_name iso user scans en en' rs :
  sync_loop fetch acct seq_ref move_name user_name iso user scans en = (en', Ok rs) ->
  List.length rs = List.length scans.
Proof.
  revert en en' rs. induction scans as [|sc scans IH]; intros en en' rs H; cbn [sync_loop] in H.
  - unfold sret in H. apply pair_ok_inj in H as [_ <-]. reflexivity.
  - unfold sbind at 1, slift in H.
    destruct (strip_value (get_or sc "qr_url" (VStr []))) as [u|ex]; [|apply pair_raise_ok in H; destruct H].
    cbv beta iota in H. unfold sbind at 1 in H.
    match type of H with
    | (let '(_, _) := ?m en in _) = _ => destruct (m en) as [en1 [e|ex]] eqn:E1
    end; [|apply pair_raise_ok in H; destruct H].
    unfold sbind in H.
    destruct (sync_loop fetch acct seq_ref move_name user_name iso user scans en1) as [en2 [es|ex]] eqn:E2;
      [|apply pair_raise_ok in H; destruct H].
    unfold sret in H. apply pair_ok_inj in H as [_ <-]. simpl. f_equal. exact (IH _ _ _ E2).
Qed.

Lemma success_not_duplicate x : sync_entry_success x = true -> is_duplicate_entry x = false.
Proof.
  destruct x as [u|[| | | |] u v]; cbn; congruence.
Qed.

Lemma count_three (f g : sync_entry -> bool) l :
  (forall x, f x = true -> g x = false) ->
  List.length l = List.length (filter f l) + List.length (filter g l)
                  + List.length (filter (fun x => negb (f x) && negb (g x)) l).
Proof.
  intro H. induction l as [|x l IH]; simpl; [reflexivity|].
  destruct (f x) eqn:F; [rewrite (H x F)|]; destruct (g x); simpl; lia.
Qed.

(** a [sync_offline_scans] that answers with results handled between 1
    and 50 scans, one entry per scan; the [errors] of its summary are the
    entries that are neither a success nor a duplicate, so that count is
    never negative and [successful + duplicates + errors = total] *)
Theorem sync_summary_consistent fetch acct seq_ref move_name user_name iso scans user en en'
    results total successful duplicates errors :
  sync_offline_scans fetch acct seq_ref move_name user_name iso scans user en
    = (en', Ok (SyncOk results total successful duplicates errors)) ->
  1 <= List.length scans <= 50 /\
  List.length results = List.length scans /\
  total = Z.of_nat (List.length scans) /\
  errors = Z.of_nat (List.length (filter (fun x => negb (sync_entry_success x)
                                                    && negb (is_duplicate_entry x)) results)) /\
  (0 <= errors)%Z /\
  (successful + duplicates + errors = total)%Z.
Proof.
  unfold sync_offline_scans. intro H.
  destruct (List.length scans =? 0) eqn:E0; [discriminate|].
  destruct (50 <? List.length scans) eqn:E50; [discriminate|].
  apply Nat.eqb_neq in E0. apply Nat.ltb_ge in E50.
  unfold sbind in H.
  destruct (sync_loop fetch acct seq_ref move_name user_name iso user scans en) as [en1 [rs|ex]] eqn:L;
    [|discriminate].
  unfold sret in H. injection H as _ <- <- <- <- <-.
  pose proof (sync_loop_length _ _ _ _ _ _ _ _ _ _ _ L) as Hl.
  pose proof (count_three sync_entry_success is_duplicate_entry rs success_not_duplicate) as C.
  repeat split; try lia.
Qed.

Lemma sync_summary_consistent_witness :
  let p := sync_offline_scans sample_fetch_ok sample_acct_ok sample_label sample_label sample_label
             sample_label [[]] 7 (sample_env []) in
  1 <= List.length [[] : dict] <= 50 /\ List.length [SyncMissing []] = List.length [[] : dict] /\
  1%Z = Z.of_nat (List.length [[] : dict]) /\
  1%Z = Z.of_nat (List.length (filter (fun x => negb (sync_entry_success x)
                                                 && negb (is_duplicate_entry x)) [SyncMissing []])) /\
  (0 <= 1)%Z /\ (0 + 0 + 1 = 1)%Z.
Proof.
  intro p. apply (sync_summary_consistent sample_fetch_ok sample_acct_ok sample_label sample_label
                    sample_label sample_label [[]] 7 (sample_env []) (fst p)).
  subst p. vm_compute. reflexivity.
Defined.

(** [has_next] of [get_history] holds exactly when the page is below
    [total_pages], whatever order the database returns the rows in *)
Theorem history_has_next arrange page_in limit_in state_filter en :
  let pg := snd (get_history arrange page_in limit_in state_filter en) in
  pg_has_next pg = (pg_page pg <? pg_total_pages pg)%Z.
Proof.
  unfold get_history. cbn [snd pg_has_next pg_page pg_total_pages].
  set (n := Z.of_nat (List.length (filter (history_domain en state_filter) (db en)))).
  set (L := Z.min 100 (Z.max 1 limit_in)).
  set (p := Z.max 1 page_in).
  assert (HL : (1 <= L)%Z) by lia. assert (Hp : (1 <= p)%Z) by lia. assert (Hn : (0 <= n)%Z) by lia.
  destruct ((p - 1) * L + L <? n)%Z eqn:E; symmetry.
  - apply Z.ltb_lt in E. apply Z.ltb_lt.
    apply Z.lt_le_trans with (m := (p + 1)%Z); [lia|].
    apply Z.div_le_lower_bound; lia.
  - apply Z.ltb_ge in E. apply Z.ltb_ge.
    apply Z.lt_succ_r. apply Z.div_lt_upper_bound; lia.
Qed.

(** the [error_scans] of [get_stats] and the [total_errors] of the
    summary of [get_errors] count the same rows *)
Theorem stats_errors_agree py_lower py_upper en :
  error_scans (get_stats en) = errors_total (error_summary py_lower py_upper en).
Proof.
  unfold get_stats, error_summary. cbn [error_scans errors_total].
  rewrite filter_filter'. reflexivity.
Qed.
